(** * Gophermart: the loyalty-bonus ledger of [internal/app/services]

    A shallow embedding of the order-number validator, the accrual client,
    the worker pool with its two sweep drivers, the order-intake path, the
    withdrawal path and the transaction wrapper of
    [internal/app/services/service.go], over the SQL repository of
    [internal/app/repositories], followed by the properties of the
    specification that concern them. *)

From Stdlib Require Import ZArith Ascii String List Lia Bool Permutation.
From stdpp Require Import base option list gmap fin_maps.
Import ListNotations.
Open Scope string_scope.
Open Scope list_scope.
Open Scope Z_scope.

(** ** Order-number validation *)

Module Luhn.

(** [strconv.Atoi(string(r))] with the error discarded: the value of an ASCII
    digit, and 0 for anything else. *)
Definition is_digit (r : ascii) : bool :=
  let n := N_of_ascii r in ((48 <=? n) && (n <=? 57))%N.

Definition Atoi (r : ascii) : Z :=
  if is_digit r then Z.of_N (N_of_ascii r) - 48 else 0.

(** The body of the [for i, r := range number] loop of [isValidLuhn].

    A Go string is a sequence of bytes and [range] walks it rune by rune, [i]
    being the byte offset at which the rune starts.  A byte below 0x80 is
    always a rune of its own, so every ASCII digit is visited at its own byte
    offset; every other rune (multi-byte or invalid) makes [Atoi] fail and
    adds 0 whatever its offset.  Walking the bytes one by one therefore adds up
    to the same [sum].  The sum is at most [9 * len(number)], far below the
    range of a 64-bit [int] for any string that fits in memory, so it is kept
    as an exact integer.  [%] is Go's truncated remainder, [Z.rem]. *)
Definition luhn_digit (parity i : Z) (r : ascii) : Z :=
  let digit := Atoi r in
  if Z.rem i 2 =? parity then
    let digit := digit * 2 in
    if digit >? 9 then digit - 9 else digit
  else digit.

Fixpoint luhn_loop (parity i : Z) (number : string) (sum : Z) : Z :=
  match number with
  | EmptyString => sum
  | String r rest => luhn_loop parity (i + 1) rest (sum + luhn_digit parity i r)
  end.

Definition isValidLuhn (number : string) : bool :=
  let nDigits := Z.of_nat (String.length number) in
  let parity := Z.rem nDigits 2 in
  Z.rem (luhn_loop parity 0 number 0) 10 =? 0.

(** *** The checksum as it is usually stated

    Reference definition, independent of the loop above: walking the digits
    from the rightmost one to the left, every second digit is doubled (9 is
    subtracted when the double exceeds 9); the number is valid when the total
    is a multiple of 10. *)
Definition luhn_double (d : Z) : Z :=
  if 9 <? 2 * d then 2 * d - 9 else 2 * d.

Fixpoint luhn_total_from_right (doubled : bool) (ds : list Z) : Z :=
  match ds with
  | [] => 0
  | d :: ds' =>
      (if doubled then luhn_double d else d)
      + luhn_total_from_right (negb doubled) ds'
  end.

Definition satisfies_luhn (ds : list Z) : Prop :=
  (luhn_total_from_right false (rev ds) mod 10 = 0)%Z.

Fixpoint digit_string (s : string) : bool :=
  match s with
  | EmptyString => true
  | String r rest => is_digit r && digit_string rest
  end.

Fixpoint digits_of (s : string) : list Z :=
  match s with
  | EmptyString => []
  | String r rest => Atoi r :: digits_of rest
  end.

(** Replacing the character at position [k] (the "flip" of one digit). *)
Fixpoint replace_at (k : nat) (c : ascii) (s : string) : string :=
  match s, k with
  | EmptyString, _ => EmptyString
  | String _ rest, O => String c rest
  | String r rest, S k' => String r (replace_at k' c rest)
  end.

(** Replacing every byte that is not an ASCII digit by the digit 0. *)
Fixpoint zero_substituted (s : string) : string :=
  match s with
  | EmptyString => EmptyString
  | String r rest =>
      String (if is_digit r then r else "0"%char) (zero_substituted rest)
  end.

End Luhn.

Import Luhn.

(** ** Data model ([internal/app/models], [internal/app/customerrors]) *)

(** [uuid.UUID]; [uuid.Nil] is the zero value. *)
Definition UUID := N.
Bind Scope N_scope with UUID.
Definition uuid_Nil : UUID := 0%N.

(** [decimal.Decimal]: an exact decimal number.  Amounts are counted in a
    fixed smallest unit, so that [Add], [Sub] and [LessThan] are the integer
    ones.  The rounding and the range of the DECIMAL(9, 2) columns are not
    modelled: an amount is stored as it is. *)
Definition Decimal := Z.

Inductive error : Type :=
  | ErrOrderNumber
  | ErrUserOrderExists
  | ErrAnotherUserOrderExists
  | ErrAccessingDB
  | ErrNotEnoughFunds
  | ErrNoRows (context : string)   (* fmt.Errorf("...: %w", pgx.ErrNoRows) *)
  | ErrDriver (message : string)   (* any other failure reported by pgx *)
  | ErrAccrual (message : string). (* failures built by GetAccrualAPI *)

(** [errors.Is(err, pgx.ErrNoRows)] *)
Definition is_ErrNoRows (err : error) : bool :=
  match err with ErrNoRows _ => true | _ => false end.

(** [models.UserOrder] (the fields carry a prefix to keep them apart from
    those of [AccrualResponseData]; [UploadedAt] plays no part here) and
    [models.AccrualResponseData]; a nil [*decimal.Decimal] is [None]. *)
Record UserOrder := {
  uo_UserID : UUID;
  uo_Number : string;
  uo_Status : string;
  uo_Accrual : option Decimal
}.

Record AccrualResponseData := {
  UserID : UUID;
  Order : string;
  Status : string;
  Accrual : option Decimal
}.

(** ** The SQL tables ([CreateBDTables])

    The tables [orders], [balance] and [withdrawals] as lists of rows, in
    insertion order, without their [id] and [date] columns.  Only [orders]
    has a uniqueness constraint (on [order_number]); it is enforced by the
    INSERT below. *)

Record OrderRow := {
  order_number : string;
  order_uuid : UUID;
  order_accrual : option Decimal;
  order_status : string
}.

Record BalanceRow := {
  balance_uuid : UUID;
  user_balance : Decimal
}.

Record WithdrawalRow := {
  withdrawal_order_number : string;
  withdrawal_uuid : UUID;
  withdrawal_sum : Decimal
}.

Record DB := {
  orders : list OrderRow;
  balance : list BalanceRow;
  withdrawals : list WithdrawalRow
}.

(** ** The world a service call runs in

    [db] is the committed state, read through the pool; [open_tx] is the
    working copy of the transaction in progress, written through [pgx.Tx];
    [trace] lists the I/O performed so far, oldest first; [faults] tells, for
    the n-th I/O operation, whether the driver fails it (connection lost,
    context cancelled, constraint of a table that is not modelled). *)
Inductive Query :=
  | QOrderOwner (orderNumber : string)
  | QUserBalance (userID : UUID)
  | QProcessingOrders
  | QUserProcessingOrders (userID : UUID).

Inductive Stmt :=
  | SInsertOrder (orderNumber : string) (userID : UUID)
                 (bonus : Decimal) (orderStatus : string)
  | SUpdateOrder (status : string) (accrual : option Decimal)
                 (orderNumber : string)
  | SInsertWithdrawal (userID : UUID) (orderNumber : string) (sum : Decimal)
  | SUpdateBalance (newBalance : Decimal) (userID : UUID).

Inductive Event :=
  | EvQuery (q : Query)
  | EvBegin
  | EvExec (s : Stmt)
  | EvCommit
  | EvRollback
  | EvHttpGet (orderNumber : string).

Record World := {
  db : DB;
  open_tx : option DB;
  trace : list Event;
  faults : nat -> option string
}.

(** ** Computations: state passing, with Go's panics *)

Inductive Res (A : Type) : Type :=
  | Ret (a : A) (w : World)
  | Panic (p : string) (w : World).
Arguments Ret {A} a w.
Arguments Panic {A} p w.

Definition M (A : Type) : Type := World -> Res A.

Definition ret {A} (a : A) : M A := fun w => Ret a w.

Definition bind {A B} (m : M A) (k : A -> M B) : M B :=
  fun w => match m w with
           | Ret a w' => k a w'
           | Panic p w' => Panic p w'
           end.

Definition panic {A} (p : string) : M A := fun w => Panic p w.

Notation "'let*' x ':=' m 'in' k" := (bind m (fun x => k))
  (at level 10, x pattern, m at level 100, k at level 200).

(** [*p] for a pointer that may be nil. *)
Definition deref {A} (p : option A) : M A :=
  match p with
  | Some a => ret a
  | None =>
      panic "runtime error: invalid memory address or nil pointer dereference"
  end.

Inductive result (A : Type) : Type :=
  | Ok (a : A)
  | Err (err : error).
Arguments Ok {A} a.
Arguments Err {A} err.

Definition log_event (ev : Event) : M unit :=
  fun w => Ret tt {| db := db w; open_tx := open_tx w;
                     trace := trace w ++ [ev]; faults := faults w |}.

(** One round trip to the database: recorded, and failed by the driver when
    the fault oracle says so. *)
Definition io (ev : Event) : M (option error) :=
  fun w => Ret (ErrDriver <$> faults w (length (trace w)))
               {| db := db w; open_tx := open_tx w;
                  trace := trace w ++ [ev]; faults := faults w |}.

Definition committed : M DB := fun w => Ret (db w) w.

Definition set_open_tx (t : option DB) : M unit :=
  fun w => Ret tt {| db := db w; open_tx := t;
                     trace := trace w; faults := faults w |}.

Definition set_committed (d : DB) : M unit :=
  fun w => Ret tt {| db := d; open_tx := open_tx w;
                     trace := trace w; faults := faults w |}.

Definition current_tx : M (option DB) := fun w => Ret (open_tx w) w.

(** ** The repository ([internal/app/repositories]) *)

(** What each statement does to the tables it is executed on. *)
Definition exec_stmt (s : Stmt) (d : DB) : result DB :=
  match s with
  | SInsertOrder orderNumber userID bonus orderStatus =>
      (* order_number VARCHAR(255) NOT NULL UNIQUE *)
      if existsb (fun r => String.eqb (order_number r) orderNumber) (orders d)
      then Err (ErrDriver "duplicate key value violates unique constraint")
      else Ok {| orders := orders d ++
                   [{| order_number := orderNumber; order_uuid := userID;
                       order_accrual := Some bonus;
                       order_status := orderStatus |}];
                 balance := balance d; withdrawals := withdrawals d |}
  | SUpdateOrder status accrual orderNumber =>
      Ok {| orders :=
              map (fun r => if String.eqb (order_number r) orderNumber
                            then {| order_number := order_number r;
                                    order_uuid := order_uuid r;
                                    order_accrual := accrual;
                                    order_status := status |}
                            else r) (orders d);
            balance := balance d; withdrawals := withdrawals d |}
  | SInsertWithdrawal userID orderNumber sum =>
      Ok {| orders := orders d; balance := balance d;
            withdrawals := withdrawals d ++
              [{| withdrawal_order_number := orderNumber;
                  withdrawal_uuid := userID; withdrawal_sum := sum |}] |}
  | SUpdateBalance newBalance userID =>
      Ok {| orders := orders d;
            balance :=
              map (fun r => if N.eqb (balance_uuid r) userID
                            then {| balance_uuid := balance_uuid r;
                                    user_balance := newBalance |}
                            else r) (balance d);
            withdrawals := withdrawals d |}
  end.

(** [tx.Exec(ctx, sqlQuery, ...)] *)
Definition tx_Exec (s : Stmt) : M (option error) :=
  let* failed := io (EvExec s) in
  match failed with
  | Some err => ret (Some err)
  | None =>
      let* t := current_tx in
      match t with
      | None => ret (Some (ErrDriver "tx is closed"))
      | Some d =>
          match exec_stmt s d with
          | Ok d' => let* _ := set_open_tx (Some d') in ret None
          | Err err => ret (Some err)
          end
      end
  end.

Definition StoreUserOrder (orderNumber orderStatus : string) (userID : UUID)
    (bonus : Decimal) : M (option error) :=
  tx_Exec (SInsertOrder orderNumber userID bonus orderStatus).

(** [SELECT uuid FROM orders WHERE order_number = $1], first row. *)
Definition select_order_owner (orderNumber : string) (d : DB) : option UUID :=
  order_uuid <$>
    find (fun r => String.eqb (order_number r) orderNumber) (orders d).

Definition GetUUIDFromOrders (orderNumber : string)
    : M (UUID * option error) :=
  let* failed := io (EvQuery (QOrderOwner orderNumber)) in
  match failed with
  | Some err => ret (uuid_Nil, Some err)
  | None =>
      let* d := committed in
      match select_order_owner orderNumber d with
      | Some savedUserID => ret (savedUserID, None)
      | None => ret (uuid_Nil, Some (ErrNoRows "the order number not found"))
      end
  end.

Fixpoint UpdateOrders (updatedOrders : list AccrualResponseData)
    : M (option error) :=
  match updatedOrders with
  | [] => ret None
  | order :: rest =>
      let* err := tx_Exec (SUpdateOrder (Status order) (Accrual order)
                                        (Order order)) in
      match err with
      | Some e => ret (Some e)
      | None => UpdateOrders rest
      end
  end.

Definition pending_status (status : string) : bool :=
  String.eqb status "REGISTERED" || String.eqb status "PROCESSING"
  || String.eqb status "NEW".

(** [SELECT order_number,status,uuid FROM orders WHERE status = $1 OR
    status = $2 OR status = $3] *)
Definition select_processing_orders (d : DB) : list UserOrder :=
  map (fun r => {| uo_UserID := order_uuid r;
                   uo_Number := order_number r;
                   uo_Status := order_status r;
                   uo_Accrual := None |})
      (List.filter (fun r => pending_status (order_status r)) (orders d)).

Definition GetProcessingOrders : M (list UserOrder * option error) :=
  let* failed := io (EvQuery QProcessingOrders) in
  match failed with
  | Some err => ret ([], Some err)
  | None =>
      let* d := committed in
      ret (select_processing_orders d, None)
  end.

(** [SELECT order_number,status FROM orders WHERE uuid=$1 AND (status = $2
    OR status = $3)]: the [uuid] column is not selected, so [UserID] stays
    [uuid.Nil] in the orders returned. *)
Definition select_user_processing_orders (userID : UUID) (d : DB)
    : list UserOrder :=
  map (fun r => {| uo_UserID := uuid_Nil;
                   uo_Number := order_number r;
                   uo_Status := order_status r;
                   uo_Accrual := None |})
      (List.filter
         (fun r =>
            N.eqb (order_uuid r) userID
            && (String.eqb (order_status r) "NEW"
                || String.eqb (order_status r) "PROCESSING"))
         (orders d)).

Definition GetUserProcessingOrders (userID : UUID)
    : M (list UserOrder * option error) :=
  let* failed := io (EvQuery (QUserProcessingOrders userID)) in
  match failed with
  | Some err => ret ([], Some err)
  | None =>
      let* d := committed in
      ret (select_user_processing_orders userID d, None)
  end.

Definition StoreUserWithdrawal (userID : UUID) (orderNumber : string)
    (sum : Decimal) : M (option error) :=
  tx_Exec (SInsertWithdrawal userID orderNumber sum).

Definition UpdateUserBalance (userID : UUID) (newBalance : Decimal)
    : M (option error) :=
  tx_Exec (SUpdateBalance newBalance userID).

(** [for userID, newBalance := range usersBalanceToUpdate]: Go leaves the
    order of the iteration open; the keys are distinct, so the updates touch
    distinct rows, and the entries are taken in the order of [map_to_list]. *)
Fixpoint balance_updates (entries : list (UUID * Decimal)) : M (option error) :=
  match entries with
  | [] => ret None
  | (userID, newBalance) :: rest =>
      let* err := tx_Exec (SUpdateBalance newBalance userID) in
      match err with
      | Some e => ret (Some e)
      | None => balance_updates rest
      end
  end.

Definition UsersBalanceUpdate (usersBalanceToUpdate : gmap UUID Decimal)
    : M (option error) :=
  balance_updates (map_to_list usersBalanceToUpdate).

(** [SELECT user_balance FROM balance WHERE uuid = $1], first row. *)
Definition select_user_balance (userID : UUID) (d : DB) : option Decimal :=
  user_balance <$> find (fun r => N.eqb (balance_uuid r) userID) (balance d).

Definition GetUserBalance (userID : UUID) : M (Decimal * option error) :=
  let* failed := io (EvQuery (QUserBalance userID)) in
  match failed with
  | Some err => ret (0, Some err)
  | None =>
      let* d := committed in
      match select_user_balance userID d with
      | Some userBalance => ret (userBalance, None)
      | None => ret (0, Some (ErrNoRows "the userID not found"))
      end
  end.

(** ** The transaction wrapper ([withTransaction]) *)

(** [s.dbPool.Begin(ctx)]: the transaction starts from the committed state. *)
Definition Begin : M (option error) :=
  let* failed := io EvBegin in
  match failed with
  | Some err => ret (Some err)
  | None =>
      let* d := committed in
      let* _ := set_open_tx (Some d) in
      ret None
  end.

(** [tx.Commit(ctx)]: the working copy becomes the committed state, unless
    the driver fails, in which case the transaction is lost. *)
Definition Commit : M (option error) :=
  let* failed := io EvCommit in
  let* t := current_tx in
  let* _ := set_open_tx None in
  match failed, t with
  | Some err, _ => ret (Some err)
  | None, None => ret (Some (ErrDriver "tx is closed"))
  | None, Some d => let* _ := set_committed d in ret None
  end.

(** [tx.Rollback(ctx)]: the working copy is dropped (also when the call
    itself fails: the connection is then closed and the server aborts the
    transaction). *)
Definition Rollback : M unit :=
  let* _ := log_event EvRollback in
  set_open_tx None.

(** [recover()] in a deferred function: the panic of the body, if any. *)
Definition recover {A} (m : M A) : M (A + string) :=
  fun w => match m w with
           | Ret a w' => Ret (inl a) w'
           | Panic p w' => Ret (inr p) w'
           end.

(** The result of [withTransaction] is not a named one: [return err] fixes
    the value returned before the deferred function runs, so the error that
    [tx.Commit] assigns to [err] is not the one the caller sees. *)
Definition withTransaction (txFunc : M (option error)) : M (option error) :=
  let* err := Begin in
  match err with
  | Some err => ret (Some err)
  | None =>
      let* r := recover txFunc in
      match r with
      | inr p => let* _ := Rollback in panic p
      | inl (Some err) => let* _ := Rollback in ret (Some err)
      | inl None => let* _ := Commit in ret None
      end
  end.

(** ** The accrual client ([GetAccrualAPI]) *)

(** What the external service answers to [GET /api/orders/{number}]: the
    request fails, or a response arrives whose body cannot be read, cannot
    be parsed, or is parsed by [json.Unmarshal] into the fields [order],
    [status] and [accrual] (an absent field leaves the zero value). *)
Inductive Body :=
  | BodyUnreadable (message : string)
  | BodyMalformed (message : string)
  | BodyJSON (order status : string) (accrual : option Decimal).

Inductive HttpResult :=
  | RequestFailed (message : string)
  | Response (StatusCode : Z) (body : Body).

Definition AccrualService := string -> HttpResult.

Definition StatusNoContent : Z := 204.
Definition StatusTooManyRequests : Z := 429.
Definition StatusInternalServerError : Z := 500.

(** [models.AccrualResponseData{}] *)
Definition no_data : AccrualResponseData :=
  {| UserID := uuid_Nil; Order := EmptyString; Status := EmptyString;
     Accrual := None |}.

Definition GetAccrualAPI (service : AccrualService) (order : UserOrder)
    : AccrualResponseData * option error :=
  match service (uo_Number order) with
  | RequestFailed message => (no_data, Some (ErrAccrual message))
  | Response StatusCode body =>
      if (StatusCode =? StatusTooManyRequests)
         || (StatusCode =? StatusNoContent)
      then ({| UserID := uo_UserID order; Order := uo_Number order;
               Status := "NEW"; Accrual := None |}, None)
      else if StatusCode =? StatusInternalServerError
      then (no_data, Some (ErrAccrual "internal server error"))
      else
        match body with
        | BodyUnreadable message => (no_data, Some (ErrAccrual message))
        | BodyMalformed message => (no_data, Some (ErrAccrual message))
        | BodyJSON order' status accrual =>
            ({| UserID := uo_UserID order; Order := order';
                Status := status; Accrual := accrual |}, None)
        end
  end.

(** ** The worker pool ([startWorkers], [worker])

    Every task is taken by one worker, which sends at most one value, on
    [resultCh] or on [errCh].  Both channels are unbuffered and are closed
    only after every worker has called [wg.Done()], that is after every send
    has been received: the aggregating loop sees the values of all tasks, one
    at a time, in an order the scheduler chooses, and then both channels
    closed.  A task is answered only after a worker has taken it, the
    workers take the tasks in queue order, and there are [numOfWorkers] of
    them: the next answer is that of one of the first [numOfWorkers] tasks
    not yet answered.  [picks] stands for the scheduler, naming at each step
    which of these comes next. *)
Inductive Sent :=
  | OnResultCh (accrualData : AccrualResponseData)
  | OnErrCh (err : error).

Definition worker (service : AccrualService) (task : UserOrder)
    : option Sent :=
  let '(responseData, err) := GetAccrualAPI service task in
  match err with
  | Some err => Some (OnErrCh err)
  | None =>
      if negb (String.eqb (uo_Status task) (Status responseData))
      then Some (OnResultCh responseData)
      else None
  end.

Fixpoint arrange {A} (n numOfWorkers : nat) (picks : list nat)
    (tasks : list A) : list A :=
  match n with
  | O => []
  | S n' =>
      let k := (hd 0 picks mod (numOfWorkers `min` length tasks))%nat in
      match tasks !! k with
      | Some t => t :: arrange n' numOfWorkers (tl picks) (delete k tasks)
      | None => []
      end
  end.

Definition arrival_order {A} (numOfWorkers : nat) (picks : list nat)
    (tasks : list A) : list A :=
  arrange (length tasks) numOfWorkers picks tasks.

Definition startWorkers (service : AccrualService) (numOfWorkers : nat)
    (picks : list nat) (tasks : list UserOrder) : list Sent :=
  omap (worker service) (arrival_order numOfWorkers picks tasks).

(** ** The services ([GmartServices]) *)

Section Services.

Variable accrual : AccrualService.

(** [err != nil && !errors.Is(err, pgx.ErrNoRows)] *)
Definition other_than_no_rows (err : option error) : bool :=
  match err with
  | Some e => negb (is_ErrNoRows e)
  | None => false
  end.

(** [InputUserOrder]: the query runs in a goroutine of its own, which sends
    on exactly one of [resultCh] and [errCh] before closing both; the
    [select] receives that value. *)
Definition InputUserOrder (userID : UUID) (orderNumber : string)
    : M (option error) :=
  if negb (isValidLuhn orderNumber) then ret (Some ErrOrderNumber) else
  let* (savedUserID, err) := GetUUIDFromOrders orderNumber in
  match err with
  | None =>
      if N.eqb savedUserID userID then ret (Some ErrUserOrderExists)
      else ret (Some ErrAnotherUserOrderExists)
  | Some err =>
      if negb (is_ErrNoRows err) then ret (Some ErrAccessingDB) else
      let order := {| uo_UserID := uuid_Nil; uo_Number := orderNumber;
                      uo_Status := EmptyString; uo_Accrual := None |} in
      let* _ := log_event (EvHttpGet orderNumber) in
      let '(responseData, err) := GetAccrualAPI accrual order in
      match err with
      | Some err => ret (Some err)
      | None =>
          let accrualData :=
            if String.eqb (Status responseData) "REGISTERED"
            then {| UserID := UserID responseData;
                    Order := Order responseData;
                    Status := "NEW"; Accrual := Accrual responseData |}
            else responseData in
          let* (userBalance, err) := GetUserBalance userID in
          if other_than_no_rows err then ret (Some ErrAccessingDB) else
          let* a := deref (Accrual accrualData) in
          let newUserBalance := userBalance + a in
          withTransaction (
            let* bonus := deref (Accrual accrualData) in
            let* err := StoreUserOrder orderNumber (Status accrualData)
                                       userID bonus in
            match err with
            | Some _ => ret (Some ErrAccessingDB)
            | None =>
                match Accrual accrualData with
                | Some _ =>
                    let* err := UpdateUserBalance userID newUserBalance in
                    match err with
                    | Some _ => ret (Some ErrAccessingDB)
                    | None => ret None
                    end
                | None => ret None
                end
            end)
      end
  end.

(** The aggregating loop of [RunUpdateOrdersStatusJob], one iteration per
    value received; [inl] is the [return] from inside the loop. *)
Fixpoint job_loop (sent : list Sent)
    (ordersToUpdate : list AccrualResponseData)
    (usersBalanceToUpdate : gmap UUID Decimal)
    : M (error + list AccrualResponseData * gmap UUID Decimal) :=
  match sent with
  | [] => ret (inr (ordersToUpdate, usersBalanceToUpdate))
  | OnResultCh accrualData :: rest =>
      let ordersToUpdate := ordersToUpdate ++ [accrualData] in
      match Accrual accrualData with
      | Some a =>
          let* (userBalance, err) := GetUserBalance (UserID accrualData) in
          match err with
          | Some _ => ret (inl ErrAccessingDB)
          | None =>
              job_loop rest ordersToUpdate
                (<[UserID accrualData := userBalance + a]>
                   usersBalanceToUpdate)
          end
      | None => job_loop rest ordersToUpdate usersBalanceToUpdate
      end
  | OnErrCh err :: _ => ret (inl err)
  end.

Definition numOfWorkers : nat := 10.

Definition RunUpdateOrdersStatusJob (picks : list nat) : M (option error) :=
  let* (processingOrders, err) := GetProcessingOrders in
  match err with
  | Some err => ret (Some err)
  | None =>
      let sent := startWorkers accrual numOfWorkers picks processingOrders in
      let* collected := job_loop sent [] ∅ in
      match collected with
      | inl err => ret (Some err)
      | inr (ordersToUpdate, usersBalanceToUpdate) =>
          withTransaction (
            let* err := UsersBalanceUpdate usersBalanceToUpdate in
            match err with
            | Some _ => ret (Some ErrAccessingDB)
            | None =>
                if (0 <? length ordersToUpdate)%nat then
                  let* err := UpdateOrders ordersToUpdate in
                  match err with
                  | Some _ => ret (Some ErrAccessingDB)
                  | None => ret None
                  end
                else ret None
            end)
      end
  end.

(** The aggregating loop of [CheckUpdateUserOrders]. *)
Fixpoint user_loop (sent : list Sent)
    (ordersToUpdate : list AccrualResponseData) (accrualToUpdate : Decimal)
    : error + list AccrualResponseData * Decimal :=
  match sent with
  | [] => inr (ordersToUpdate, accrualToUpdate)
  | OnResultCh accrualData :: rest =>
      let ordersToUpdate := ordersToUpdate ++ [accrualData] in
      match Accrual accrualData with
      | Some a => user_loop rest ordersToUpdate (accrualToUpdate + a)
      | None => user_loop rest ordersToUpdate accrualToUpdate
      end
  | OnErrCh err :: _ => inl err
  end.

Definition CheckUpdateUserOrders (picks : list nat) (userID : UUID)
    : M (option error) :=
  let* (orders, err) := GetUserProcessingOrders userID in
  match err with
  | Some err => ret (Some err)
  | None =>
      let sent := startWorkers accrual numOfWorkers picks orders in
      match user_loop sent [] 0 with
      | inl err => ret (Some err)
      | inr (ordersToUpdate, accrualToUpdate) =>
          let* (userBalance, err) := GetUserBalance userID in
          match err with
          | Some _ => ret (Some ErrAccessingDB)
          | None =>
              let newUserBalance := userBalance + accrualToUpdate in
              withTransaction (
                let* err := UpdateUserBalance userID newUserBalance in
                match err with
                | Some _ => ret (Some ErrAccessingDB)
                | None =>
                    if (0 <? length ordersToUpdate)%nat then
                      let* err := UpdateOrders ordersToUpdate in
                      match err with
                      | Some _ => ret (Some ErrAccessingDB)
                      | None => ret None
                      end
                    else ret None
                end)
          end
      end
  end.

Definition WithdrawalBonusForNewOrder (userID : UUID) (orderNumber : string)
    (sum : Decimal) : M (option error) :=
  if negb (isValidLuhn orderNumber) then ret (Some ErrOrderNumber) else
  let* (userBalance, err) := GetUserBalance userID in
  match err with
  | Some _ => ret (Some ErrAccessingDB)
  | None =>
      if userBalance <? sum then ret (Some ErrNotEnoughFunds) else
      let newUserBalance := userBalance - sum in
      withTransaction (
        let* err := StoreUserWithdrawal userID orderNumber sum in
        match err with
        | Some err => ret (Some err)
        | None =>
            let* err := UpdateUserBalance userID newUserBalance in
            match err with
            | Some err => ret (Some err)
            | None => ret None
            end
        end)
  end.

End Services.

(** ** Observations and auxiliary functions *)

Fixpoint total_from_left (ds : list Z) : Z :=
  match ds with
  | [] => 0
  | d :: ds' =>
      (if Nat.even (length ds) then luhn_double d else d) + total_from_left ds'
  end.

Definition world_of {A} (r : Res A) : World :=
  match r with Ret _ w => w | Panic _ w => w end.

Definition returned {A} (r : Res A) : option A :=
  match r with Ret a _ => Some a | Panic _ _ => None end.

(** [SELECT status FROM orders WHERE order_number = $1], first row: the
    status stored for an order. *)
Definition stored_status (orderNumber : string) (d : DB) : option string :=
  order_status <$>
    find (fun r => String.eqb (order_number r) orderNumber) (orders d).

(** [SELECT accrual FROM orders WHERE order_number = $1], first row: the
    accrual stored for an order, [Some None] when it is NULL. *)
Definition stored_accrual (orderNumber : string) (d : DB)
    : option (option Decimal) :=
  order_accrual <$>
    find (fun r => String.eqb (order_number r) orderNumber) (orders d).

Definition apply_stmt (s : Stmt) (d : DB) : DB :=
  match exec_stmt s d with Ok d' => d' | Err _ => d end.

Definition apply_stmts (stmts : list Stmt) (d : DB) : DB :=
  fold_left (fun d s => apply_stmt s d) stmts d.

Definition order_stmt (order : AccrualResponseData) : Stmt :=
  SUpdateOrder (Status order) (Accrual order) (Order order).

Definition balance_stmt (entry : UUID * Decimal) : Stmt :=
  SUpdateBalance (snd entry) (fst entry).

Definition no_faults (w : World) : Prop := forall n, faults w n = None.

Definition mkWorld := Build_World.

Fixpoint exec_each (stmts : list Stmt) : M (option error) :=
  match stmts with
  | [] => ret None
  | s :: rest =>
      let* err := tx_Exec s in
      match err with
      | Some e => ret (Some e)
      | None => exec_each rest
      end
  end.

Definition begun (w : World) : World :=
  mkWorld (db w) (Some (db w)) (trace w ++ [EvBegin]) (faults w).

Definition rolled_back (w : World) : World :=
  mkWorld (db w) None (trace w ++ [EvRollback]) (faults w).

Definition commit_result (w : World) : World :=
  mkWorld (match faults w (length (trace w)), open_tx w with
           | None, Some d => d
           | _, _ => db w
           end) None (trace w ++ [EvCommit]) (faults w).


Definition is_update (s : Stmt) : bool :=
  match s with
  | SUpdateOrder _ _ _ | SUpdateBalance _ _ => true
  | _ => false
  end.

(** The body of a transaction that executes [stmts] one after the other and
    stops at the first failure, reporting it as [report] says. *)
Definition statements_body (report : error -> error) (stmts : list Stmt)
    : M (option error) :=
  let* err := exec_each stmts in ret (report <$> err).

Definition as_ErrAccessingDB (_ : error) : error := ErrAccessingDB.

(** What the aggregating loops receive. *)
Definition result_sent (s : Sent) : option AccrualResponseData :=
  match s with OnResultCh r => Some r | OnErrCh _ => None end.

Definition error_sent (s : Sent) : option error :=
  match s with OnErrCh e => Some e | OnResultCh _ => None end.

Definition results_of (sent : list Sent) : list AccrualResponseData :=
  omap result_sent sent.

Definition first_error (sent : list Sent) : option error :=
  head (omap error_sent sent).

Definition total (amounts : list Decimal) : Decimal := foldr Z.add 0 amounts.

Definition accrual_sent (s : Sent) : Decimal :=
  match s with
  | OnResultCh r => default 0 (Accrual r)
  | OnErrCh _ => 0
  end.

(** The accrual a task brings to the sweep: that of the result its worker
    sends, if it sends one carrying an amount. *)
Definition accrual_brought (service : AccrualService) (task : UserOrder)
    : Decimal :=
  from_option accrual_sent 0 (worker service task).

Definition is_read (ev : Event) : bool :=
  match ev with EvQuery _ => true | _ => false end.

Definition logged (ev : Event) (w : World) : World :=
  mkWorld (db w) (open_tx w) (trace w ++ [ev]) (faults w).

(** The driver's verdict on the next round trip. *)
Definition next_fault (w : World) : option error :=
  ErrDriver <$> faults w (length (trace w)).

(** [if accrualData.Status == "REGISTERED" { accrualData.Status = "NEW" }] *)
Definition normalized (status : string) : string :=
  if String.eqb status "REGISTERED" then "NEW" else status.

Definition intake_order (orderNumber : string) : UserOrder :=
  {| uo_UserID := uuid_Nil; uo_Number := orderNumber;
     uo_Status := EmptyString; uo_Accrual := None |}.

Definition nil_dereference : string :=
  "runtime error: invalid memory address or nil pointer dereference".

(** What [GetAccrualAPI] makes of a 429 or 204 answer. *)
Definition retry_later (task : UserOrder) : AccrualResponseData :=
  {| UserID := uo_UserID task; Order := uo_Number task;
     Status := "NEW"; Accrual := None |}.

Definition names (orderNumber : string) (r : AccrualResponseData) : bool :=
  String.eqb orderNumber (Order r).

(** A string without any ASCII digit. *)
Fixpoint no_digit (s : string) : bool :=
  match s with
  | EmptyString => true
  | String r rest => negb (is_digit r) && no_digit rest
  end.

(** ** Ledgers and accrual services on which the services are run *)

Definition answers (table : list (string * HttpResult)) : AccrualService :=
  fun orderNumber =>
    match find (fun entry => String.eqb (fst entry) orderNumber) table with
    | Some entry => snd entry
    | None => RequestFailed "connection refused"
    end.

(** A world whose driver never fails, and one whose driver fails the n-th
    round trip. *)
Definition reliable (d : DB) : World :=
  {| db := d; open_tx := None; trace := []; faults := fun _ => None |}.

Definition failing_at (n : nat) (d : DB) : World :=
  {| db := d; open_tx := None; trace := [];
     faults := fun k => if Nat.eqb k n then Some "conn closed" else None |}.

Definition pending_order (orderNumber : string) (userID : UUID)
    (status : string) : OrderRow :=
  {| order_number := orderNumber; order_uuid := userID;
     order_accrual := None; order_status := status |}.

Definition processed (orderNumber : string) (accrual : Decimal) : HttpResult :=
  Response 200 (BodyJSON orderNumber "PROCESSED" (Some accrual)).

Definition empty_body : Body := BodyMalformed "unexpected end of JSON input".

(** One user with a balance of 100 and two pending orders. *)
Definition two_pending_orders : DB :=
  {| orders := [pending_order "79927398713" 1 "NEW";
                pending_order "12345678903" 1 "PROCESSING"];
     balance := [{| balance_uuid := 1; user_balance := 100 |}];
     withdrawals := [] |}.

Definition both_processed : AccrualService :=
  answers [("79927398713", processed "79927398713" 10);
           ("12345678903", processed "12345678903" 20)].

Definition second_fails : AccrualService :=
  answers [("79927398713", processed "79927398713" 10);
           ("12345678903", Response StatusInternalServerError empty_body)].

(** One user with a balance of 100 and one order, pending or final. *)
Definition one_order (status : string) (accrual : option Decimal) : DB :=
  {| orders := [{| order_number := "79927398713"; order_uuid := 1;
                   order_accrual := accrual; order_status := status |}];
     balance := [{| balance_uuid := 1; user_balance := 100 |}];
     withdrawals := [] |}.

Definition rate_limited : AccrualService :=
  answers [("79927398713", Response StatusTooManyRequests empty_body)].

Definition registered : AccrualService :=
  answers [("79927398713",
            Response 200 (BodyJSON "79927398713" "REGISTERED" None))].

Definition no_content : AccrualService :=
  answers [("12345678903", Response StatusNoContent empty_body)].

Definition registered_with_accrual : AccrualService :=
  answers [("12345678903",
            Response 200 (BodyJSON "12345678903" "REGISTERED" (Some 0)))].

(** ** Further observations *)

(** Whether the statements, executed one after the other, all succeed. *)
Fixpoint executable (stmts : list Stmt) (d : DB) : bool :=
  match stmts with
  | [] => true
  | s :: rest =>
      match exec_stmt s d with
      | Ok d' => executable rest d'
      | Err _ => false
      end
  end.

(** The order numbers of the table, in row order. *)
Definition order_numbers (d : DB) : list string :=
  map order_number (orders d).

(** A body that [json.Unmarshal] has parsed. *)
Definition parsed (body : Body) : bool :=
  match body with BodyJSON _ _ _ => true | _ => false end.

(** The status codes [GetAccrualAPI] looks at. *)
Definition singled_out (StatusCode : Z) : bool :=
  (StatusCode =? StatusTooManyRequests) || (StatusCode =? StatusNoContent)
  || (StatusCode =? StatusInternalServerError).

(** What an UPDATE leaves in place: the rows, their keys and owners, and the
    other tables. *)
Definition same_rows (d d' : DB) : Prop :=
  map order_number (orders d') = map order_number (orders d)
  /\ map order_uuid (orders d') = map order_uuid (orders d)
  /\ map balance_uuid (balance d') = map balance_uuid (balance d)
  /\ withdrawals d' = withdrawals d.

(** The accrual that a value received credits to a user, if any, and the
    last such accrual among the values received. *)
Definition credit_to (u : UUID) (s : Sent) : option Decimal :=
  match s with
  | OnResultCh r => if N.eqb (UserID r) u then Accrual r else None
  | OnErrCh _ => None
  end.

Fixpoint last_credit (u : UUID) (sent : list Sent) : option Decimal :=
  match sent with
  | [] => None
  | s :: rest =>
      match last_credit u rest with
      | Some a => Some a
      | None => credit_to u s
      end
  end.

(** The accruals that the pending orders [tasks] bring to a user. *)
Definition credits_to (u : UUID) (service : AccrualService)
    (tasks : list UserOrder) : list Decimal :=
  omap (credit_to u) (omap (worker service) tasks).

(** [SELECT * FROM orders WHERE order_number = $1], first row, and the row
    an UPDATE of its status and accrual makes of it. *)
Definition stored_order (orderNumber : string) (d : DB) : option OrderRow :=
  find (fun r => String.eqb (order_number r) orderNumber) (orders d).

Definition rewritten (answer : AccrualResponseData) (row : OrderRow)
    : OrderRow :=
  {| order_number := order_number row; order_uuid := order_uuid row;
     order_accrual := Accrual answer; order_status := Status answer |}.

(** The digit to append to a number to make it pass the Luhn check. *)
Definition check_digit (number : string) : ascii :=
  let weighted := luhn_total_from_right true (rev (digits_of number)) in
  ascii_of_N (48 + Z.to_N ((10 - weighted mod 10) mod 10)).

(** Exchanging the characters at positions [k] and [k + 1]. *)
Definition transposed (k : nat) (number : string) : string :=
  match String.get k number, String.get (S k) number with
  | Some a, Some b => replace_at k b (replace_at (S k) a number)
  | _, _ => number
  end.

(** An accrual service that still works on the order of [one_order]. *)
Definition still_processing : AccrualService :=
  answers [("79927398713",
            Response 200 (BodyJSON "79927398713" "PROCESSING" None))].

(** ** The DECIMAL(9, 2) columns

    The columns [accrual] of [orders], [sum] of [withdrawals] and
    [user_balance] of [balance] are DECIMAL(9, 2): on INSERT and UPDATE
    PostgreSQL rounds an amount to two decimals, a tie away from zero, and
    refuses it (numeric field overflow) when the rounded amount has more
    than seven digits before the point.  [exec_stmt] stores an amount as it
    is, which is what the tables do with an amount that the column leaves
    unchanged; what is stated below about stored amounts is stated for such
    amounts.  Amounts are counted in a smallest unit that the model leaves
    open; [cent] is the number of these units that make 0.01, so that a
    statement made for every [cent] holds whatever the unit is, however fine
    the amounts of a run are. *)
Definition to_cents (cent : Z) (amount : Decimal) : Z :=
  Z.sgn amount * ((2 * Z.abs amount + cent) / (2 * cent)).

Definition DECIMAL_9_2 (cent : Z) (amount : Decimal) : result Decimal :=
  let cents := to_cents cent amount in
  if Z.abs cents <? 10 ^ 9 then Ok (cents * cent)
  else Err (ErrDriver "numeric field overflow").

(** An amount that a DECIMAL(9, 2) column stores as it is: a whole number
    of cents below 10 000 000.00 in absolute value. *)
Definition stored_as_it_is (cent : Z) (amount : Decimal) : Prop :=
  DECIMAL_9_2 cent amount = Ok amount.

(** The amounts that a statement writes, and a run all of whose statements
    write amounts that their columns store as they are. *)
Definition amounts_of (s : Stmt) : list Decimal :=
  match s with
  | SInsertOrder _ _ bonus _ => [bonus]
  | SUpdateOrder _ (Some accrual) _ => [accrual]
  | SUpdateOrder _ None _ => []
  | SInsertWithdrawal _ _ sum => [sum]
  | SUpdateBalance newBalance _ => [newBalance]
  end.

Definition written_as_sent {A} (cent : Z) (r : Res A) : Prop :=
  forall s amount,
    In (EvExec s) (trace (world_of r)) -> In amount (amounts_of s) ->
    stored_as_it_is cent amount.

(** ** The reports ([GetUserOrdersInfo], [GetUserBalance],
    [GetUserWithdrawalsInfo])

    The three reports read the committed tables through the pool and write
    nothing.  Each is given as a function of the tables and of the driver's
    verdict on each of its round trips: [None] when the round trip goes
    well, the driver's message when the query, a [Scan] or [rows.Err]
    fails.  Rows come in insertion order, which is the order of their
    [date] column as long as no two rows of a user carry the same date. *)

Module Reports.

Inductive ReportError :=
  | FromRepository (err : error)
  | ErrUserHasNoOrders
  | ErrUserHasNoWithdrawals.

(** [models.UserWithdrawal] and [models.BalanceResponseData];
    [ProcessedAt] plays no part here. *)
Record UserWithdrawal := {
  uw_Order : string;
  uw_Sum : option Decimal
}.

Record BalanceResponseData := {
  Current : Decimal;
  Withdrawn : Decimal
}.

(** [SELECT order_number,status,accrual,date FROM orders WHERE uuid = $1
    ORDER BY date]: the [uuid] column is not selected. *)
Definition select_user_orders (userID : UUID) (d : DB) : list UserOrder :=
  map (fun r => {| uo_UserID := uuid_Nil;
                   uo_Number := order_number r;
                   uo_Status := order_status r;
                   uo_Accrual := order_accrual r |})
      (List.filter (fun r => N.eqb (order_uuid r) userID) (orders d)).

Definition GetUserOrders (failed : option string) (userID : UUID) (d : DB)
    : list UserOrder * option error :=
  match failed with
  | Some message => ([], Some (ErrDriver message))
  | None => (select_user_orders userID d, None)
  end.

Definition GetUserOrdersInfo (failed : option string) (userID : UUID)
    (d : DB) : list UserOrder * option ReportError :=
  let (userOrders, err) := GetUserOrders failed userID d in
  match err with
  | Some err => ([], Some (FromRepository err))
  | None =>
      if (length userOrders =? 0)%nat then ([], Some ErrUserHasNoOrders)
      else (userOrders, None)
  end.

(** [SELECT user_balance FROM balance WHERE uuid = $1], as read by the
    repository's [GetUserBalance]. *)
Definition query_user_balance (failed : option string) (userID : UUID)
    (d : DB) : Decimal * option error :=
  match failed with
  | Some message => (0, Some (ErrDriver message))
  | None =>
      match select_user_balance userID d with
      | Some userBalance => (userBalance, None)
      | None => (0, Some (ErrNoRows "the userID not found"))
      end
  end.

(** [SELECT SUM(sum) FROM withdrawals WHERE uuid = $1].  Over no row the
    sum is NULL; [null_scan] is what [Scan] makes of a NULL: an error, or
    [None] when it leaves the zero value in place. *)
Definition select_user_withdrawn (userID : UUID) (d : DB) : list Decimal :=
  map withdrawal_sum
      (List.filter (fun r => N.eqb (withdrawal_uuid r) userID)
                   (withdrawals d)).

Definition GetUserWithdrawn (failed null_scan : option string)
    (userID : UUID) (d : DB) : Decimal * option error :=
  match failed with
  | Some message => (0, Some (ErrDriver message))
  | None =>
      match select_user_withdrawn userID d with
      | [] =>
          match null_scan with
          | Some message => (0, Some (ErrDriver message))
          | None => (0, None)
          end
      | sums => (total sums, None)
      end
  end.

(** The service's [GetUserBalance]: a failure of the second query is
    logged and read as nothing withdrawn. *)
Definition GetUserBalance (failed failed' null_scan : option string)
    (userID : UUID) (d : DB) : BalanceResponseData * option error :=
  let (balance, err) := query_user_balance failed userID d in
  match err with
  | Some _ => ({| Current := 0; Withdrawn := 0 |}, Some ErrAccessingDB)
  | None =>
      let (userWithdrawn, err) :=
        GetUserWithdrawn failed' null_scan userID d in
      let userWithdrawn :=
        match err with Some _ => 0 | None => userWithdrawn end in
      ({| Current := balance; Withdrawn := userWithdrawn |}, None)
  end.

(** [SELECT order_number,sum,date FROM withdrawals WHERE uuid = $1 ORDER BY
    date] *)
Definition select_user_withdrawals (userID : UUID) (d : DB)
    : list UserWithdrawal :=
  map (fun r => {| uw_Order := withdrawal_order_number r;
                   uw_Sum := Some (withdrawal_sum r) |})
      (List.filter (fun r => N.eqb (withdrawal_uuid r) userID)
                   (withdrawals d)).

Definition GetUserWithdrawals (failed : option string) (userID : UUID)
    (d : DB) : list UserWithdrawal * option error :=
  match failed with
  | Some message => ([], Some (ErrDriver message))
  | None => (select_user_withdrawals userID d, None)
  end.

Definition GetUserWithdrawalsInfo (failed : option string) (userID : UUID)
    (d : DB) : list UserWithdrawal * option ReportError :=
  let (userWithdrawals, err) := GetUserWithdrawals failed userID d in
  match err with
  | Some err => ([], Some (FromRepository err))
  | None =>
      if (length userWithdrawals =? 0)%nat
      then ([], Some ErrUserHasNoWithdrawals)
      else (userWithdrawals, None)
  end.

End Reports.

(** ** The handlers of the two writing routes ([internal/app/handlers])

    A handler is given what gin hands it: the user id that the
    authentication middleware left in the request context ([None] when the
    type assertion fails) and the body ([None] when it cannot be read or
    bound).  It returns the status code it writes. *)

Module Handlers.

Definition StatusOK : Z := 200.
Definition StatusAccepted : Z := 202.
Definition StatusBadRequest : Z := 400.
Definition StatusUnauthorized : Z := 401.
Definition StatusPaymentRequired : Z := 402.
Definition StatusConflict : Z := 409.
Definition StatusUnprocessableEntity : Z := 422.

(** [errors.Is] against the sentinels of [customerrors]; no error of the
    order services is or wraps [ErrTokenIsNotValid], whose case is left
    out. *)
Definition errorCodeToStatus (err : error) : Z * string :=
  match err with
  | ErrOrderNumber => (StatusUnprocessableEntity, "Invalid order number")
  | ErrUserOrderExists => (StatusOK, "User order already exists")
  | ErrAnotherUserOrderExists =>
      (StatusConflict, "Another user's order exists")
  | ErrAccessingDB =>
      (StatusInternalServerError, "Error accessing database")
  | _ => (StatusInternalServerError, "Internal server error")
  end.

Definition InputUserOrder (accrual : AccrualService) (userID : option UUID)
    (body : option string) : M Z :=
  match userID with
  | None => ret StatusUnauthorized
  | Some userID =>
      match body with
      | None => ret StatusBadRequest
      | Some orderNumber =>
          let* err := InputUserOrder accrual userID orderNumber in
          match err with
          | Some err => ret (fst (errorCodeToStatus err))
          | None => ret StatusAccepted
          end
      end
  end.

(** The request of a withdrawal after [ShouldBindJSON]: the [order] field
    and the [sum] field, a pointer that stays nil when the JSON has no
    [sum]. *)
Definition WithdrawalBonusForNewOrder (userID : option UUID)
    (withdrawalRequest : option (string * option Decimal)) : M Z :=
  match userID with
  | None => ret StatusUnauthorized
  | Some userID =>
      match withdrawalRequest with
      | None => ret StatusBadRequest
      | Some (order, sum) =>
          let* sum := deref sum in
          let* err := WithdrawalBonusForNewOrder userID order sum in
          match err with
          | Some ErrOrderNumber => ret StatusUnprocessableEntity
          | Some ErrNotEnoughFunds => ret StatusPaymentRequired
          | Some _ => ret StatusInternalServerError
          | None => ret StatusOK
          end
      end
  end.

End Handlers.


(** ** Proof steps

    For a run on a concrete ledger: every amount written is one that the
    columns store as it is. *)

Ltac written_amounts :=
  let s := fresh "s" in
  let amount := fresh "amount" in
  let Hs := fresh "Hs" in
  let Ha := fresh "Ha" in
  intros s amount Hs Ha; vm_compute in Hs;
  repeat (destruct Hs as [Hs|Hs];
          [try discriminate Hs; injection Hs as <-; cbn in Ha;
           repeat (destruct Ha as [<-|Ha]; [reflexivity|]); destruct Ha|]);
  destruct Hs.

(** For the tables of status codes. *)




(** ** Facts about the validator *)

Lemma luhn_loop_acc parity number : forall i sum,
  luhn_loop parity i number sum = sum + luhn_loop parity i number 0.
Proof.
  induction number as [|r rest IH]; intros i sum; simpl.
  - lia.
  - rewrite (IH (i + 1) (sum + _)), (IH (i + 1) (0 + _)). lia.
Qed.

Lemma luhn_digit_double parity i r :
  luhn_digit parity i r =
  if Z.rem i 2 =? parity then luhn_double (Atoi r) else Atoi r.
Proof.
  unfold luhn_digit, luhn_double.
  destruct (Z.rem i 2 =? parity); [|reflexivity].
  destruct (Z.gtb_spec (Atoi r * 2) 9), (Z.ltb_spec 9 (2 * Atoi r)); lia.
Qed.

Lemma length_digits_of s : length (digits_of s) = String.length s.
Proof. induction s; simpl; congruence. Qed.

Lemma even_of_nat m : Nat.even m = (Z.of_nat m mod 2 =? 0).
Proof.
  destruct (Nat.even m) eqn:E; symmetry.
  - apply Nat.even_spec in E as [k ->]. apply Z.eqb_eq.
    Z.to_euclidean_division_equations. lia.
  - apply Z.eqb_neq. intros H.
    assert (Nat.even m = true); [|congruence].
    apply Nat.even_spec. exists (Z.to_nat (Z.of_nat m / 2)).
    Z.to_euclidean_division_equations. lia.
Qed.

Lemma doubled_position i n m :
  0 <= i -> i + Z.of_nat m = n ->
  (Z.rem i 2 =? Z.rem n 2) = Nat.even m.
Proof.
  intros Hi Hn.
  rewrite !Z.rem_mod_nonneg, even_of_nat by lia.
  destruct (Z.eqb_spec (i mod 2) (n mod 2)), (Z.eqb_spec (Z.of_nat m mod 2) 0);
    try reflexivity; exfalso; Z.to_euclidean_division_equations; lia.
Qed.

Lemma luhn_loop_from_left n number : forall i,
  0 <= i -> i + Z.of_nat (String.length number) = n ->
  luhn_loop (Z.rem n 2) i number 0 = total_from_left (digits_of number).
Proof.
  induction number as [|r rest IH]; intros i Hi Hn; [reflexivity|].
  cbn [luhn_loop digits_of total_from_left].
  rewrite luhn_loop_acc, luhn_digit_double.
  rewrite (doubled_position i n (String.length (String r rest))) by assumption.
  cbn [length]. rewrite length_digits_of.
  rewrite IH; [cbn [String.length]; lia | lia |].
  cbn [String.length] in Hn. lia.
Qed.

Lemma total_from_right_snoc ds : forall doubled d,
  luhn_total_from_right doubled (ds ++ [d]) =
  luhn_total_from_right doubled ds
  + (if xorb doubled (Nat.odd (length ds)) then luhn_double d else d).
Proof.
  induction ds as [|x ds IH]; intros doubled d; cbn [app luhn_total_from_right length].
  - destruct doubled; simpl; lia.
  - rewrite IH, Nat.odd_succ, <- Nat.negb_odd.
    destruct doubled, (Nat.odd (length ds)); simpl; lia.
Qed.

Lemma total_from_left_right ds :
  total_from_left ds = luhn_total_from_right false (rev ds).
Proof.
  induction ds as [|d ds IH]; [reflexivity|].
  cbn [rev total_from_left]. rewrite total_from_right_snoc, length_rev, IH.
  cbn [length]. rewrite Nat.even_succ. simpl xorb. lia.
Qed.

Lemma Atoi_range r : 0 <= Atoi r <= 9.
Proof.
  unfold Atoi, is_digit. destruct (_ && _) eqn:E; [|lia].
  apply andb_true_iff in E as [E1 E2].
  apply N.leb_le in E1, E2. lia.
Qed.

Lemma luhn_digit_range parity i r : 0 <= luhn_digit parity i r <= 9.
Proof.
  rewrite luhn_digit_double. pose proof (Atoi_range r). unfold luhn_double.
  destruct (_ =? _); [|lia]. destruct (Z.ltb_spec 9 (2 * Atoi r)); lia.
Qed.

Lemma luhn_loop_nonneg parity number : forall i, 0 <= luhn_loop parity i number 0.
Proof.
  induction number as [|r rest IH]; intros i; simpl; [lia|].
  rewrite luhn_loop_acc. pose proof (luhn_digit_range parity i r).
  pose proof (IH (i + 1)). lia.
Qed.

Lemma isValidLuhn_total number :
  isValidLuhn number =
  (luhn_total_from_right false (rev (digits_of number)) mod 10 =? 0).
Proof.
  unfold isValidLuhn.
  rewrite Z.rem_mod_nonneg by (auto using luhn_loop_nonneg; lia).
  rewrite (luhn_loop_from_left _ number 0), total_from_left_right by lia.
  reflexivity.
Qed.

Lemma isValidLuhn_iff number :
  isValidLuhn number = true <-> satisfies_luhn (digits_of number).
Proof. rewrite isValidLuhn_total. apply Z.eqb_eq. Qed.

(** Flipping one digit. *)
Lemma length_replace_at c s : forall k,
  String.length (replace_at k c s) = String.length s.
Proof. induction s; intros [|k]; simpl; auto. Qed.

Lemma luhn_loop_replace_at parity c r number : forall k i,
  String.get k number = Some r ->
  luhn_loop parity i (replace_at k c number) 0 =
  luhn_loop parity i number 0
  - luhn_digit parity (i + Z.of_nat k) r + luhn_digit parity (i + Z.of_nat k) c.
Proof.
  induction number as [|x rest IH]; intros k i Hget; [destruct k; discriminate|].
  destruct k as [|k]; cbn [replace_at luhn_loop String.get] in Hget |- *.
  - injection Hget as ->. rewrite Z.add_0_r.
    rewrite (luhn_loop_acc _ _ _ (0 + luhn_digit parity i c)),
            (luhn_loop_acc _ _ _ (0 + luhn_digit parity i r)). lia.
  - rewrite (luhn_loop_acc _ (replace_at _ _ _)), (luhn_loop_acc _ rest).
    rewrite (IH k (i + 1) Hget), Nat2Z.inj_succ.
    replace (i + Z.succ (Z.of_nat k)) with (i + 1 + Z.of_nat k) by lia.
    lia.
Qed.

Lemma Atoi_inj r c :
  is_digit r = true -> is_digit c = true -> Atoi r = Atoi c -> r = c.
Proof.
  unfold Atoi. intros -> -> H.
  rewrite <- (ascii_N_embedding r), <- (ascii_N_embedding c).
  f_equal. lia.
Qed.

Lemma luhn_double_inj d e :
  0 <= d <= 9 -> 0 <= e <= 9 -> luhn_double d = luhn_double e -> d = e.
Proof.
  unfold luhn_double. intros Hd He.
  destruct (Z.ltb_spec 9 (2 * d)), (Z.ltb_spec 9 (2 * e)); lia.
Qed.

Lemma luhn_digit_inj parity i r c :
  is_digit r = true -> is_digit c = true -> r <> c ->
  luhn_digit parity i r <> luhn_digit parity i c.
Proof.
  intros Hr Hc Hne H. apply Hne, Atoi_inj; auto.
  rewrite !luhn_digit_double in H.
  destruct (_ =? _); auto using luhn_double_inj, Atoi_range.
Qed.

Lemma flip_one_digit number k r c :
  isValidLuhn number = true ->
  String.get k number = Some r ->
  is_digit r = true -> is_digit c = true -> c <> r ->
  isValidLuhn (replace_at k c number) = false.
Proof.
  unfold isValidLuhn. rewrite length_replace_at.
  set (parity := Z.rem _ 2). intros Hvalid Hget Hr Hc Hne.
  apply Z.eqb_eq in Hvalid. apply Z.eqb_neq.
  pose proof (luhn_loop_nonneg parity number 0).
  pose proof (luhn_loop_nonneg parity (replace_at k c number) 0).
  pose proof (luhn_loop_replace_at parity c r number k 0 Hget).
  pose proof (luhn_digit_range parity (0 + Z.of_nat k) r).
  pose proof (luhn_digit_range parity (0 + Z.of_nat k) c).
  pose proof (luhn_digit_inj parity (0 + Z.of_nat k) r c Hr Hc (not_eq_sym Hne)).
  rewrite Z.rem_mod_nonneg in Hvalid |- * by lia.
  Z.to_euclidean_division_equations. lia.
Qed.

(** Bytes that are not digits count as 0. *)
Lemma Atoi_non_digit r : is_digit r = false -> Atoi r = 0.
Proof. unfold Atoi. now intros ->. Qed.

Lemma length_zero_substituted s :
  String.length (zero_substituted s) = String.length s.
Proof. induction s; simpl; auto. Qed.

Lemma luhn_loop_zero_substituted parity number : forall i sum,
  luhn_loop parity i (zero_substituted number) sum =
  luhn_loop parity i number sum.
Proof.
  induction number as [|r rest IH]; intros i sum; [reflexivity|].
  simpl. rewrite IH. do 2 f_equal. unfold luhn_digit.
  destruct (is_digit r) eqn:E; [reflexivity|].
  rewrite (Atoi_non_digit r E). reflexivity.
Qed.

Lemma isValidLuhn_zero_substituted number :
  isValidLuhn (zero_substituted number) = isValidLuhn number.
Proof.
  unfold isValidLuhn.
  now rewrite length_zero_substituted, luhn_loop_zero_substituted.
Qed.

Lemma digit_string_zero_substituted number :
  digit_string (zero_substituted number) = true.
Proof.
  induction number as [|r rest IH]; [reflexivity|]. simpl.
  rewrite IH. destruct (is_digit r) eqn:E; rewrite ?E; reflexivity.
Qed.


(** ** Running statements and transactions *)

Lemma UpdateOrders_exec_each updatedOrders :
  UpdateOrders updatedOrders = exec_each (map order_stmt updatedOrders).
Proof.
  induction updatedOrders as [|o rest IH]; [reflexivity|].
  cbn [UpdateOrders map exec_each]. rewrite IH. reflexivity.
Qed.

Lemma balance_updates_exec_each entries :
  balance_updates entries = exec_each (map balance_stmt entries).
Proof.
  induction entries as [|[u b] rest IH]; [reflexivity|].
  cbn [balance_updates map exec_each]. rewrite IH. reflexivity.
Qed.

Lemma tx_Exec_run s w :
  tx_Exec s w =
  let w' := mkWorld (db w) (open_tx w) (trace w ++ [EvExec s]) (faults w) in
  match faults w (length (trace w)) with
  | Some msg => Ret (Some (ErrDriver msg)) w'
  | None =>
      match open_tx w with
      | None => Ret (Some (ErrDriver "tx is closed")) w'
      | Some d =>
          match exec_stmt s d with
          | Ok d' => Ret None (mkWorld (db w) (Some d')
                                 (trace w ++ [EvExec s]) (faults w))
          | Err err => Ret (Some err) w'
          end
      end
  end.
Proof.
  unfold tx_Exec, bind, io, current_tx, set_open_tx, ret; cbn.
  destruct (faults w (length (trace w))); cbn; [reflexivity|].
  destruct (open_tx w); cbn; [|reflexivity].
  destruct (exec_stmt s d); reflexivity.
Qed.

Lemma exec_each_run stmts : forall w,
  exists r t evs,
    exec_each stmts w = Ret r (mkWorld (db w) t (trace w ++ evs) (faults w))
    /\ (r = None ->
        evs = map EvExec stmts /\ t = apply_stmts stmts <$> open_tx w).
Proof.
  induction stmts as [|s rest IH]; intros w.
  - exists None, (open_tx w), []. split.
    + destruct w; cbn. rewrite app_nil_r. reflexivity.
    + intros _. split; [reflexivity|]. destruct (open_tx w); reflexivity.
  - cbn [exec_each]. unfold bind at 1. rewrite tx_Exec_run. cbn zeta.
    destruct (faults w (length (trace w))) as [msg|] eqn:Hf.
    { eexists _, _, [_]. split; [reflexivity|]. discriminate. }
    destruct (open_tx w) as [d|] eqn:Ht.
    2:{ eexists _, _, [_]. split; [reflexivity|]. discriminate. }
    destruct (exec_stmt s d) as [d'|err] eqn:Hs.
    2:{ eexists _, _, [_]. split; [reflexivity|]. discriminate. }
    destruct (IH (mkWorld (db w) (Some d') (trace w ++ [EvExec s]) (faults w)))
      as (r & t & evs & Hrun & Hok).
    exists r, t, (EvExec s :: evs). split.
    + rewrite Hrun. cbn. rewrite <- app_assoc. reflexivity.
    + intros Hr. destruct (Hok Hr) as [-> ->]. split; [reflexivity|].
      cbn. unfold apply_stmt at 2. rewrite Hs. reflexivity.
Qed.

Lemma withTransaction_run txFunc w :
  withTransaction txFunc w =
  match faults w (length (trace w)) with
  | Some msg =>
      Ret (Some (ErrDriver msg))
          (mkWorld (db w) (open_tx w) (trace w ++ [EvBegin]) (faults w))
  | None =>
      match txFunc (begun w) with
      | Panic p w2 => Panic p (rolled_back w2)
      | Ret (Some err) w2 => Ret (Some err) (rolled_back w2)
      | Ret None w2 => Ret None (commit_result w2)
      end
  end.
Proof.
  unfold withTransaction, Begin, bind at 1 2, io. cbn.
  destruct (faults w (length (trace w))); cbn; [reflexivity|].
  unfold bind, recover, begun, mkWorld. cbn.
  destruct (txFunc _) as [[err|] w2|p w2]; cbn; try reflexivity.
  unfold commit_result.
  destruct (faults w2 (length (trace w2))), (open_tx w2); reflexivity.
Qed.

Lemma exec_each_app stmts1 stmts2 w :
  exec_each (stmts1 ++ stmts2) w =
  (let* err := exec_each stmts1 in
   match err with
   | Some e => ret (Some e)
   | None => exec_each stmts2
   end) w.
Proof.
  revert w. induction stmts1 as [|s rest IH]; intros w; [reflexivity|].
  cbn [app exec_each]. unfold bind in IH |- *.
  destruct (tx_Exec s w) as [[e|] w1|p w1]; try reflexivity.
  apply IH.
Qed.

Lemma exec_update s d : is_update s = true -> exec_stmt s d = Ok (apply_stmt s d).
Proof. destruct s; try discriminate; reflexivity. Qed.

Lemma exec_each_updates stmts : forall w d,
  no_faults w -> open_tx w = Some d -> forallb is_update stmts = true ->
  exec_each stmts w =
  Ret None (mkWorld (db w) (Some (apply_stmts stmts d))
                    (trace w ++ map EvExec stmts) (faults w)).
Proof.
  induction stmts as [|s rest IH]; intros w d Hnf Ht Hup.
  - destruct w; cbn in *. rewrite app_nil_r. subst. reflexivity.
  - cbn in Hup. apply andb_true_iff in Hup as [Hs Hrest].
    cbn [exec_each]. unfold bind at 1. rewrite tx_Exec_run. cbn zeta.
    rewrite Hnf, Ht, (exec_update s d Hs).
    rewrite (IH _ (apply_stmt s d)); [|exact Hnf|reflexivity|exact Hrest].
    cbn. rewrite <- app_assoc. reflexivity.
Qed.

(** A transaction around a sequence of statements: the committed state
    either stays as it was, or is the one all the statements lead to. *)
Lemma withTransaction_statements report stmts w :
  exists r d t evs,
    withTransaction (statements_body report stmts) w =
      Ret r (mkWorld d t (trace w ++ EvBegin :: evs) (faults w))
    /\ (d = db w
        \/ r = None /\ d = apply_stmts stmts (db w) /\ t = None
           /\ evs = map EvExec stmts ++ [EvCommit]).
Proof.
  rewrite withTransaction_run.
  destruct (faults w (length (trace w))) as [msg|] eqn:Hf.
  { exists (Some (ErrDriver msg)), (db w), (open_tx w), [].
    split; [reflexivity|]. left. reflexivity. }
  unfold statements_body, bind.
  destruct (exec_each_run stmts (begun w)) as (r & t & evs & Hrun & Hok).
  rewrite Hrun. cbn [ret].
  destruct r as [e|]; cbn [fmap option_fmap option_map].
  - exists (Some (report e)), (db w), None, (evs ++ [EvRollback]).
    split; [|left; auto].
    unfold rolled_back, begun, mkWorld. cbn.
    rewrite <- !app_assoc. reflexivity.
  - destruct (Hok eq_refl) as [-> ->]. cbn.
    unfold commit_result, begun, mkWorld. cbn.
    rewrite length_app, length_app, length_map. cbn [length].
    match goal with |- context [faults w ?n] => destruct (faults w n) end.
    + exists None, (db w), None, (map EvExec stmts ++ [EvCommit]).
      split; [rewrite <- !app_assoc; reflexivity|]. left. auto.
    + exists None, (apply_stmts stmts (db w)), None,
        (map EvExec stmts ++ [EvCommit]).
      split; [rewrite <- !app_assoc; reflexivity|]. right. auto.
Qed.

Lemma withTransaction_updates report stmts w :
  no_faults w -> forallb is_update stmts = true ->
  withTransaction (statements_body report stmts) w =
  Ret None (mkWorld (apply_stmts stmts (db w)) None
              (trace w ++ EvBegin :: map EvExec stmts ++ [EvCommit])
              (faults w)).
Proof.
  intros Hnf Hup. rewrite withTransaction_run, Hnf.
  unfold statements_body, bind.
  rewrite (exec_each_updates stmts (begun w) (db w) Hnf eq_refl Hup).
  cbn. unfold commit_result, mkWorld. cbn. rewrite Hnf.
  rewrite <- !app_assoc. reflexivity.
Qed.

(** ** The worker pool and the aggregating loops *)

Lemma arrange_Permutation {A} numOfWorkers : forall n picks (tasks : list A),
  (0 < numOfWorkers)%nat -> n = length tasks ->
  arrange n numOfWorkers picks tasks ≡ₚ tasks.
Proof.
  induction n as [|n IH]; intros picks tasks Hpos Hlen.
  - destruct tasks; [reflexivity|discriminate].
  - cbn [arrange].
    set (k := (hd 0 picks mod (numOfWorkers `min` length tasks))%nat).
    assert (Hk : (k < length tasks)%nat).
    { subst k. pose proof (Nat.mod_upper_bound (hd 0%nat picks)
        (numOfWorkers `min` length tasks)). lia. }
    destruct (lookup_lt_is_Some_2 tasks k Hk) as [t Ht]. rewrite Ht.
    etransitivity; [|symmetry; exact (delete_Permutation tasks k t Ht)].
    constructor. apply IH; [assumption|].
    pose proof (length_delete tasks k (ex_intro _ t Ht)). lia.
Qed.

Lemma arrival_order_Permutation {A} numOfWorkers picks (tasks : list A) :
  (0 < numOfWorkers)%nat -> arrival_order numOfWorkers picks tasks ≡ₚ tasks.
Proof. intros. now apply arrange_Permutation. Qed.

Lemma startWorkers_Permutation service picks tasks :
  startWorkers service numOfWorkers picks tasks ≡ₚ omap (worker service) tasks.
Proof.
  unfold startWorkers.
  rewrite (arrival_order_Permutation numOfWorkers picks tasks); [reflexivity|].
  unfold numOfWorkers. lia.
Qed.

Lemma user_loop_run sent : forall ordersToUpdate accrualToUpdate,
  user_loop sent ordersToUpdate accrualToUpdate =
  match first_error sent with
  | Some err => inl err
  | None => inr (ordersToUpdate ++ results_of sent,
                 accrualToUpdate + total (map accrual_sent sent))
  end.
Proof.
  induction sent as [|[r|e] rest IH]; intros L a; cbn [user_loop].
  - cbn. rewrite app_nil_r, Z.add_0_r. reflexivity.
  - assert (Hstep : forall x,
      x = a + default 0 (Accrual r) ->
      user_loop rest (L ++ [r]) x =
      match first_error (OnResultCh r :: rest) with
      | Some err => inl err
      | None => inr (L ++ results_of (OnResultCh r :: rest),
                     a + total (map accrual_sent (OnResultCh r :: rest)))
      end).
    { intros x ->. rewrite IH. unfold first_error, results_of.
      cbn [omap result_sent error_sent map total foldr accrual_sent].
      destruct (head _); [reflexivity|].
      rewrite <- app_assoc. cbn [app]. do 2 f_equal.
      fold (total (map accrual_sent rest)). lia. }
    destruct (Accrual r) as [x|]; apply Hstep; cbn; lia.
  - reflexivity.
Qed.

Lemma total_Permutation l1 l2 : l1 ≡ₚ l2 -> total l1 = total l2.
Proof. unfold total. induction 1; cbn in *; lia. Qed.

Lemma accrued_tasks service tasks :
  total (map accrual_sent (omap (worker service) tasks)) =
  total (map (accrual_brought service) tasks).
Proof.
  unfold total.
  induction tasks as [|t rest IH]; [reflexivity|].
  cbn [map foldr]. unfold accrual_brought at 1.
  destruct (worker service t) as [s|] eqn:E; cbn; rewrite E; cbn; lia.
Qed.

(** Conversely, when the pool has a worker for every task, any order of
    arrival is the choice of some scheduler. *)
Lemma every_arrival_order_is_scheduled {A} numOfWorkers :
  forall (arrival tasks : list A),
    tasks ≡ₚ arrival -> (length tasks <= numOfWorkers)%nat ->
    exists picks, arrival_order numOfWorkers picks tasks = arrival.
Proof.
  unfold arrival_order.
  induction arrival as [|x rest IH]; intros tasks Hperm Hlen.
  - apply Permutation_nil_r in Hperm as ->. exists []. reflexivity.
  - assert (Hx : x ∈ tasks) by (rewrite Hperm; left).
    apply list_elem_of_lookup in Hx as [i Hi].
    pose proof (lookup_lt_Some tasks i x Hi) as Hlt.
    assert (Hrest : delete i tasks ≡ₚ rest).
    { apply (Permutation_cons_inv (a := x)).
      rewrite <- (delete_Permutation tasks i x Hi). exact Hperm. }
    pose proof (length_delete tasks i (ex_intro _ x Hi)) as Hdel.
    destruct (IH (delete i tasks) Hrest) as [picks Hpicks]; [lia|].
    exists (i :: picks).
    destruct (length tasks) as [|n] eqn:Hn; [lia|].
    cbn [arrange hd tl]. rewrite Nat.min_r by lia.
    rewrite Nat.mod_small by lia. rewrite Hi. f_equal.
    replace n with (length (delete i tasks)) by lia. exact Hpicks.
Qed.

(** ** Running the repository reads and the services *)

Lemma GetUserBalance_run userID w :
  GetUserBalance userID w =
  Ret (match next_fault w with
       | Some err => (0, Some err)
       | None =>
           match select_user_balance userID (db w) with
           | Some userBalance => (userBalance, None)
           | None => (0, Some (ErrNoRows "the userID not found"))
           end
       end) (logged (EvQuery (QUserBalance userID)) w).
Proof.
  unfold GetUserBalance, bind, io, committed, next_fault. cbn.
  destruct (faults w (length (trace w))); cbn; [reflexivity|].
  destruct (select_user_balance userID (db w)); reflexivity.
Qed.

Lemma GetUUIDFromOrders_run orderNumber w :
  GetUUIDFromOrders orderNumber w =
  Ret (match next_fault w with
       | Some err => (uuid_Nil, Some err)
       | None =>
           match select_order_owner orderNumber (db w) with
           | Some savedUserID => (savedUserID, None)
           | None =>
               (uuid_Nil, Some (ErrNoRows "the order number not found"))
           end
       end) (logged (EvQuery (QOrderOwner orderNumber)) w).
Proof.
  unfold GetUUIDFromOrders, bind, io, committed, next_fault. cbn.
  destruct (faults w (length (trace w))); cbn; [reflexivity|].
  destruct (select_order_owner orderNumber (db w)); reflexivity.
Qed.

Lemma GetProcessingOrders_run w :
  GetProcessingOrders w =
  Ret (match next_fault w with
       | Some err => ([], Some err)
       | None => (select_processing_orders (db w), None)
       end) (logged (EvQuery QProcessingOrders) w).
Proof.
  unfold GetProcessingOrders, bind, io, committed, next_fault. cbn.
  destruct (faults w (length (trace w))); reflexivity.
Qed.

Lemma GetUserProcessingOrders_run userID w :
  GetUserProcessingOrders userID w =
  Ret (match next_fault w with
       | Some err => ([], Some err)
       | None => (select_user_processing_orders userID (db w), None)
       end) (logged (EvQuery (QUserProcessingOrders userID)) w).
Proof.
  unfold GetUserProcessingOrders, bind, io, committed, next_fault. cbn.
  destruct (faults w (length (trace w))); reflexivity.
Qed.

Lemma withTransaction_ext txFunc txFunc' w :
  (forall w0, txFunc w0 = txFunc' w0) ->
  withTransaction txFunc w = withTransaction txFunc' w.
Proof. intros H. rewrite !withTransaction_run, H. reflexivity. Qed.

(** The loop of the system-wide sweep: it only reads; it stops at the first
    error received, or at the first balance read that fails. *)
Lemma job_loop_run sent : forall ordersToUpdate usersBalanceToUpdate w,
  exists r evs,
    job_loop sent ordersToUpdate usersBalanceToUpdate w =
      Ret r (mkWorld (db w) (open_tx w) (trace w ++ evs) (faults w))
    /\ forallb is_read evs = true
    /\ match r with
       | inl err => err = ErrAccessingDB \/ first_error sent = Some err
       | inr (ordersToUpdate', _) =>
           first_error sent = None
           /\ ordersToUpdate' = ordersToUpdate ++ results_of sent
       end.
Proof.
  induction sent as [|[r|e] rest IH]; intros L m w; cbn [job_loop].
  - exists (inr (L, m)), []. destruct w; cbn. rewrite !app_nil_r. auto.
  - assert (Hnext : forall m' w',
      db w' = db w -> open_tx w' = open_tx w -> faults w' = faults w ->
      forall evs0, trace w' = trace w ++ evs0 -> forallb is_read evs0 = true ->
      exists r0 evs,
        job_loop rest (L ++ [r]) m' w' =
          Ret r0 (mkWorld (db w) (open_tx w) (trace w ++ evs) (faults w))
        /\ forallb is_read evs = true
        /\ match r0 with
           | inl err =>
               err = ErrAccessingDB
               \/ first_error (OnResultCh r :: rest) = Some err
           | inr (L', _) =>
               first_error (OnResultCh r :: rest) = None
               /\ L' = L ++ results_of (OnResultCh r :: rest)
           end).
    { intros m' w' Hd Ht Hf evs0 Htr Hev.
      destruct (IH (L ++ [r]) m' w') as (r0 & evs & Hrun & Hreads & Hres).
      exists r0, (evs0 ++ evs). rewrite Hrun, Hd, Ht, Hf, Htr, app_assoc.
      split; [reflexivity|]. split.
      - rewrite forallb_app, Hev, Hreads. reflexivity.
      - unfold first_error, results_of in *.
        cbn [omap result_sent error_sent].
        destruct r0 as [err|[L' m'']]; [exact Hres|].
        destruct Hres as [? ->]. rewrite <- app_assoc. auto. }
    destruct (Accrual r) as [a|].
    + unfold bind. rewrite GetUserBalance_run.
      destruct (next_fault w) as [err|].
      { exists (inl ErrAccessingDB), [EvQuery (QUserBalance (UserID r))].
        cbn. auto. }
      destruct (select_user_balance (UserID r) (db w)) as [b|].
      * cbn beta iota.
        apply (Hnext _ (logged (EvQuery (QUserBalance (UserID r))) w)
                 eq_refl eq_refl eq_refl
                 [EvQuery (QUserBalance (UserID r))]); reflexivity.
      * exists (inl ErrAccessingDB), [EvQuery (QUserBalance (UserID r))].
        cbn. auto.
    + apply (Hnext m w eq_refl eq_refl eq_refl []); [|reflexivity].
      now rewrite app_nil_r.
  - exists (inl e), []. destruct w; cbn. rewrite !app_nil_r. auto.
Qed.

(** When every balance read succeeds, the loop of the system-wide sweep
    stops at the first error received, with that error. *)
Lemma job_loop_first_error sent err :
  forall ordersToUpdate usersBalanceToUpdate w,
    no_faults w ->
    (forall r, In (OnResultCh r) sent -> Accrual r <> None ->
               select_user_balance (UserID r) (db w) <> None) ->
    first_error sent = Some err ->
    exists evs,
      job_loop sent ordersToUpdate usersBalanceToUpdate w =
      Ret (inl err) (mkWorld (db w) (open_tx w) (trace w ++ evs) (faults w)).
Proof.
  induction sent as [|[r|e] rest IH]; intros L m w Hnf Hrows Hfirst.
  - discriminate.
  - assert (Hrest : forall r', In (OnResultCh r') rest -> Accrual r' <> None ->
                               select_user_balance (UserID r') (db w) <> None)
      by (intros r' Hin; apply Hrows; now right).
    cbn [job_loop]. destruct (Accrual r) as [a|] eqn:Ha.
    + unfold bind. rewrite GetUserBalance_run.
      unfold next_fault. rewrite Hnf. cbn [fmap option_fmap option_map].
      destruct (select_user_balance (UserID r) (db w)) as [b|] eqn:Hb.
      * destruct (IH (L ++ [r]) (<[UserID r := b + a]> m)
                    (logged (EvQuery (QUserBalance (UserID r))) w)
                    Hnf Hrest Hfirst) as [evs Hrun].
        exists (EvQuery (QUserBalance (UserID r)) :: evs).
        rewrite Hrun. cbn. rewrite <- app_assoc. reflexivity.
      * exfalso. apply (Hrows r); [now left|congruence|exact Hb].
    + apply IH; assumption.
  - injection Hfirst as ->. exists []. destruct w; cbn.
    rewrite app_nil_r. reflexivity.
Qed.

Section Sweeps.

Variable accrual : AccrualService.

Lemma sweep_body_statements stmts updatedOrders w :
  (let* err := exec_each stmts in
   match err with
   | Some _ => ret (Some ErrAccessingDB)
   | None =>
       if (0 <? length updatedOrders)%nat then
         let* err := UpdateOrders updatedOrders in
         match err with
         | Some _ => ret (Some ErrAccessingDB)
         | None => ret None
         end
       else ret None
   end) w =
  statements_body as_ErrAccessingDB
    (stmts ++ map order_stmt updatedOrders) w.
Proof.
  unfold statements_body, bind. rewrite exec_each_app. unfold bind.
  destruct (exec_each stmts w) as [[e|] w1|p w1]; try reflexivity.
  destruct updatedOrders as [|o rest]; [reflexivity|].
  cbn [length Nat.ltb Nat.leb]. rewrite UpdateOrders_exec_each.
  destruct (exec_each _ w1) as [[e|] w2|p w2]; reflexivity.
Qed.

Lemma RunUpdateOrdersStatusJob_run picks w :
  RunUpdateOrdersStatusJob accrual picks w =
  match next_fault w with
  | Some err => Ret (Some err) (logged (EvQuery QProcessingOrders) w)
  | None =>
      match job_loop (startWorkers accrual numOfWorkers picks
                        (select_processing_orders (db w))) [] ∅
                     (logged (EvQuery QProcessingOrders) w) with
      | Ret (inl err) w2 => Ret (Some err) w2
      | Ret (inr (ordersToUpdate, usersBalanceToUpdate)) w2 =>
          withTransaction
            (statements_body as_ErrAccessingDB
               (map balance_stmt (map_to_list usersBalanceToUpdate)
                ++ map order_stmt ordersToUpdate)) w2
      | Panic p w2 => Panic p w2
      end
  end.
Proof.
  unfold RunUpdateOrdersStatusJob, bind at 1. rewrite GetProcessingOrders_run.
  destruct (next_fault w); [reflexivity|]. unfold bind at 1. cbn [db logged mkWorld].
  destruct (job_loop _ _ _ _) as [[err|[L m]] w2|p w2]; try reflexivity.
  apply withTransaction_ext. intros w0.
  unfold UsersBalanceUpdate. rewrite balance_updates_exec_each.
  apply sweep_body_statements.
Qed.

Lemma CheckUpdateUserOrders_run picks userID w :
  CheckUpdateUserOrders accrual picks userID w =
  let w1 := logged (EvQuery (QUserProcessingOrders userID)) w in
  let sent := startWorkers accrual numOfWorkers picks
                (select_user_processing_orders userID (db w)) in
  match next_fault w with
  | Some err => Ret (Some err) w1
  | None =>
      match first_error sent with
      | Some err => Ret (Some err) w1
      | None =>
          let w2 := logged (EvQuery (QUserBalance userID)) w1 in
          match next_fault w1, select_user_balance userID (db w) with
          | None, Some userBalance =>
              withTransaction
                (statements_body as_ErrAccessingDB
                   (SUpdateBalance
                      (userBalance + total (map accrual_sent sent)) userID
                    :: map order_stmt (results_of sent))) w2
          | _, _ => Ret (Some ErrAccessingDB) w2
          end
      end
  end.
Proof.
  unfold CheckUpdateUserOrders, bind at 1.
  rewrite GetUserProcessingOrders_run. cbn zeta.
  destruct (next_fault w); [reflexivity|].
  cbn [db logged mkWorld]. rewrite user_loop_run, Z.add_0_l. cbn [app].
  destruct (first_error _); [reflexivity|].
  unfold bind at 1. rewrite GetUserBalance_run. cbn [db logged mkWorld].
  fold (logged (EvQuery (QUserProcessingOrders userID)) w).
  destruct (next_fault _); [reflexivity|].
  destruct (select_user_balance userID (db w)); [|reflexivity].
  apply withTransaction_ext. intros w0.
  change (SUpdateBalance ?b userID :: ?l)
    with ([SUpdateBalance b userID] ++ l).
  rewrite <- sweep_body_statements.
  unfold bind, UpdateUserBalance. cbn [exec_each]. unfold bind.
  destruct (tx_Exec _ w0) as [[e|] w1|p w1]; reflexivity.
Qed.

End Sweeps.

(** ** The transaction wrapper and the atomicity of a sweep *)

Lemma sweep_commit_shape w1 w stmts reads :
  db w1 = db w -> faults w1 = faults w -> trace w1 = trace w ++ reads ->
  let w' := world_of (withTransaction
                        (statements_body as_ErrAccessingDB stmts) w1) in
  exists evs,
    trace w' = trace w ++ reads ++ EvBegin :: evs
    /\ (db w' = db w
        \/ returned (withTransaction
                       (statements_body as_ErrAccessingDB stmts) w1)
             = Some None
           /\ evs = map EvExec stmts ++ [EvCommit]
           /\ db w' = apply_stmts stmts (db w)).
Proof.
  intros Hd Hf Ht.
  destruct (withTransaction_statements as_ErrAccessingDB stmts w1)
    as (r & d & t & evs & Hrun & Hcases).
  rewrite Hrun. cbn. exists evs. rewrite Ht, <- app_assoc. split; [reflexivity|].
  destruct Hcases as [->|(-> & -> & _ & ->)]; [left; exact Hd|right].
  rewrite Hd. auto.
Qed.

Lemma RunUpdateOrdersStatusJob_atomic accrual picks w :
  let w' := world_of (RunUpdateOrdersStatusJob accrual picks w) in
  db w' = db w
  \/ exists reads usersBalanceToUpdate ordersToUpdate,
       let stmts := map balance_stmt (map_to_list usersBalanceToUpdate)
                    ++ map order_stmt ordersToUpdate in
       forallb is_read reads = true
       /\ trace w' = trace w ++ reads ++ EvBegin :: map EvExec stmts
                             ++ [EvCommit]
       /\ db w' = apply_stmts stmts (db w).
Proof.
  rewrite RunUpdateOrdersStatusJob_run.
  destruct (next_fault w); [left; reflexivity|].
  destruct (job_loop_run
              (startWorkers accrual numOfWorkers picks
                 (select_processing_orders (db w))) [] ∅
              (logged (EvQuery QProcessingOrders) w))
    as (r & evs & Hrun & Hreads & _).
  rewrite Hrun. destruct r as [err|[L m]]; [left; reflexivity|].
  cbn [logged mkWorld db open_tx trace faults] in *.
  match goal with |- context [withTransaction ?b ?w1] =>
    destruct (sweep_commit_shape w1 w
                (map balance_stmt (map_to_list m) ++ map order_stmt L)
                (EvQuery QProcessingOrders :: evs) eq_refl eq_refl)
      as (evs' & Htrace & Hcases)
  end.
  { cbn. rewrite <- app_assoc. reflexivity. }
  cbn zeta in *. destruct Hcases as [Hsame|(_ & -> & Hdb)]; [left; exact Hsame|].
  right. exists (EvQuery QProcessingOrders :: evs), m, L. cbn zeta.
  split; [exact Hreads|]. split; [exact Htrace|exact Hdb].
Qed.

Lemma CheckUpdateUserOrders_atomic accrual picks userID w :
  let w' := world_of (CheckUpdateUserOrders accrual picks userID w) in
  db w' = db w
  \/ exists reads newUserBalance ordersToUpdate,
       let stmts := SUpdateBalance newUserBalance userID
                    :: map order_stmt ordersToUpdate in
       forallb is_read reads = true
       /\ trace w' = trace w ++ reads ++ EvBegin :: map EvExec stmts
                             ++ [EvCommit]
       /\ db w' = apply_stmts stmts (db w).
Proof.
  rewrite CheckUpdateUserOrders_run. cbn zeta.
  destruct (next_fault w); [left; reflexivity|].
  destruct (first_error _); [left; reflexivity|].
  destruct (next_fault _); [left; reflexivity|].
  destruct (select_user_balance userID (db w)) as [b|]; [|left; reflexivity].
  match goal with |- context [withTransaction (statements_body _ ?stmts) ?w1] =>
    destruct (sweep_commit_shape w1 w stmts
                [EvQuery (QUserProcessingOrders userID);
                 EvQuery (QUserBalance userID)] eq_refl eq_refl)
      as (evs' & Htrace & Hcases)
  end.
  { cbn. rewrite <- app_assoc. reflexivity. }
  cbn zeta in *. destruct Hcases as [Hsame|(_ & -> & Hdb)]; [left; exact Hsame|].
  right. eexists _, _, _. cbn zeta.
  split; [|split; [exact Htrace|exact Hdb]]. reflexivity.
Qed.

(** C3: [withTransaction] commits only when the body returns nil; when the
    body returns an error the transaction is rolled back, the error is
    returned and the committed state is the one before; when the body panics
    the transaction is rolled back and then the panic goes on; and a sweep
    either leaves the committed state as it was or commits every balance
    update and every order update it has executed, together. *)
Theorem withTransaction_all_or_nothing (accrual : AccrualService)
    (picks : list nat) (userID : UUID) (txFunc : M (option error))
    (w : World) :
  (next_fault w = None ->
   db (world_of (txFunc (begun w))) = db w ->
   let body := txFunc (begun w) in
   let res := withTransaction txFunc w in
   (forall err, returned body = Some (Some err) ->
      returned res = Some (Some err)
      /\ db (world_of res) = db w
      /\ open_tx (world_of res) = None
      /\ trace (world_of res) = trace (world_of body) ++ [EvRollback])
   /\ (forall p w2, body = Panic p w2 ->
         res = Panic p (world_of res)
         /\ db (world_of res) = db w
         /\ open_tx (world_of res) = None
         /\ trace (world_of res) = trace w2 ++ [EvRollback])
   /\ (returned body = Some None ->
         returned res = Some None
         /\ trace (world_of res) = trace (world_of body) ++ [EvCommit]
         /\ (forall d, next_fault (world_of body) = None ->
               open_tx (world_of body) = Some d -> db (world_of res) = d))
   /\ (db (world_of res) <> db w -> returned body = Some None))
  /\ (let w' := world_of (RunUpdateOrdersStatusJob accrual picks w) in
      db w' = db w
      \/ exists reads usersBalanceToUpdate ordersToUpdate,
           let stmts := map balance_stmt (map_to_list usersBalanceToUpdate)
                        ++ map order_stmt ordersToUpdate in
           forallb is_read reads = true
           /\ trace w' = trace w ++ reads ++ EvBegin :: map EvExec stmts
                                 ++ [EvCommit]
           /\ db w' = apply_stmts stmts (db w))
  /\ (let w' := world_of (CheckUpdateUserOrders accrual picks userID w) in
      db w' = db w
      \/ exists reads newUserBalance ordersToUpdate,
           let stmts := SUpdateBalance newUserBalance userID
                        :: map order_stmt ordersToUpdate in
           forallb is_read reads = true
           /\ trace w' = trace w ++ reads ++ EvBegin :: map EvExec stmts
                                 ++ [EvCommit]
           /\ db w' = apply_stmts stmts (db w)).
Proof.
  split; [|split;
    [apply RunUpdateOrdersStatusJob_atomic|apply CheckUpdateUserOrders_atomic]].
  intros Hbegin Hbody body res. subst res.
  rewrite withTransaction_run. unfold next_fault in Hbegin.
  destruct (faults w (length (trace w))); [discriminate|].
  fold body. revert Hbody. fold body.
  destruct body as [[err|] w2|p w2]; cbn; intros Hbody.
  - split; [intros e [= <-]; auto|].
    split; [discriminate|]. split; [discriminate|congruence].
  - split; [discriminate|]. split; [discriminate|]. split; [|reflexivity].
    intros _. split; [reflexivity|]. split; [reflexivity|].
    unfold next_fault. intros d Hcommit Htx. rewrite Htx.
    destruct (faults w2 (length (trace w2))); [discriminate|reflexivity].
  - split; [discriminate|].
    split; [intros p' w2' [= <- <-]; auto|].
    split; [discriminate|congruence].
Qed.

(** ** Errors of the accrual queries *)

Lemma worker_error service task err :
  worker service task = Some (OnErrCh err)
  <-> snd (GetAccrualAPI service task) = Some err.
Proof.
  unfold worker. destruct (GetAccrualAPI service task) as [data [e|]]; cbn.
  - split; congruence.
  - destruct (negb _); split; discriminate.
Qed.

Lemma In_startWorkers service picks tasks s :
  In s (startWorkers service numOfWorkers picks tasks)
  <-> exists task, In task tasks /\ worker service task = Some s.
Proof.
  rewrite <- list_elem_of_In, startWorkers_Permutation, list_elem_of_omap.
  split; intros (task & Hin & Hw); exists task;
    (split; [apply list_elem_of_In; exact Hin|exact Hw]).
Qed.

Lemma first_error_In sent err :
  first_error sent = Some err -> In (OnErrCh err) sent.
Proof.
  unfold first_error.
  induction sent as [|[r|e] rest IH]; cbn; [discriminate| |].
  - intros H. right. apply IH, H.
  - intros [= ->]. now left.
Qed.

Lemma first_error_exists sent err :
  In (OnErrCh err) sent -> exists err', first_error sent = Some err'.
Proof.
  unfold first_error.
  induction sent as [|[r|e] rest IH]; cbn; [intros []| |].
  - intros [H|H]; [discriminate|]. apply IH, H.
  - intros _. eauto.
Qed.

Lemma first_error_of_batch service picks tasks task err :
  In task tasks -> snd (GetAccrualAPI service task) = Some err ->
  exists err',
    first_error (startWorkers service numOfWorkers picks tasks) = Some err'.
Proof.
  intros Hin Herr. apply (first_error_exists _ err), In_startWorkers.
  exists task. split; [exact Hin|]. apply worker_error, Herr.
Qed.

Lemma first_error_from_batch service picks tasks err :
  first_error (startWorkers service numOfWorkers picks tasks) = Some err ->
  exists task, In task tasks /\ snd (GetAccrualAPI service task) = Some err.
Proof.
  intros H. apply first_error_In, In_startWorkers in H as (task & Hin & Hw).
  exists task. split; [exact Hin|]. apply worker_error, Hw.
Qed.

(** C2, as amended: when the accrual query of an order of the batch returns
    an error, the sweep returns an error without opening a transaction and
    the stored orders and balances stay as they were: only reads have been
    performed.  The error returned is the first one the aggregating loop
    receives from the workers, hence that of the failing order when it is
    the only one; in [RunUpdateOrdersStatusJob] it is [ErrAccessingDB]
    instead when a balance read made for an earlier result fails first, and
    the first error received when every balance read succeeds. *)
Theorem sweep_aborts_on_accrual_error (accrual : AccrualService)
    (picks : list nat) (userID : UUID) (w : World) :
  next_fault w = None ->
  (forall task err,
     In task (select_processing_orders (db w)) ->
     snd (GetAccrualAPI accrual task) = Some err ->
     exists err' reads,
       RunUpdateOrdersStatusJob accrual picks w =
         Ret (Some err')
             (mkWorld (db w) (open_tx w) (trace w ++ reads) (faults w))
       /\ forallb is_read reads = true
       /\ (err' = ErrAccessingDB
           \/ first_error (startWorkers accrual numOfWorkers picks
                             (select_processing_orders (db w))) = Some err'
              /\ exists task',
                   In task' (select_processing_orders (db w))
                   /\ snd (GetAccrualAPI accrual task') = Some err')
       /\ (no_faults w ->
           (forall task' r,
              In task' (select_processing_orders (db w)) ->
              worker accrual task' = Some (OnResultCh r) ->
              Accrual r <> None ->
              select_user_balance (UserID r) (db w) <> None) ->
           first_error (startWorkers accrual numOfWorkers picks
                          (select_processing_orders (db w))) = Some err'))
  /\ (forall task err,
        In task (select_user_processing_orders userID (db w)) ->
        snd (GetAccrualAPI accrual task) = Some err ->
        exists err',
          CheckUpdateUserOrders accrual picks userID w =
            Ret (Some err')
                (mkWorld (db w) (open_tx w)
                   (trace w ++ [EvQuery (QUserProcessingOrders userID)])
                   (faults w))
          /\ first_error (startWorkers accrual numOfWorkers picks
                            (select_user_processing_orders userID (db w)))
             = Some err'
          /\ exists task',
               In task' (select_user_processing_orders userID (db w))
               /\ snd (GetAccrualAPI accrual task') = Some err').
Proof.
  intros Hread. split; intros task err Hin Herr.
  - rewrite RunUpdateOrdersStatusJob_run, Hread.
    destruct (first_error_of_batch accrual picks _ task err Hin Herr)
      as [e1 He1].
    destruct (job_loop_run
                (startWorkers accrual numOfWorkers picks
                   (select_processing_orders (db w))) [] ∅
                (logged (EvQuery QProcessingOrders) w))
      as (r & evs & Hrun & Hreads & Hres).
    rewrite Hrun. destruct r as [e|[L m]].
    + exists e, (EvQuery QProcessingOrders :: evs). cbn.
      rewrite <- app_assoc. split; [reflexivity|]. split; [exact Hreads|].
      split.
      * destruct Hres as [->|He]; [now left|right].
        split; [exact He|]. apply (first_error_from_batch _ picks), He.
      * intros Hnf Hrows.
        destruct (job_loop_first_error
                    (startWorkers accrual numOfWorkers picks
                       (select_processing_orders (db w))) e1 [] ∅
                    (logged (EvQuery QProcessingOrders) w) Hnf) as [evs' Hrun'];
          [|exact He1|].
        { intros r Hr. apply In_startWorkers in Hr as (task' & Hin' & Hw).
          exact (Hrows task' r Hin' Hw). }
        rewrite Hrun' in Hrun. injection Hrun as <- _. exact He1.
    + destruct Hres as [Hnone _]. congruence.
  - rewrite CheckUpdateUserOrders_run. cbn zeta. rewrite Hread.
    destruct (first_error_of_batch accrual picks _ task err Hin Herr)
      as [e1 He1].
    rewrite He1. exists e1. split; [reflexivity|]. split; [reflexivity|].
    apply (first_error_from_batch _ picks), He1.
Qed.

(** ** What the statements do to the stored data *)

Lemma find_map_preserved {A} (p : A -> bool) (f : A -> A) (l : list A) :
  (forall x, p (f x) = p x) -> find p (map f l) = f <$> find p l.
Proof.
  intros Hp. induction l as [|x l IH]; [reflexivity|].
  cbn. rewrite Hp. destruct (p x); [reflexivity|exact IH].
Qed.

Lemma select_user_balance_update newBalance userID u d :
  select_user_balance u (apply_stmt (SUpdateBalance newBalance userID) d) =
  if N.eqb u userID then (fun _ => newBalance) <$> select_user_balance u d
  else select_user_balance u d.
Proof.
  unfold select_user_balance, apply_stmt. cbn.
  rewrite find_map_preserved.
  2:{ intros r. destruct (N.eqb (balance_uuid r) userID); reflexivity. }
  destruct (find _ (balance d)) as [r|] eqn:Hfind; cbn.
  - apply find_some in Hfind as [_ Hr]. apply N.eqb_eq in Hr. subst u.
    destruct (N.eqb (balance_uuid r) userID); reflexivity.
  - destruct (N.eqb u userID); reflexivity.
Qed.

Lemma stored_status_update status accrual orderNumber n d :
  stored_status n (apply_stmt (SUpdateOrder status accrual orderNumber) d) =
  if String.eqb n orderNumber then (fun _ => status) <$> stored_status n d
  else stored_status n d.
Proof.
  unfold stored_status, apply_stmt. cbn.
  rewrite find_map_preserved.
  2:{ intros r. destruct (String.eqb (order_number r) orderNumber); reflexivity. }
  destruct (find _ (orders d)) as [r|] eqn:Hfind; cbn.
  - apply find_some in Hfind as [_ Hr]. apply String.eqb_eq in Hr. subst n.
    destruct (String.eqb (order_number r) orderNumber); reflexivity.
  - destruct (String.eqb n orderNumber); reflexivity.
Qed.

Lemma apply_stmts_app stmts1 stmts2 d :
  apply_stmts (stmts1 ++ stmts2) d = apply_stmts stmts2 (apply_stmts stmts1 d).
Proof. unfold apply_stmts. apply fold_left_app. Qed.

Lemma balance_stmts_orders entries : forall d,
  orders (apply_stmts (map balance_stmt entries) d) = orders d.
Proof.
  induction entries as [|e rest IH]; intros d; [reflexivity|].
  cbn. unfold apply_stmts in IH. rewrite IH. reflexivity.
Qed.

Lemma order_stmts_balance updatedOrders : forall d,
  balance (apply_stmts (map order_stmt updatedOrders) d) = balance d.
Proof.
  induction updatedOrders as [|o rest IH]; intros d; [reflexivity|].
  cbn. unfold apply_stmts in IH. rewrite IH. reflexivity.
Qed.

Lemma order_stmts_withdrawals updatedOrders : forall d,
  withdrawals (apply_stmts (map order_stmt updatedOrders) d) = withdrawals d.
Proof.
  induction updatedOrders as [|o rest IH]; intros d; [reflexivity|].
  cbn. unfold apply_stmts in IH. rewrite IH. reflexivity.
Qed.

Lemma forallb_update_balance_stmts entries :
  forallb is_update (map balance_stmt entries) = true.
Proof. induction entries; cbn; auto. Qed.

Lemma forallb_update_order_stmts updatedOrders :
  forallb is_update (map order_stmt updatedOrders) = true.
Proof. induction updatedOrders; cbn; auto. Qed.

Lemma startWorkers_nil service n picks : startWorkers service n picks [] = [].
Proof. reflexivity. Qed.

(** C7, as amended: a sweep whose list of pending orders is empty still goes
    through its transaction.  [RunUpdateOrdersStatusJob] begins a transaction,
    executes no statement in it, commits and returns nil (the error of
    [Begin] when that fails); [CheckUpdateUserOrders] reads the user's
    balance, begins a transaction, executes one UPDATE that writes this
    balance back, commits and returns nil (with no balance row for the user
    it returns [ErrAccessingDB] after the read).  In both, every stored
    order, balance and withdrawal reads as before. *)
Theorem sweep_of_no_orders (accrual : AccrualService) (picks : list nat)
    (userID : UUID) (w : World) :
  next_fault w = None ->
  (select_processing_orders (db w) = [] ->
   let w1 := logged (EvQuery QProcessingOrders) w in
   RunUpdateOrdersStatusJob accrual picks w =
   match next_fault w1 with
   | Some err => Ret (Some err) (logged EvBegin w1)
   | None =>
       Ret None
         (mkWorld (db w) None
            (trace w ++ [EvQuery QProcessingOrders; EvBegin; EvCommit])
            (faults w))
   end)
  /\ (select_user_processing_orders userID (db w) = [] ->
      let res := CheckUpdateUserOrders accrual picks userID w in
      (forall userBalance,
         no_faults w ->
         select_user_balance userID (db w) = Some userBalance ->
         res =
         Ret None
           (mkWorld (apply_stmt (SUpdateBalance userBalance userID) (db w))
              None
              (trace w ++ [EvQuery (QUserProcessingOrders userID);
                           EvQuery (QUserBalance userID);
                           EvBegin;
                           EvExec (SUpdateBalance userBalance userID);
                           EvCommit])
              (faults w)))
      /\ (select_user_balance userID (db w) = None ->
          res =
          Ret (Some ErrAccessingDB)
            (logged (EvQuery (QUserBalance userID))
               (logged (EvQuery (QUserProcessingOrders userID)) w)))
      /\ orders (db (world_of res)) = orders (db w)
      /\ withdrawals (db (world_of res)) = withdrawals (db w)
      /\ forall u, select_user_balance u (db (world_of res))
                   = select_user_balance u (db w)).
Proof.
  intros Hread. split; intros Hempty.
  - cbn zeta. rewrite RunUpdateOrdersStatusJob_run, Hread, Hempty.
    rewrite startWorkers_nil. cbn [job_loop ret].
    rewrite map_to_list_empty. cbn [map app].
    rewrite withTransaction_run. unfold next_fault.
    destruct (faults (logged (EvQuery QProcessingOrders) w) _) eqn:Hf;
      cbn [fmap option_fmap option_map]; [reflexivity|].
    cbn. unfold commit_result, mkWorld. cbn.
    rewrite <- !app_assoc. cbn [app].
    match goal with |- context [faults w ?n] => destruct (faults w n) end;
      reflexivity.
  - cbn zeta. split.
    + intros b Hnf Hb. rewrite CheckUpdateUserOrders_run. cbn zeta.
      rewrite Hread, Hempty, startWorkers_nil.
      cbn [first_error omap list_omap head map total foldr results_of].
      unfold next_fault. cbn [logged mkWorld faults]. rewrite Hnf.
      cbn [fmap option_fmap option_map]. rewrite Hb, Z.add_0_r.
      rewrite withTransaction_updates; [|exact Hnf|reflexivity].
      cbn. rewrite <- !app_assoc. reflexivity.
    + split.
      { intros Hnone. rewrite CheckUpdateUserOrders_run. lazy zeta.
        rewrite Hread, Hempty, startWorkers_nil, Hnone.
        cbn [first_error omap list_omap head].
        destruct (next_fault (logged _ w)); reflexivity. }
      rewrite CheckUpdateUserOrders_run. cbn zeta.
      rewrite Hread, Hempty, startWorkers_nil.
      cbn [first_error omap list_omap head map total foldr results_of].
      match goal with
      | |- context [match ?f with Some _ => _ | None => _ end] =>
          destruct f; [cbn; auto|]
      end.
      destruct (select_user_balance userID (db w)) as [b|] eqn:Hb;
        [|cbn; auto].
      rewrite Z.add_0_r.
      destruct (withTransaction_statements as_ErrAccessingDB
                  [SUpdateBalance b userID]
                  (logged (EvQuery (QUserBalance userID))
                     (logged (EvQuery (QUserProcessingOrders userID)) w)))
        as (r & d & t & evs & Hrun & Hcases).
      rewrite Hrun. cbn [world_of db mkWorld].
      destruct Hcases as [->|(_ & -> & _)]; [cbn; auto|].
      cbn [apply_stmts fold_left logged mkWorld db].
      split; [reflexivity|]. split; [reflexivity|].
      intros u. rewrite select_user_balance_update.
      destruct (N.eqb_spec u userID) as [->|]; [|reflexivity].
      rewrite Hb. reflexivity.
Qed.

(** ** Withdrawals *)

Lemma withdrawal_body_statements userID orderNumber sum newUserBalance w :
  (let* err := StoreUserWithdrawal userID orderNumber sum in
   match err with
   | Some err => ret (Some err)
   | None =>
       let* err := UpdateUserBalance userID newUserBalance in
       match err with
       | Some err => ret (Some err)
       | None => ret None
       end
   end) w =
  statements_body (fun err => err)
    [SInsertWithdrawal userID orderNumber sum;
     SUpdateBalance newUserBalance userID] w.
Proof.
  unfold statements_body, StoreUserWithdrawal, UpdateUserBalance.
  cbn [exec_each]. unfold bind.
  destruct (tx_Exec _ w) as [[e|] w1|p w1]; try reflexivity.
  destruct (tx_Exec _ w1) as [[e|] w2|p w2]; reflexivity.
Qed.

Lemma WithdrawalBonusForNewOrder_run userID orderNumber sum w :
  WithdrawalBonusForNewOrder userID orderNumber sum w =
  let w1 := logged (EvQuery (QUserBalance userID)) w in
  if isValidLuhn orderNumber then
    match next_fault w, select_user_balance userID (db w) with
    | None, Some userBalance =>
        if userBalance <? sum then Ret (Some ErrNotEnoughFunds) w1
        else withTransaction
               (statements_body (fun err => err)
                  [SInsertWithdrawal userID orderNumber sum;
                   SUpdateBalance (userBalance - sum) userID]) w1
    | _, _ => Ret (Some ErrAccessingDB) w1
    end
  else Ret (Some ErrOrderNumber) w.
Proof.
  unfold WithdrawalBonusForNewOrder.
  destruct (isValidLuhn orderNumber); [|reflexivity]. cbn [negb].
  unfold bind at 1. rewrite GetUserBalance_run. cbn zeta.
  destruct (next_fault w); [reflexivity|].
  destruct (select_user_balance userID (db w)) as [b|]; [|reflexivity].
  cbn beta iota. destruct (b <? sum); [reflexivity|].
  apply withTransaction_ext, withdrawal_body_statements.
Qed.

(** C8, as amended: a withdrawal of more than the user's balance is refused
    without any write, with [ErrNotEnoughFunds] when the order number passes
    the Luhn check and the balance read succeeds (an order number that fails
    the check is refused first, with [ErrOrderNumber], and a failed read
    gives [ErrAccessingDB]); and a withdrawal that commits leaves the
    balance at [userBalance - sum] with [sum <= userBalance], hence not
    below zero. *)
Theorem withdrawal_guard (userID : UUID) (orderNumber : string)
    (sum : Decimal) (w : World) (userBalance : Decimal) :
  select_user_balance userID (db w) = Some userBalance ->
  let res := WithdrawalBonusForNewOrder userID orderNumber sum w in
  (userBalance < sum ->
   res =
   if isValidLuhn orderNumber then
     Ret (Some (match next_fault w with
                | Some _ => ErrAccessingDB
                | None => ErrNotEnoughFunds
                end))
         (logged (EvQuery (QUserBalance userID)) w)
   else Ret (Some ErrOrderNumber) w)
  /\ (db (world_of res) = db w
      \/ sum <= userBalance
         /\ 0 <= userBalance - sum
         /\ select_user_balance userID (db (world_of res))
            = Some (userBalance - sum)
         /\ withdrawals (db (world_of res))
            = withdrawals (db w)
              ++ [{| withdrawal_order_number := orderNumber;
                     withdrawal_uuid := userID;
                     withdrawal_sum := sum |}]).
Proof.
  intros Hb res. subst res. rewrite WithdrawalBonusForNewOrder_run.
  cbn zeta. rewrite Hb.
  destruct (isValidLuhn orderNumber).
  2:{ split; [reflexivity|]. left. reflexivity. }
  destruct (next_fault w) as [e|].
  { split; [reflexivity|]. left. reflexivity. }
  destruct (Z.ltb_spec userBalance sum) as [Hlt|Hge].
  { split; [reflexivity|]. left. reflexivity. }
  split; [lia|].
  destruct (withTransaction_statements (fun err => err)
              [SInsertWithdrawal userID orderNumber sum;
               SUpdateBalance (userBalance - sum) userID]
              (logged (EvQuery (QUserBalance userID)) w))
    as (r & d & t & evs & Hrun & Hcases).
  rewrite Hrun. cbn [world_of db mkWorld].
  destruct Hcases as [->|(_ & -> & _)]; [left; reflexivity|right].
  split; [exact Hge|]. split; [lia|].
  cbn [apply_stmts fold_left logged mkWorld db].
  rewrite select_user_balance_update, N.eqb_refl.
  split; [|reflexivity].
  unfold select_user_balance in *. cbn. rewrite Hb. reflexivity.
Qed.

(** ** Order intake *)

Lemma InputUserOrder_run accrual userID orderNumber w :
  InputUserOrder accrual userID orderNumber w =
  let w1 := logged (EvQuery (QOrderOwner orderNumber)) w in
  let w2 := logged (EvHttpGet orderNumber) w1 in
  let w3 := logged (EvQuery (QUserBalance userID)) w2 in
  if isValidLuhn orderNumber then
    match next_fault w, select_order_owner orderNumber (db w) with
    | Some _, _ => Ret (Some ErrAccessingDB) w1
    | None, Some savedUserID =>
        Ret (Some (if N.eqb savedUserID userID then ErrUserOrderExists
                   else ErrAnotherUserOrderExists)) w1
    | None, None =>
        match GetAccrualAPI accrual (intake_order orderNumber) with
        | (_, Some err) => Ret (Some err) w2
        | (responseData, None) =>
            match next_fault w2 with
            | Some _ => Ret (Some ErrAccessingDB) w3
            | None =>
                match Accrual responseData with
                | None => Panic nil_dereference w3
                | Some a =>
                    withTransaction
                      (statements_body as_ErrAccessingDB
                         [SInsertOrder orderNumber userID a
                            (normalized (Status responseData));
                          SUpdateBalance
                            (default 0 (select_user_balance userID (db w)) + a)
                            userID]) w3
                end
            end
        end
    end
  else Ret (Some ErrOrderNumber) w.
Proof.
  unfold InputUserOrder. cbn zeta.
  destruct (isValidLuhn orderNumber); [|reflexivity]. cbn [negb].
  unfold bind at 1. rewrite GetUUIDFromOrders_run. unfold next_fault at 1 2.
  destruct (faults w (length (trace w)));
    cbn [fmap option_fmap option_map]; [reflexivity|].
  destruct (select_order_owner orderNumber (db w)) as [saved|].
  { cbn. destruct (N.eqb saved userID); reflexivity. }
  cbn beta iota. cbn [is_ErrNoRows negb]. unfold bind at 1. cbn [log_event].
  fold (intake_order orderNumber).
  destruct (GetAccrualAPI accrual (intake_order orderNumber))
    as [responseData [err|]]; [reflexivity|].
  unfold bind at 1. rewrite GetUserBalance_run.
  change (mkWorld (db w) (open_tx w)
            (trace (logged (EvQuery (QOrderOwner orderNumber)) w)
             ++ [EvHttpGet orderNumber]) (faults w))
    with (logged (EvHttpGet orderNumber)
            (logged (EvQuery (QOrderOwner orderNumber)) w)).
  unfold next_fault at 1 2.
  destruct (faults _ _); cbn [fmap option_fmap option_map]; [reflexivity|].
  cbn [logged mkWorld db].
  assert (Hacc : Accrual (if String.eqb (Status responseData) "REGISTERED"
                          then {| UserID := UserID responseData;
                                  Order := Order responseData;
                                  Status := "NEW";
                                  Accrual := Accrual responseData |}
                          else responseData) = Accrual responseData).
  { destruct (String.eqb _ _); reflexivity. }
  assert (Hst : Status (if String.eqb (Status responseData) "REGISTERED"
                        then {| UserID := UserID responseData;
                                Order := Order responseData;
                                Status := "NEW";
                                Accrual := Accrual responseData |}
                        else responseData) = normalized (Status responseData)).
  { unfold normalized. destruct (String.eqb _ _); reflexivity. }
  destruct (select_user_balance userID (db w)) as [b|];
    cbn beta iota; cbn [other_than_no_rows is_ErrNoRows negb];
    rewrite ?Hacc, ?Hst;
    (destruct (Accrual responseData) as [a|]; [|reflexivity]);
    unfold bind at 1; cbn [deref ret];
    (apply withTransaction_ext; intros w0;
     unfold statements_body, StoreUserOrder, UpdateUserBalance;
     cbn [exec_each]; unfold bind; cbn [deref ret];
     destruct (tx_Exec _ w0) as [[e|] w4|p w4]; try reflexivity;
     destruct (tx_Exec _ w4) as [[e|] w5|p w5]; reflexivity).
Qed.

(** ** Answers 429 and 204 *)

Lemma GetAccrualAPI_retry_later service task code body :
  service (uo_Number task) = Response code body ->
  code = StatusTooManyRequests \/ code = StatusNoContent ->
  GetAccrualAPI service task = (retry_later task, None).
Proof.
  unfold GetAccrualAPI. intros -> [->| ->]; reflexivity.
Qed.

Lemma worker_retry_later service task code body :
  service (uo_Number task) = Response code body ->
  code = StatusTooManyRequests \/ code = StatusNoContent ->
  worker service task =
  if String.eqb (uo_Status task) "NEW" then None
  else Some (OnResultCh (retry_later task)).
Proof.
  intros Hs Hc. unfold worker.
  rewrite (GetAccrualAPI_retry_later service task code body Hs Hc). cbn.
  destruct (String.eqb (uo_Status task) "NEW"); reflexivity.
Qed.

Lemma stored_status_orders n d1 d2 :
  orders d1 = orders d2 -> stored_status n d1 = stored_status n d2.
Proof. unfold stored_status. now intros ->. Qed.

Lemma stored_status_order_stmts n status updatedOrders : forall d status0,
  stored_status n d = Some status0 ->
  (forall r, In r updatedOrders -> Order r = n -> Status r = status) ->
  stored_status n (apply_stmts (map order_stmt updatedOrders) d) =
  Some (if existsb (names n) updatedOrders then status else status0).
Proof.
  induction updatedOrders as [|o rest IH]; intros d status0 Hd Hall.
  - exact Hd.
  - cbn [map apply_stmts fold_left existsb]. unfold order_stmt at 2.
    fold (apply_stmts (map order_stmt rest)
            (apply_stmt (SUpdateOrder (Status o) (Accrual o) (Order o)) d)).
    unfold names at 1.
    destruct (String.eqb_spec n (Order o)) as [Heq|Hne].
    + rewrite (IH _ status).
      * cbn [orb]. destruct (existsb _ rest); reflexivity.
      * rewrite stored_status_update, Heq, String.eqb_refl, <- Heq, Hd. cbn.
        f_equal. apply Hall; [now left|auto].
      * intros r Hr. apply Hall. now right.
    + rewrite (IH _ status0).
      * reflexivity.
      * rewrite stored_status_update.
        destruct (String.eqb_spec n (Order o)); [contradiction|exact Hd].
      * intros r Hr. apply Hall. now right.
Qed.

Lemma stored_accrual_update status accrual orderNumber n d :
  stored_accrual n (apply_stmt (SUpdateOrder status accrual orderNumber) d) =
  if String.eqb n orderNumber then (fun _ => accrual) <$> stored_accrual n d
  else stored_accrual n d.
Proof.
  unfold stored_accrual, apply_stmt. cbn.
  rewrite find_map_preserved.
  2:{ intros r. destruct (String.eqb (order_number r) orderNumber); reflexivity. }
  destruct (find _ (orders d)) as [r|] eqn:Hfind; cbn.
  - apply find_some in Hfind as [_ Hr]. apply String.eqb_eq in Hr. subst n.
    destruct (String.eqb (order_number r) orderNumber); reflexivity.
  - destruct (String.eqb n orderNumber); reflexivity.
Qed.

Lemma stored_accrual_orders n d1 d2 :
  orders d1 = orders d2 -> stored_accrual n d1 = stored_accrual n d2.
Proof. unfold stored_accrual. now intros ->. Qed.

Lemma stored_accrual_order_stmts n accrual updatedOrders : forall d accrual0,
  stored_accrual n d = Some accrual0 ->
  (forall r, In r updatedOrders -> Order r = n -> Accrual r = accrual) ->
  stored_accrual n (apply_stmts (map order_stmt updatedOrders) d) =
  Some (if existsb (names n) updatedOrders then accrual else accrual0).
Proof.
  induction updatedOrders as [|o rest IH]; intros d accrual0 Hd Hall.
  - exact Hd.
  - cbn [map apply_stmts fold_left existsb]. unfold order_stmt at 2.
    fold (apply_stmts (map order_stmt rest)
            (apply_stmt (SUpdateOrder (Status o) (Accrual o) (Order o)) d)).
    unfold names at 1.
    destruct (String.eqb_spec n (Order o)) as [Heq|Hne].
    + rewrite (IH _ accrual).
      * cbn [orb]. destruct (existsb _ rest); reflexivity.
      * rewrite stored_accrual_update, Heq, String.eqb_refl, <- Heq, Hd. cbn.
        f_equal. apply Hall; [now left|auto].
      * intros r Hr. apply Hall. now right.
    + rewrite (IH _ accrual0).
      * reflexivity.
      * rewrite stored_accrual_update.
        destruct (String.eqb_spec n (Order o)); [contradiction|exact Hd].
      * intros r Hr. apply Hall. now right.
Qed.

Lemma In_results_of r sent : In r (results_of sent) <-> In (OnResultCh r) sent.
Proof.
  unfold results_of. rewrite <- !list_elem_of_In, list_elem_of_omap. split.
  - intros ([r'|e] & Hin & Hr); [|discriminate]. cbn in Hr. congruence.
  - intros Hin. exists (OnResultCh r). auto.
Qed.

Section RetryLater.

Variable accrual : AccrualService.
Variables (task : UserOrder) (code : Z) (body : Body).
Hypothesis answered : accrual (uo_Number task) = Response code body.
Hypothesis retry : code = StatusTooManyRequests \/ code = StatusNoContent.

(** In a batch where the answers name the order they were asked about, the
    order updates collected leave the order of [task] with status NEW. *)
Lemma retry_later_collected picks tasks d :
  In task tasks ->
  stored_status (uo_Number task) d = Some (uo_Status task) ->
  (forall task' r,
     In task' tasks -> worker accrual task' = Some (OnResultCh r) ->
     Order r = uo_Number task -> uo_Number task' = uo_Number task) ->
  stored_status (uo_Number task)
    (apply_stmts
       (map order_stmt
          (results_of (startWorkers accrual numOfWorkers picks tasks))) d)
  = Some "NEW".
Proof.
  intros Hin Hstored Hothers.
  rewrite (stored_status_order_stmts _ "NEW" _ _ (uo_Status task) Hstored).
  - destruct (existsb _ _) eqn:Hex; [reflexivity|].
    destruct (String.eqb_spec (uo_Status task) "NEW") as [Hnew|Hnew];
      [now rewrite Hnew|].
    assert (Hsent : In (retry_later task)
                      (results_of (startWorkers accrual numOfWorkers picks tasks))).
    { apply In_results_of, In_startWorkers. exists task. split; [exact Hin|].
      rewrite (worker_retry_later accrual task code body answered retry).
      destruct (String.eqb_spec (uo_Status task) "NEW");
        [contradiction|reflexivity]. }
    assert (existsb (names (uo_Number task))
              (results_of (startWorkers accrual numOfWorkers picks tasks))
            = true); [|congruence].
    apply existsb_exists. exists (retry_later task). split; [exact Hsent|].
    unfold names. cbn. apply String.eqb_refl.
  - intros r Hr Hnames.
    apply In_results_of, In_startWorkers in Hr as (task' & Hin' & Hw).
    pose proof (Hothers task' r Hin' Hw Hnames) as Hnum.
    assert (Hanswer : accrual (uo_Number task') = Response code body)
      by (rewrite Hnum; exact answered).
    rewrite (worker_retry_later accrual task' code body Hanswer retry) in Hw.
    destruct (String.eqb _ _); [discriminate|].
    injection Hw as <-. reflexivity.
Qed.

(** When the stored status of [task] is not NEW, they also leave its
    accrual NULL. *)
Lemma retry_later_collected_accrual picks tasks d accrual0 :
  In task tasks ->
  uo_Status task <> "NEW" ->
  stored_accrual (uo_Number task) d = Some accrual0 ->
  (forall task' r,
     In task' tasks -> worker accrual task' = Some (OnResultCh r) ->
     Order r = uo_Number task -> uo_Number task' = uo_Number task) ->
  stored_accrual (uo_Number task)
    (apply_stmts
       (map order_stmt
          (results_of (startWorkers accrual numOfWorkers picks tasks))) d)
  = Some None.
Proof.
  intros Hin Hnew Hstored Hothers.
  rewrite (stored_accrual_order_stmts _ None _ _ accrual0 Hstored).
  - destruct (existsb _ _) eqn:Hex; [reflexivity|].
    assert (Hsent : In (retry_later task)
                      (results_of (startWorkers accrual numOfWorkers picks tasks))).
    { apply In_results_of, In_startWorkers. exists task. split; [exact Hin|].
      rewrite (worker_retry_later accrual task code body answered retry).
      destruct (String.eqb_spec (uo_Status task) "NEW");
        [contradiction|reflexivity]. }
    assert (existsb (names (uo_Number task))
              (results_of (startWorkers accrual numOfWorkers picks tasks))
            = true); [|congruence].
    apply existsb_exists. exists (retry_later task). split; [exact Hsent|].
    unfold names. cbn. apply String.eqb_refl.
  - intros r Hr Hnames.
    apply In_results_of, In_startWorkers in Hr as (task' & Hin' & Hw).
    pose proof (Hothers task' r Hin' Hw Hnames) as Hnum.
    assert (Hanswer : accrual (uo_Number task') = Response code body)
      by (rewrite Hnum; exact answered).
    rewrite (worker_retry_later accrual task' code body Hanswer retry) in Hw.
    destruct (String.eqb _ _); [discriminate|].
    injection Hw as <-. reflexivity.
Qed.

End RetryLater.

(** ** Sweeps that complete *)

Lemma no_faults_next w : no_faults w -> next_fault w = None.
Proof. unfold next_fault. now intros ->. Qed.

Lemma RunUpdateOrdersStatusJob_completed accrual picks w :
  no_faults w ->
  returned (RunUpdateOrdersStatusJob accrual picks w) = Some None ->
  exists usersBalanceToUpdate,
    db (world_of (RunUpdateOrdersStatusJob accrual picks w)) =
    apply_stmts
      (map balance_stmt (map_to_list usersBalanceToUpdate)
       ++ map order_stmt
            (results_of (startWorkers accrual numOfWorkers picks
                           (select_processing_orders (db w))))) (db w).
Proof.
  intros Hnf. rewrite RunUpdateOrdersStatusJob_run, (no_faults_next w Hnf).
  destruct (job_loop_run
              (startWorkers accrual numOfWorkers picks
                 (select_processing_orders (db w))) [] ∅
              (logged (EvQuery QProcessingOrders) w))
    as (r & evs & Hrun & _ & Hres).
  rewrite Hrun. destruct r as [err|[L m]]; [discriminate|].
  destruct Hres as [_ ->]. cbn [app]. intros _. exists m.
  rewrite withTransaction_updates; [reflexivity|exact Hnf|].
  rewrite forallb_app, forallb_update_balance_stmts,
    forallb_update_order_stmts. reflexivity.
Qed.

Lemma CheckUpdateUserOrders_completed accrual picks userID w :
  no_faults w ->
  returned (CheckUpdateUserOrders accrual picks userID w) = Some None ->
  let sent := startWorkers accrual numOfWorkers picks
                (select_user_processing_orders userID (db w)) in
  exists userBalance,
    select_user_balance userID (db w) = Some userBalance
    /\ first_error sent = None
    /\ db (world_of (CheckUpdateUserOrders accrual picks userID w)) =
       apply_stmts
         (SUpdateBalance (userBalance + total (map accrual_sent sent)) userID
          :: map order_stmt (results_of sent)) (db w).
Proof.
  intros Hnf. rewrite CheckUpdateUserOrders_run. lazy zeta.
  rewrite (no_faults_next w Hnf).
  destruct (first_error _); [discriminate|].
  rewrite (no_faults_next (logged _ w) Hnf).
  destruct (select_user_balance userID (db w)) as [b|]; [|discriminate].
  intros _. exists b. split; [reflexivity|]. split; [reflexivity|].
  rewrite withTransaction_updates; [reflexivity|exact Hnf|].
  cbn [forallb is_update]. apply forallb_update_order_stmts.
Qed.

(** C4, as amended: in a pooled sweep, an order whose query is answered 429
    or 204 sends nothing on the error channel, so it does not abort the
    batch, and adds nothing to the balances.  When its stored status is NEW
    it sends nothing at all; otherwise (PROCESSING, REGISTERED) it sends a
    result with status NEW and no accrual, which the loops queue without
    reading or changing a balance.  In a batch where every answer that names
    the order's number was given to a query for that number, a sweep that
    runs without a driver failure and returns nil leaves the order stored
    with status NEW and, when its status was not NEW before, with a NULL
    accrual. *)
Theorem retry_later_in_a_sweep (accrual : AccrualService) (picks : list nat)
    (userID : UUID) (w : World) (task : UserOrder) (code : Z) (body : Body) :
  accrual (uo_Number task) = Response code body ->
  code = StatusTooManyRequests \/ code = StatusNoContent ->
  worker accrual task =
    (if String.eqb (uo_Status task) "NEW" then None
     else Some (OnResultCh (retry_later task)))
  /\ (forall rest ordersToUpdate usersBalanceToUpdate,
        job_loop (OnResultCh (retry_later task) :: rest)
                 ordersToUpdate usersBalanceToUpdate
        = job_loop rest (ordersToUpdate ++ [retry_later task])
                   usersBalanceToUpdate)
  /\ (forall rest ordersToUpdate accrualToUpdate,
        user_loop (OnResultCh (retry_later task) :: rest)
                  ordersToUpdate accrualToUpdate
        = user_loop rest (ordersToUpdate ++ [retry_later task])
                    accrualToUpdate)
  /\ (no_faults w ->
      stored_status (uo_Number task) (db w) = Some (uo_Status task) ->
      (In task (select_processing_orders (db w)) ->
       (forall task' r,
          In task' (select_processing_orders (db w)) ->
          worker accrual task' = Some (OnResultCh r) ->
          Order r = uo_Number task -> uo_Number task' = uo_Number task) ->
       returned (RunUpdateOrdersStatusJob accrual picks w) = Some None ->
       let after := db (world_of (RunUpdateOrdersStatusJob accrual picks w)) in
       stored_status (uo_Number task) after = Some "NEW"
       /\ (uo_Status task <> "NEW" ->
           stored_accrual (uo_Number task) after = Some None))
      /\ (In task (select_user_processing_orders userID (db w)) ->
          (forall task' r,
             In task' (select_user_processing_orders userID (db w)) ->
             worker accrual task' = Some (OnResultCh r) ->
             Order r = uo_Number task -> uo_Number task' = uo_Number task) ->
          returned (CheckUpdateUserOrders accrual picks userID w)
          = Some None ->
          let after :=
            db (world_of (CheckUpdateUserOrders accrual picks userID w)) in
          stored_status (uo_Number task) after = Some "NEW"
          /\ (uo_Status task <> "NEW" ->
              stored_accrual (uo_Number task) after = Some None))).
Proof.
  intros Hanswer Hcode.
  split; [exact (worker_retry_later accrual task code body Hanswer Hcode)|].
  split; [reflexivity|]. split; [reflexivity|].
  intros Hnf Hstored.
  assert (Haccrual : exists accrual0,
            stored_accrual (uo_Number task) (db w) = Some accrual0).
  { revert Hstored. unfold stored_status, stored_accrual.
    destruct (find _ (orders (db w))); [eauto|discriminate]. }
  destruct Haccrual as [accrual0 Haccrual].
  split; intros Hin Hothers Hdone after; subst after.
  - destruct (RunUpdateOrdersStatusJob_completed accrual picks w Hnf Hdone)
      as [m ->].
    rewrite apply_stmts_app. split.
    + apply (retry_later_collected accrual task code body Hanswer Hcode);
        [exact Hin| |exact Hothers].
      rewrite <- Hstored. apply stored_status_orders, balance_stmts_orders.
    + intros Hnew.
      apply (retry_later_collected_accrual accrual task code body Hanswer
               Hcode picks _ _ accrual0); [exact Hin|exact Hnew| |exact Hothers].
      rewrite <- Haccrual. apply stored_accrual_orders, balance_stmts_orders.
  - destruct (CheckUpdateUserOrders_completed accrual picks userID w Hnf Hdone)
      as (b & _ & _ & ->).
    change (SUpdateBalance ?x userID :: ?l)
      with (map balance_stmt [(userID, x)] ++ l).
    rewrite apply_stmts_app. split.
    + apply (retry_later_collected accrual task code body Hanswer Hcode);
        [exact Hin| |exact Hothers].
      rewrite <- Hstored. apply stored_status_orders, balance_stmts_orders.
    + intros Hnew.
      apply (retry_later_collected_accrual accrual task code body Hanswer
               Hcode picks _ _ accrual0); [exact Hin|exact Hnew| |exact Hothers].
      rewrite <- Haccrual. apply stored_accrual_orders, balance_stmts_orders.
Qed.

(** ** The balance after the single-user sweep *)

Lemma select_user_balance_balance u d1 d2 :
  balance d1 = balance d2 -> select_user_balance u d1 = select_user_balance u d2.
Proof. unfold select_user_balance. now intros ->. Qed.

Lemma CheckUpdateUserOrders_completes accrual picks userID w userBalance :
  no_faults w ->
  select_user_balance userID (db w) = Some userBalance ->
  (forall task, In task (select_user_processing_orders userID (db w)) ->
                snd (GetAccrualAPI accrual task) = None) ->
  returned (CheckUpdateUserOrders accrual picks userID w) = Some None.
Proof.
  intros Hnf Hb Hok. rewrite CheckUpdateUserOrders_run. lazy zeta.
  rewrite (no_faults_next w Hnf).
  destruct (first_error _) as [err|] eqn:Herr.
  { apply first_error_from_batch in Herr as (task & Hin & Htask).
    rewrite (Hok task Hin) in Htask. discriminate. }
  rewrite (no_faults_next (logged _ w) Hnf), Hb.
  rewrite withTransaction_updates; [reflexivity|exact Hnf|].
  cbn [forallb is_update]. apply forallb_update_order_stmts.
Qed.

(** The single-user sweep credits every accrual of the batch: the balance it
    commits is the stored one plus the sum of the accruals brought by the
    user's pending orders, whatever the order of arrival. *)
Lemma CheckUpdateUserOrders_adds_accruals accrual picks userID w userBalance :
  no_faults w ->
  select_user_balance userID (db w) = Some userBalance ->
  returned (CheckUpdateUserOrders accrual picks userID w) = Some None ->
  select_user_balance userID
    (db (world_of (CheckUpdateUserOrders accrual picks userID w)))
  = Some (userBalance
          + total (map (accrual_brought accrual)
                     (select_user_processing_orders userID (db w)))).
Proof.
  intros Hnf Hb Hdone.
  destruct (CheckUpdateUserOrders_completed accrual picks userID w Hnf Hdone)
    as (b & Hb' & _ & ->).
  rewrite Hb in Hb'. injection Hb' as <-.
  cbn [apply_stmts fold_left].
  fold (apply_stmts
          (map order_stmt
             (results_of (startWorkers accrual numOfWorkers picks
                            (select_user_processing_orders userID (db w)))))).
  rewrite (select_user_balance_balance _ _ _ (order_stmts_balance _ _)).
  rewrite select_user_balance_update, N.eqb_refl, Hb. cbn. do 2 f_equal.
  rewrite <- accrued_tasks. apply total_Permutation.
  apply Permutation_map, startWorkers_Permutation.
Qed.

(** ** Properties of the validator and of the intake path *)

Lemma digit_string_get number : forall k r,
  digit_string number = true -> String.get k number = Some r ->
  is_digit r = true.
Proof.
  induction number as [|x rest IH]; intros k r Hd Hget;
    [destruct k; discriminate|].
  cbn in Hd. apply andb_true_iff in Hd as [Hx Hrest].
  destruct k as [|k]; cbn in Hget; [congruence|eauto].
Qed.

Lemma total_from_left_no_digit number :
  no_digit number = true -> total_from_left (digits_of number) = 0.
Proof.
  induction number as [|r rest IH]; [reflexivity|].
  cbn [no_digit digits_of total_from_left]. intros H.
  apply andb_true_iff in H as [Hr Hrest]. apply negb_true_iff in Hr.
  rewrite (Atoi_non_digit r Hr), (IH Hrest).
  destruct (Nat.even _); reflexivity.
Qed.

Lemma isValidLuhn_no_digit number :
  no_digit number = true -> isValidLuhn number = true.
Proof.
  intros H. rewrite isValidLuhn_total, <- total_from_left_right.
  rewrite (total_from_left_no_digit number H). reflexivity.
Qed.

(** C9: on a string of digits [isValidLuhn] returns true exactly when the
    Luhn checksum holds (true for 79927398713, false for 79927398710);
    replacing any one digit of a number it accepts by another digit makes it
    return false; and [InputUserOrder] refuses a number that fails the check
    with [ErrOrderNumber], having performed no I/O at all. *)
Theorem isValidLuhn_checks_the_checksum (number : string) :
  (digit_string number = true ->
   (satisfies_luhn (digits_of number) -> isValidLuhn number = true)
   /\ (~ satisfies_luhn (digits_of number) -> isValidLuhn number = false))
  /\ (isValidLuhn "79927398713" = true /\ isValidLuhn "79927398710" = false)
  /\ (forall k r c,
        digit_string number = true -> isValidLuhn number = true ->
        String.get k number = Some r -> is_digit c = true -> c <> r ->
        isValidLuhn (replace_at k c number) = false)
  /\ (forall accrual userID w,
        isValidLuhn number = false ->
        InputUserOrder accrual userID number w = Ret (Some ErrOrderNumber) w).
Proof.
  split; [|split; [split; reflexivity|split]].
  - intros _. split.
    + apply isValidLuhn_iff.
    + intros Hno. destruct (isValidLuhn number) eqn:E; [|reflexivity].
      apply isValidLuhn_iff in E. contradiction.
  - intros k r c Hdigits Hvalid Hget Hc Hne.
    apply (flip_one_digit number k r c); auto.
    apply (digit_string_get number k r Hdigits Hget).
  - intros accrual userID w Hbad. rewrite InputUserOrder_run, Hbad.
    reflexivity.
Qed.

(** C10: [isValidLuhn] accepts the empty string; a character that is not a
    digit counts as the digit 0, so a string is accepted exactly when the
    string with its non-digits replaced by 0 is, and every string without
    digits is accepted; an accepted string, numeric or not, goes on to the
    owner lookup of [InputUserOrder] and to the balance read and check of
    [WithdrawalBonusForNewOrder]. *)
Theorem isValidLuhn_accepts_non_digits (number : string) :
  isValidLuhn EmptyString = true
  /\ (forall r, is_digit r = false -> Atoi r = 0)
  /\ (isValidLuhn number = isValidLuhn (zero_substituted number)
      /\ digit_string (zero_substituted number) = true)
  /\ (no_digit number = true -> isValidLuhn number = true)
  /\ (isValidLuhn number = true ->
      (forall accrual userID w,
         exists rest,
           trace (world_of (InputUserOrder accrual userID number w)) =
           trace w ++ EvQuery (QOrderOwner number) :: rest)
      /\ (forall userID sum w,
            (exists rest,
               trace (world_of (WithdrawalBonusForNewOrder userID number sum w))
               = trace w ++ EvQuery (QUserBalance userID) :: rest)
            /\ (forall userBalance,
                  next_fault w = None ->
                  select_user_balance userID (db w) = Some userBalance ->
                  userBalance < sum ->
                  returned (WithdrawalBonusForNewOrder userID number sum w)
                  = Some (Some ErrNotEnoughFunds)))).
Proof.
  split; [reflexivity|]. split; [exact Atoi_non_digit|].
  split; [split; [symmetry; apply isValidLuhn_zero_substituted
                 |apply digit_string_zero_substituted]|].
  split; [apply isValidLuhn_no_digit|].
  intros Hvalid. split.
  - intros accrual userID w. rewrite InputUserOrder_run, Hvalid. lazy zeta.
    destruct (next_fault w); [eexists; reflexivity|].
    destruct (select_order_owner number (db w)); [eexists; reflexivity|].
    destruct (GetAccrualAPI accrual (intake_order number)) as [data [err|]].
    { eexists. cbn. rewrite <- ?app_assoc. reflexivity. }
    destruct (next_fault _).
    { eexists. cbn. rewrite <- ?app_assoc. reflexivity. }
    destruct (Accrual data) as [a|].
    + match goal with |- context [withTransaction (statements_body ?f ?s) ?w0] =>
        destruct (withTransaction_statements f s w0)
          as (r & d & t & evs & -> & _)
      end.
      eexists. cbn. rewrite <- ?app_assoc. reflexivity.
    + eexists. cbn. rewrite <- ?app_assoc. reflexivity.
  - intros userID sum w. rewrite WithdrawalBonusForNewOrder_run, Hvalid.
    lazy zeta. split.
    + destruct (next_fault w); [eexists; reflexivity|].
      destruct (select_user_balance userID (db w)) as [b|];
        [|eexists; reflexivity].
      destruct (b <? sum); [eexists; reflexivity|].
      match goal with |- context [withTransaction (statements_body ?f ?s) ?w0] =>
        destruct (withTransaction_statements f s w0)
          as (r & d & t & evs & -> & _)
      end.
      eexists. cbn. rewrite <- ?app_assoc. reflexivity.
    + intros b -> -> Hlt. apply Z.ltb_lt in Hlt. rewrite Hlt. reflexivity.
Qed.

(** C5: when the accrual query of a new order succeeds without an accrual
    amount, as it does after a 429 or 204 answer, [InputUserOrder]
    dereferences the nil [Accrual] pointer while computing the new balance:
    it panics, and neither the order nor a balance is stored. *)
Theorem InputUserOrder_nil_accrual_panics (accrual : AccrualService)
    (userID : UUID) (orderNumber : string) (w : World)
    (responseData : AccrualResponseData) :
  isValidLuhn orderNumber = true ->
  no_faults w ->
  select_order_owner orderNumber (db w) = None ->
  GetAccrualAPI accrual (intake_order orderNumber) = (responseData, None) ->
  Accrual responseData = None ->
  InputUserOrder accrual userID orderNumber w =
  Panic nil_dereference
    (mkWorld (db w) (open_tx w)
       (trace w ++ [EvQuery (QOrderOwner orderNumber);
                    EvHttpGet orderNumber;
                    EvQuery (QUserBalance userID)])
       (faults w)).
Proof.
  intros Hvalid Hnf Hnew Hanswer Hnil.
  rewrite InputUserOrder_run, Hvalid. lazy zeta.
  rewrite (no_faults_next w Hnf), Hnew, Hanswer.
  rewrite (no_faults_next (logged _ (logged _ w)) Hnf), Hnil.
  unfold logged, mkWorld. cbn [db open_tx trace faults].
  rewrite <- ?app_assoc. reflexivity.
Qed.

(** ** The code on concrete ledgers *)

(** C1: the system-wide sweep does not add up the accruals of a user.  With
    a balance of 100 and two pending orders of the same user credited 10 and
    20 in one batch, [RunUpdateOrdersStatusJob] commits 120 or 110, depending
    on which answer arrives last, where the claim (and
    [CheckUpdateUserOrders], on the same ledger) gives 130. *)
Theorem job_keeps_the_last_accrual_only :
  select_user_balance 1 two_pending_orders = Some 100
  /\ map (accrual_brought both_processed)
         (select_processing_orders two_pending_orders) = [10; 20]
  /\ select_user_balance 1
       (db (world_of (RunUpdateOrdersStatusJob both_processed []
                        (reliable two_pending_orders)))) = Some 120
  /\ select_user_balance 1
       (db (world_of (RunUpdateOrdersStatusJob both_processed [1%nat]
                        (reliable two_pending_orders)))) = Some 110
  /\ select_user_balance 1
       (db (world_of (CheckUpdateUserOrders both_processed [] 1
                        (reliable two_pending_orders)))) = Some 130.
Proof. repeat split; vm_compute; reflexivity. Qed.

(** C6: the sweeps store the status REGISTERED as it comes.  An order stored
    as NEW whose query is answered with status REGISTERED has the stored
    status REGISTERED after either sweep has committed; only
    [InputUserOrder] turns REGISTERED into NEW. *)
Theorem sweeps_store_registered :
  stored_status "79927398713" (one_order "NEW" None) = Some "NEW"
  /\ returned (RunUpdateOrdersStatusJob registered []
                 (reliable (one_order "NEW" None))) = Some None
  /\ stored_status "79927398713"
       (db (world_of (RunUpdateOrdersStatusJob registered []
                        (reliable (one_order "NEW" None)))))
     = Some "REGISTERED"
  /\ returned (CheckUpdateUserOrders registered [] 1
                 (reliable (one_order "NEW" None))) = Some None
  /\ stored_status "79927398713"
       (db (world_of (CheckUpdateUserOrders registered [] 1
                        (reliable (one_order "NEW" None)))))
     = Some "REGISTERED"
  /\ stored_status "12345678903"
       (db (world_of (InputUserOrder registered_with_accrual 1 "12345678903"
                        (reliable (one_order "PROCESSED" (Some 10))))))
     = Some "NEW".
Proof. repeat split; vm_compute; reflexivity. Qed.

(** C2 fails as stated: the only failing query of the batch returns
    "internal server error", yet the system-wide sweep returns
    [ErrAccessingDB], because the balance read made for the result received
    before it fails. *)
Lemma job_returns_another_error :
  let w := failing_at 1 two_pending_orders in
  let failing := {| uo_UserID := 1; uo_Number := "12345678903";
                    uo_Status := "PROCESSING"; uo_Accrual := None |} in
  In failing (select_processing_orders (db w))
  /\ snd (GetAccrualAPI second_fails failing)
     = Some (ErrAccrual "internal server error")
  /\ (forall task, In task (select_processing_orders (db w)) ->
                   task <> failing ->
                   snd (GetAccrualAPI second_fails task) = None)
  /\ returned (RunUpdateOrdersStatusJob second_fails [] w)
     = Some (Some ErrAccessingDB)
  /\ returned (RunUpdateOrdersStatusJob second_fails [] w)
     <> Some (Some (ErrAccrual "internal server error")).
Proof.
  cbv zeta. split; [right; left; reflexivity|]. split; [reflexivity|].
  split.
  - intros task [<-|[<-|[]]] Hne; [reflexivity|contradiction].
  - split; [vm_compute; reflexivity|vm_compute; discriminate].
Qed.

(** C4 fails as stated: an order stored as PROCESSING whose query is
    answered 429 is stored as NEW once the sweep has committed. *)
Lemma rate_limited_order_becomes_new :
  let w := reliable (one_order "PROCESSING" None) in
  rate_limited "79927398713" = Response StatusTooManyRequests empty_body
  /\ stored_status "79927398713" (db w) = Some "PROCESSING"
  /\ stored_status "79927398713"
       (db (world_of (RunUpdateOrdersStatusJob rate_limited [] w)))
     = Some "NEW"
  /\ stored_status "79927398713"
       (db (world_of (RunUpdateOrdersStatusJob rate_limited [] w)))
     <> stored_status "79927398713" (db w).
Proof. cbv zeta. repeat split; vm_compute; [reflexivity..|discriminate]. Qed.

(** C7 fails as stated: with no pending order the system-wide sweep still
    begins and commits a transaction, and the single-user sweep executes an
    UPDATE of the balance in its own. *)
Lemma empty_sweep_opens_a_transaction :
  let w := reliable (one_order "PROCESSED" (Some 10)) in
  select_processing_orders (db w) = []
  /\ select_user_processing_orders 1 (db w) = []
  /\ trace (world_of (RunUpdateOrdersStatusJob both_processed [] w))
     = [EvQuery QProcessingOrders; EvBegin; EvCommit]
  /\ trace (world_of (CheckUpdateUserOrders both_processed [] 1 w))
     = [EvQuery (QUserProcessingOrders 1); EvQuery (QUserBalance 1);
        EvBegin; EvExec (SUpdateBalance 100 1); EvCommit].
Proof. cbv zeta. repeat split; vm_compute; reflexivity. Qed.

(** C8 fails as stated: a withdrawal of more than the balance whose order
    number fails the Luhn check is refused with [ErrOrderNumber], not with
    [ErrNotEnoughFunds]. *)
Lemma withdrawal_refused_for_its_number :
  let w := reliable (one_order "PROCESSED" (Some 10)) in
  select_user_balance 1 (db w) = Some 100
  /\ 100 < 200
  /\ WithdrawalBonusForNewOrder 1 "1" 200 w = Ret (Some ErrOrderNumber) w
  /\ returned (WithdrawalBonusForNewOrder 1 "1" 200 w)
     <> Some (Some ErrNotEnoughFunds).
Proof.
  cbv zeta. split; [reflexivity|]. split; [lia|].
  split; [reflexivity|vm_compute; discriminate].
Qed.

(** ** The theorems at work on the concrete ledgers *)

Lemma withTransaction_all_or_nothing_witness :
  let w := reliable two_pending_orders in
  let txFunc := StoreUserOrder "79927398713" "NEW" 1 0 in
  next_fault w = None
  /\ db (world_of (txFunc (begun w))) = db w
  /\ returned (withTransaction txFunc w)
     = Some (Some (ErrDriver "duplicate key value violates unique constraint"))
  /\ db (world_of (withTransaction txFunc w)) = db w
  /\ open_tx (world_of (withTransaction txFunc w)) = None
  /\ trace (world_of (withTransaction txFunc w))
     = trace (world_of (txFunc (begun w))) ++ [EvRollback].
Proof.
  intros w txFunc. split; [reflexivity|]. split; [reflexivity|].
  pose proof (proj1 (withTransaction_all_or_nothing both_processed [] 1
                       txFunc w)) as H.
  apply (proj1 (H eq_refl eq_refl)). reflexivity.
Defined.

Lemma sweep_aborts_on_accrual_error_witness :
  let w := reliable two_pending_orders in
  let failing := {| uo_UserID := 1; uo_Number := "12345678903";
                    uo_Status := "PROCESSING"; uo_Accrual := None |} in
  next_fault w = None
  /\ In failing (select_processing_orders (db w))
  /\ snd (GetAccrualAPI second_fails failing)
     = Some (ErrAccrual "internal server error")
  /\ exists reads,
       RunUpdateOrdersStatusJob second_fails [] w =
         Ret (Some (ErrAccrual "internal server error"))
             (mkWorld (db w) (open_tx w) (trace w ++ reads) (faults w))
       /\ forallb is_read reads = true.
Proof.
  intros w failing. split; [reflexivity|].
  assert (Hin : In failing (select_processing_orders (db w)))
    by (right; left; reflexivity).
  split; [exact Hin|]. split; [reflexivity|].
  destruct (proj1 (sweep_aborts_on_accrual_error second_fails [] 1 w eq_refl)
              failing (ErrAccrual "internal server error") Hin eq_refl)
    as (err' & reads & Hrun & Hreads & _ & Hfirst).
  exists reads. split; [|exact Hreads].
  assert (Herr : Some (ErrAccrual "internal server error") = Some err').
  { apply Hfirst; [intros n; reflexivity|].
    intros task' r [<-|[<-|[]]] Hw _; vm_compute in Hw;
      [injection Hw as <-; vm_compute|]; discriminate. }
  injection Herr as <-. exact Hrun.
Defined.

Lemma retry_later_in_a_sweep_witness :
  let w := reliable (one_order "PROCESSING" (Some 10)) in
  let task := {| uo_UserID := 1; uo_Number := "79927398713";
                 uo_Status := "PROCESSING"; uo_Accrual := None |} in
  let after := db (world_of (RunUpdateOrdersStatusJob rate_limited [] w)) in
  rate_limited (uo_Number task) = Response StatusTooManyRequests empty_body
  /\ stored_accrual (uo_Number task) (db w) = Some (Some 10)
  /\ worker rate_limited task = Some (OnResultCh (retry_later task))
  /\ stored_status (uo_Number task) after = Some "NEW"
  /\ stored_accrual (uo_Number task) after = Some None.
Proof.
  intros w task after. split; [reflexivity|]. split; [reflexivity|].
  pose proof (retry_later_in_a_sweep rate_limited [] 1 w task
                StatusTooManyRequests empty_body eq_refl
                (or_introl eq_refl)) as (Hworker & _ & _ & Hstored).
  split; [exact Hworker|].
  destruct (proj1 (Hstored (fun _ => eq_refl) eq_refl)) as [Hstatus Haccrual].
  - left. reflexivity.
  - intros task' r [<-|[]] _ _. reflexivity.
  - reflexivity.
  - split; [exact Hstatus|]. apply Haccrual. discriminate.
Defined.

Lemma InputUserOrder_nil_accrual_panics_witness :
  let w := reliable (one_order "PROCESSED" (Some 10)) in
  isValidLuhn "12345678903" = true
  /\ select_order_owner "12345678903" (db w) = None
  /\ no_content "12345678903" = Response StatusNoContent empty_body
  /\ InputUserOrder no_content 1 "12345678903" w =
     Panic nil_dereference
       (mkWorld (db w) (open_tx w)
          (trace w ++ [EvQuery (QOrderOwner "12345678903");
                       EvHttpGet "12345678903";
                       EvQuery (QUserBalance 1)])
          (faults w)).
Proof.
  intros w. split; [reflexivity|]. split; [reflexivity|].
  split; [reflexivity|].
  apply (InputUserOrder_nil_accrual_panics no_content 1 "12345678903" w
           (retry_later (intake_order "12345678903")));
    [reflexivity|intros n; reflexivity|reflexivity|reflexivity|reflexivity].
Defined.

Lemma sweep_of_no_orders_witness :
  let w := reliable (one_order "PROCESSED" (Some 10)) in
  next_fault w = None
  /\ select_processing_orders (db w) = []
  /\ RunUpdateOrdersStatusJob both_processed [] w =
     Ret None
       (mkWorld (db w) None
          (trace w ++ [EvQuery QProcessingOrders; EvBegin; EvCommit])
          (faults w)).
Proof.
  intros w. split; [reflexivity|]. split; [reflexivity|].
  exact (proj1 (sweep_of_no_orders both_processed [] 1 w eq_refl) eq_refl).
Defined.

Lemma withdrawal_guard_witness :
  let w := reliable (one_order "PROCESSED" (Some 10)) in
  select_user_balance 1 (db w) = Some 100
  /\ 100 < 200
  /\ WithdrawalBonusForNewOrder 1 "79927398713" 200 w =
     Ret (Some ErrNotEnoughFunds) (logged (EvQuery (QUserBalance 1)) w).
Proof.
  intros w. split; [reflexivity|]. split; [lia|].
  apply (proj1 (withdrawal_guard 1 "79927398713" 200 w 100 eq_refl)). lia.
Defined.

Lemma isValidLuhn_checks_the_checksum_witness :
  digit_string "79927398713" = true
  /\ isValidLuhn "79927398713" = true
  /\ String.get 10 "79927398713" = Some "3"%char
  /\ isValidLuhn (replace_at 10 "0" "79927398713") = false.
Proof.
  split; [reflexivity|]. split; [reflexivity|]. split; [reflexivity|].
  apply (proj1 (proj2 (proj2 (isValidLuhn_checks_the_checksum "79927398713")))
           10%nat "3"%char "0"%char);
    [reflexivity|reflexivity|reflexivity|reflexivity|discriminate].
Defined.

Lemma isValidLuhn_accepts_non_digits_witness :
  let w := reliable (one_order "PROCESSED" (Some 10)) in
  no_digit "abc" = true
  /\ isValidLuhn "abc" = true
  /\ exists rest,
       trace (world_of (InputUserOrder no_content 1 "abc" w)) =
       trace w ++ EvQuery (QOrderOwner "abc") :: rest.
Proof.
  intros w. split; [reflexivity|].
  pose proof (isValidLuhn_accepts_non_digits "abc")
    as (_ & _ & _ & Hletters & Hreach).
  split; [exact (Hletters eq_refl)|].
  exact (proj1 (Hreach (Hletters eq_refl)) no_content 1%N w).
Defined.

(** ** Amounts that the DECIMAL(9, 2) columns store as they are *)

Lemma to_cents_whole cent k : 0 < cent -> to_cents cent (k * cent) = k.
Proof.
  intros Hcent. unfold to_cents.
  assert (Habs : Z.abs (k * cent) = Z.abs k * cent)
    by (rewrite Z.abs_mul, (Z.abs_eq cent); lia).
  rewrite Habs.
  assert (Hdiv : (2 * (Z.abs k * cent) + cent) / (2 * cent) = Z.abs k).
  { symmetry. apply (Z.div_unique_pos _ _ _ cent); lia. }
  rewrite Hdiv, Z.sgn_mul, (Z.sgn_pos cent), Z.mul_1_r by lia.
  destruct k; reflexivity.
Qed.

(** They are the whole numbers of cents below 10 000 000.00 in absolute
    value. *)
Lemma stored_as_it_is_iff cent amount :
  0 < cent ->
  stored_as_it_is cent amount
  <-> amount mod cent = 0 /\ Z.abs amount < 10 ^ 9 * cent.
Proof.
  intros Hcent. unfold stored_as_it_is, DECIMAL_9_2. cbv zeta. split.
  - destruct (Z.ltb_spec (Z.abs (to_cents cent amount)) (10 ^ 9))
      as [Hlt|]; [|discriminate].
    intros H. injection H as H. split.
    + rewrite <- H. apply Z_mod_mult.
    + rewrite <- H at 1. rewrite Z.abs_mul, (Z.abs_eq cent) by lia.
      apply Z.mul_lt_mono_pos_r; assumption.
  - intros [Hmod Hrange].
    assert (Hk : exists k, amount = k * cent).
    { exists (amount / cent).
      rewrite (Z.div_mod amount cent) at 1 by lia. lia. }
    destruct Hk as [k ->]. rewrite to_cents_whole by exact Hcent.
    destruct (Z.ltb_spec (Z.abs k) (10 ^ 9)) as [_|Hge]; [reflexivity|].
    exfalso. rewrite Z.abs_mul, (Z.abs_eq cent) in Hrange by lia.
    apply Z.mul_lt_mono_pos_r in Hrange; lia.
Qed.

(** An amount with a fraction of a cent is not among them: 0.005, counted
    in thousandths of a cent, is stored as 0.01. *)
Lemma DECIMAL_9_2_rounds :
  DECIMAL_9_2 1000 500 = Ok 1000 /\ DECIMAL_9_2 1000 9999500 = Ok 10000000
  /\ DECIMAL_9_2 1000 499 = Ok 0 /\ DECIMAL_9_2 1000 (-500) = Ok (-1000).
Proof. repeat split; reflexivity. Qed.

(** ** Order intake: what is stored, and what a second submission meets *)

Lemma exec_each_executable stmts : forall w d,
  no_faults w -> open_tx w = Some d -> executable stmts d = true ->
  exec_each stmts w =
  Ret None (mkWorld (db w) (Some (apply_stmts stmts d))
                    (trace w ++ map EvExec stmts) (faults w)).
Proof.
  induction stmts as [|s rest IH]; intros w d Hnf Ht Hexec.
  - destruct w; cbn in *. rewrite app_nil_r. subst. reflexivity.
  - cbn [executable] in Hexec. cbn [exec_each]. unfold bind at 1.
    rewrite tx_Exec_run. cbn zeta. rewrite Hnf, Ht.
    destruct (exec_stmt s d) as [d'|err] eqn:Hs; [|discriminate].
    rewrite (IH _ d'); [|exact Hnf|reflexivity|exact Hexec].
    cbn. unfold apply_stmt at 2. rewrite Hs, <- app_assoc. reflexivity.
Qed.

Lemma withTransaction_executable report stmts w :
  no_faults w -> executable stmts (db w) = true ->
  withTransaction (statements_body report stmts) w =
  Ret None (mkWorld (apply_stmts stmts (db w)) None
              (trace w ++ EvBegin :: map EvExec stmts ++ [EvCommit])
              (faults w)).
Proof.
  intros Hnf Hexec. rewrite withTransaction_run, Hnf.
  unfold statements_body, bind.
  rewrite (exec_each_executable stmts (begun w) (db w) Hnf eq_refl Hexec).
  cbn. unfold commit_result, mkWorld. cbn. rewrite Hnf.
  rewrite <- !app_assoc. reflexivity.
Qed.

Lemma select_order_owner_existsb n d :
  select_order_owner n d = None ->
  existsb (fun r => String.eqb (order_number r) n) (orders d) = false.
Proof.
  unfold select_order_owner.
  induction (orders d) as [|r rest IH]; [reflexivity|]. cbn.
  destruct (String.eqb (order_number r) n); [discriminate|exact IH].
Qed.

Lemma find_app_none {A} (p : A -> bool) l1 l2 :
  find p l1 = None -> find p (l1 ++ l2) = find p l2.
Proof.
  induction l1 as [|x l1 IH]; [reflexivity|]. cbn.
  destruct (p x); [discriminate|exact IH].
Qed.


Lemma InputUserOrder_accepted accrual userID orderNumber w responseData a :
  isValidLuhn orderNumber = true ->
  no_faults w ->
  select_order_owner orderNumber (db w) = None ->
  GetAccrualAPI accrual (intake_order orderNumber) = (responseData, None) ->
  Accrual responseData = Some a ->
  let stmts :=
    [SInsertOrder orderNumber userID a (normalized (Status responseData));
     SUpdateBalance (default 0 (select_user_balance userID (db w)) + a)
                    userID] in
  InputUserOrder accrual userID orderNumber w =
  Ret None
    (mkWorld (apply_stmts stmts (db w)) None
       (trace w ++ [EvQuery (QOrderOwner orderNumber);
                    EvHttpGet orderNumber;
                    EvQuery (QUserBalance userID)]
                ++ EvBegin :: map EvExec stmts ++ [EvCommit])
       (faults w)).
Proof.
  intros Hvalid Hnf Hnew Hanswer Hacc stmts.
  rewrite InputUserOrder_run, Hvalid. lazy zeta.
  rewrite (no_faults_next w Hnf), Hnew, Hanswer.
  rewrite (no_faults_next (logged _ (logged _ w)) Hnf), Hacc.
  rewrite withTransaction_executable; [|exact Hnf|].
  - unfold logged, mkWorld. cbn [db open_tx trace faults].
    rewrite <- !app_assoc. reflexivity.
  - cbn [executable exec_stmt logged mkWorld db].
    rewrite (select_order_owner_existsb _ _ Hnew). reflexivity.
Qed.

Lemma apply_insert_order n u a status d :
  select_order_owner n d = None ->
  apply_stmt (SInsertOrder n u a status) d =
  {| orders := orders d ++ [{| order_number := n; order_uuid := u;
                              order_accrual := Some a;
                              order_status := status |}];
     balance := balance d; withdrawals := withdrawals d |}.
Proof.
  intros Hnew. unfold apply_stmt. cbn [exec_stmt].
  rewrite (select_order_owner_existsb _ _ Hnew). reflexivity.
Qed.

Lemma select_order_owner_inserted n u a status d :
  select_order_owner n d = None ->
  select_order_owner n (apply_stmt (SInsertOrder n u a status) d) = Some u.
Proof.
  intros Hnew. rewrite apply_insert_order by exact Hnew.
  unfold select_order_owner in *. cbn [orders].
  destruct (find _ (orders d)) eqn:Hfind; [discriminate|].
  rewrite (find_app_none _ _ _ Hfind). cbn [find order_number].
  rewrite String.eqb_refl. reflexivity.
Qed.

Lemma select_order_owner_orders n d1 d2 :
  orders d1 = orders d2 -> select_order_owner n d1 = select_order_owner n d2.
Proof. unfold select_order_owner. now intros ->. Qed.


(** X2: once an order is stored, submitting its number again is refused
    after the owner lookup alone, with no request to the accrual service and
    no write: [ErrUserOrderExists] for the owner, [ErrAnotherUserOrderExists]
    for anybody else.  This is what a second submission meets after a first
    one has been accepted. *)
Theorem InputUserOrder_twice (accrual accrual' : AccrualService)
    (userID submitter : UUID) (orderNumber : string) (w : World)
    (responseData : AccrualResponseData) (a : Decimal) :
  isValidLuhn orderNumber = true ->
  no_faults w ->
  select_order_owner orderNumber (db w) = None ->
  GetAccrualAPI accrual (intake_order orderNumber) = (responseData, None) ->
  Accrual responseData = Some a ->
  let w' := world_of (InputUserOrder accrual userID orderNumber w) in
  InputUserOrder accrual' submitter orderNumber w' =
  Ret (Some (if N.eqb userID submitter then ErrUserOrderExists
             else ErrAnotherUserOrderExists))
      (logged (EvQuery (QOrderOwner orderNumber)) w').
Proof.
  intros Hvalid Hnf Hnew Hanswer Hacc w'.
  pose proof (InputUserOrder_accepted accrual userID orderNumber w
                responseData a Hvalid Hnf Hnew Hanswer Hacc) as Hrun.
  cbv zeta in Hrun.
  assert (Hnf' : no_faults w') by (subst w'; rewrite Hrun; exact Hnf).
  assert (Howner : select_order_owner orderNumber (db w') = Some userID).
  { subst w'. rewrite Hrun. cbn [world_of mkWorld db apply_stmts fold_left].
    erewrite select_order_owner_orders;
      [apply select_order_owner_inserted; exact Hnew|reflexivity]. }
  rewrite InputUserOrder_run, Hvalid. lazy zeta.
  rewrite (no_faults_next w' Hnf'), Howner. reflexivity.
Qed.

(** ** Intake when the accrual query fails *)

(** X3: when the query made for a new order number fails, [InputUserOrder]
    returns the very error of the query and stops there: besides the owner
    lookup and the request itself there is no I/O, no transaction is begun
    and the stored data are those of before.  The query fails exactly when
    the request fails, on status 500, and on an unreadable or malformed body
    under a status other than 429 and 204. *)
Theorem InputUserOrder_query_fails (accrual : AccrualService) (userID : UUID)
    (orderNumber : string) (w : World) (err : error) :
  isValidLuhn orderNumber = true ->
  next_fault w = None ->
  select_order_owner orderNumber (db w) = None ->
  snd (GetAccrualAPI accrual (intake_order orderNumber)) = Some err ->
  InputUserOrder accrual userID orderNumber w =
  Ret (Some err)
      (mkWorld (db w) (open_tx w)
         (trace w ++ [EvQuery (QOrderOwner orderNumber);
                      EvHttpGet orderNumber])
         (faults w))
  /\ (forall service order,
        (exists e, snd (GetAccrualAPI service order) = Some e)
        <-> match service (uo_Number order) with
            | RequestFailed _ => true
            | Response StatusCode body =>
                negb ((StatusCode =? StatusTooManyRequests)
                      || (StatusCode =? StatusNoContent))
                && ((StatusCode =? StatusInternalServerError)
                    || negb (parsed body))
            end = true).
Proof.
  intros Hvalid Hread Hnew Hfails. split.
  - rewrite InputUserOrder_run, Hvalid. lazy zeta. rewrite Hread, Hnew.
    destruct (GetAccrualAPI accrual (intake_order orderNumber))
      as [responseData failed].
    cbn [snd] in Hfails. subst failed.
    unfold logged, mkWorld. cbn [db open_tx trace faults].
    rewrite <- app_assoc. reflexivity.
  - intros service order. unfold GetAccrualAPI.
    destruct (service (uo_Number order)) as [message|code body].
    { cbn [snd]. split; [reflexivity|eauto]. }
    destruct ((code =? StatusTooManyRequests) || (code =? StatusNoContent));
      cbn [negb andb snd].
    { split; [intros [e He]; discriminate He|discriminate]. }
    destruct (code =? StatusInternalServerError); cbn [orb snd].
    { split; [reflexivity|eauto]. }
    destruct body; cbn [parsed negb snd];
      (split; [try reflexivity; intros [e He]; discriminate He
              |try discriminate; eauto]).
Qed.

(** ** What no service does to the tables *)

Lemma apply_stmt_order_numbers s d :
  NoDup (order_numbers d) -> NoDup (order_numbers (apply_stmt s d)).
Proof.
  unfold apply_stmt, order_numbers. intros Hd.
  destruct s as [n u b st|st acc n|u n sum|b u]; cbn [exec_stmt].
  - destruct (existsb _ (orders d)) eqn:Hex; [exact Hd|]. cbn [orders].
    rewrite map_app. cbn [map order_number].
    apply NoDup_app. split; [exact Hd|]. split; [|apply NoDup_singleton].
    intros x Hx Hx'. apply list_elem_of_singleton in Hx'. subst x.
    apply list_elem_of_In, in_map_iff in Hx as (r & Hr & Hin).
    assert (existsb (fun r => String.eqb (order_number r) n) (orders d) = true);
      [|congruence].
    apply existsb_exists. exists r. split; [exact Hin|].
    rewrite Hr. apply String.eqb_refl.
  - cbn [orders]. rewrite map_map.
    erewrite map_ext; [exact Hd|]. intros r. cbn.
    destruct (String.eqb (order_number r) n); reflexivity.
  - exact Hd.
  - exact Hd.
Qed.

Lemma apply_stmts_order_numbers stmts : forall d,
  NoDup (order_numbers d) -> NoDup (order_numbers (apply_stmts stmts d)).
Proof.
  induction stmts as [|s rest IH]; intros d Hd; [exact Hd|].
  cbn. apply IH, apply_stmt_order_numbers, Hd.
Qed.

Lemma same_rows_refl d : same_rows d d.
Proof. repeat split. Qed.

Lemma same_rows_trans d1 d2 d3 :
  same_rows d1 d2 -> same_rows d2 d3 -> same_rows d1 d3.
Proof.
  intros (H1 & H2 & H3 & H4) (K1 & K2 & K3 & K4).
  repeat split; congruence.
Qed.

Lemma apply_update_same_rows s d :
  is_update s = true -> same_rows d (apply_stmt s d).
Proof.
  destruct s as [n u b st|st acc n|u n sum|b u]; try discriminate; intros _;
    unfold apply_stmt, same_rows; cbn [exec_stmt orders balance withdrawals];
    rewrite ?map_map; repeat split; apply map_ext; intros r; cbn;
    match goal with |- context [if ?c then _ else _] => destruct c end;
    reflexivity.
Qed.

Lemma apply_updates_same_rows stmts : forall d,
  forallb is_update stmts = true -> same_rows d (apply_stmts stmts d).
Proof.
  induction stmts as [|s rest IH]; intros d Hup; [apply same_rows_refl|].
  cbn in Hup. apply andb_true_iff in Hup as [Hs Hrest].
  apply (same_rows_trans _ (apply_stmt s d)).
  - apply apply_update_same_rows, Hs.
  - apply IH, Hrest.
Qed.

Lemma RunUpdateOrdersStatusJob_statements accrual picks w :
  exists stmts,
    forallb is_update stmts = true
    /\ db (world_of (RunUpdateOrdersStatusJob accrual picks w))
       = apply_stmts stmts (db w).
Proof.
  destruct (RunUpdateOrdersStatusJob_atomic accrual picks w)
    as [Hsame|(reads & m & L & _ & _ & Hdb)]; cbv zeta in *.
  - exists []. split; [reflexivity|exact Hsame].
  - eexists. split; [|exact Hdb].
    rewrite forallb_app, forallb_update_balance_stmts,
      forallb_update_order_stmts. reflexivity.
Qed.

Lemma CheckUpdateUserOrders_statements accrual picks userID w :
  exists stmts,
    forallb is_update stmts = true
    /\ db (world_of (CheckUpdateUserOrders accrual picks userID w))
       = apply_stmts stmts (db w).
Proof.
  destruct (CheckUpdateUserOrders_atomic accrual picks userID w)
    as [Hsame|(reads & nb & L & _ & _ & Hdb)]; cbv zeta in *.
  - exists []. split; [reflexivity|exact Hsame].
  - eexists. split; [|exact Hdb].
    cbn [forallb is_update]. apply forallb_update_order_stmts.
Qed.

Lemma InputUserOrder_statements accrual userID orderNumber w :
  exists stmts,
    db (world_of (InputUserOrder accrual userID orderNumber w))
    = apply_stmts stmts (db w).
Proof.
  rewrite InputUserOrder_run. lazy zeta.
  destruct (isValidLuhn orderNumber); [|exists []; reflexivity].
  destruct (next_fault w); [exists []; reflexivity|].
  destruct (select_order_owner orderNumber (db w)); [exists []; reflexivity|].
  destruct (GetAccrualAPI accrual (intake_order orderNumber)) as [data [e|]];
    [exists []; reflexivity|].
  destruct (next_fault _); [exists []; reflexivity|].
  destruct (Accrual data) as [a|]; [|exists []; reflexivity].
  match goal with |- context [withTransaction (statements_body ?f ?s) ?w0] =>
    destruct (withTransaction_statements f s w0)
      as (r & d & t & evs & -> & [->|(_ & -> & _)])
  end; [exists []; reflexivity|].
  eexists. reflexivity.
Qed.

Lemma WithdrawalBonusForNewOrder_statements userID orderNumber sum w :
  exists stmts,
    db (world_of (WithdrawalBonusForNewOrder userID orderNumber sum w))
    = apply_stmts stmts (db w).
Proof.
  rewrite WithdrawalBonusForNewOrder_run. lazy zeta.
  destruct (isValidLuhn orderNumber); [|exists []; reflexivity].
  destruct (next_fault w); [exists []; reflexivity|].
  destruct (select_user_balance userID (db w)) as [b|];
    [|exists []; reflexivity].
  destruct (b <? sum); [exists []; reflexivity|].
  match goal with |- context [withTransaction (statements_body ?f ?s) ?w0] =>
    destruct (withTransaction_statements f s w0)
      as (r & d & t & evs & -> & [->|(_ & -> & _)])
  end; [exists []; reflexivity|].
  eexists. reflexivity.
Qed.

(** X4: a sweep only updates.  Whatever the answers, the order of arrival
    and the failures of the driver, after [RunUpdateOrdersStatusJob] or
    [CheckUpdateUserOrders] the orders table has the same rows with the same
    numbers and owners, the balance table has the same users, and the
    withdrawals are untouched: no sweep adds or removes an order, moves it
    to another user, or creates a balance. *)
Theorem sweeps_only_update (accrual : AccrualService) (picks : list nat)
    (userID : UUID) (w : World) :
  same_rows (db w) (db (world_of (RunUpdateOrdersStatusJob accrual picks w)))
  /\ same_rows (db w)
       (db (world_of (CheckUpdateUserOrders accrual picks userID w))).
Proof.
  split.
  - destruct (RunUpdateOrdersStatusJob_statements accrual picks w)
      as (stmts & Hup & ->).
    apply apply_updates_same_rows, Hup.
  - destruct (CheckUpdateUserOrders_statements accrual picks userID w)
      as (stmts & Hup & ->).
    apply apply_updates_same_rows, Hup.
Qed.

(** X5: the order numbers stay unique.  If no two stored orders share a
    number, that is still so after an intake, a sweep or a withdrawal,
    however it ends (nil, an error or a panic) and whatever fails on the
    way. *)
Theorem order_numbers_stay_unique (accrual : AccrualService)
    (picks : list nat) (userID : UUID) (orderNumber : string)
    (sum : Decimal) (w : World) :
  NoDup (order_numbers (db w)) ->
  NoDup (order_numbers
           (db (world_of (InputUserOrder accrual userID orderNumber w))))
  /\ NoDup (order_numbers
              (db (world_of (RunUpdateOrdersStatusJob accrual picks w))))
  /\ NoDup (order_numbers
              (db (world_of (CheckUpdateUserOrders accrual picks userID w))))
  /\ NoDup (order_numbers
              (db (world_of
                     (WithdrawalBonusForNewOrder userID orderNumber sum w)))).
Proof.
  intros Hd. split; [|split; [|split]].
  - destruct (InputUserOrder_statements accrual userID orderNumber w)
      as [stmts ->].
    apply apply_stmts_order_numbers, Hd.
  - destruct (RunUpdateOrdersStatusJob_statements accrual picks w)
      as (stmts & _ & ->).
    apply apply_stmts_order_numbers, Hd.
  - destruct (CheckUpdateUserOrders_statements accrual picks userID w)
      as (stmts & _ & ->).
    apply apply_stmts_order_numbers, Hd.
  - destruct (WithdrawalBonusForNewOrder_statements userID orderNumber sum w)
      as [stmts ->].
    apply apply_stmts_order_numbers, Hd.
Qed.

(** ** Withdrawals that go through *)


(** X7: the error of [tx.Commit] does not reach the caller.  When the
    driver fails the commit of a withdrawal that went well up to there, the
    service still returns nil, and nothing of it is stored: the deferred
    function assigns the error to a variable that has already been
    returned. *)
Theorem withdrawal_commit_failure_is_silent (userID : UUID)
    (orderNumber : string) (sum : Decimal) (w : World)
    (userBalance : Decimal) (message : string) :
  isValidLuhn orderNumber = true ->
  select_user_balance userID (db w) = Some userBalance ->
  sum <= userBalance ->
  (forall k, (k < 4)%nat -> faults w (length (trace w) + k) = None) ->
  faults w (length (trace w) + 4) = Some message ->
  let res := WithdrawalBonusForNewOrder userID orderNumber sum w in
  returned res = Some None
  /\ db (world_of res) = db w
  /\ open_tx (world_of res) = None
  /\ trace (world_of res) =
     trace w ++ [EvQuery (QUserBalance userID); EvBegin;
                 EvExec (SInsertWithdrawal userID orderNumber sum);
                 EvExec (SUpdateBalance (userBalance - sum) userID);
                 EvCommit].
Proof.
  intros Hvalid Hb Hle Hok Hcommit res. subst res.
  assert (H0 : faults w (length (trace w)) = None)
    by (rewrite <- (Nat.add_0_r (length (trace w))); apply Hok; lia).
  pose proof (Hok 1%nat ltac:(lia)) as H1.
  pose proof (Hok 2%nat ltac:(lia)) as H2.
  pose proof (Hok 3%nat ltac:(lia)) as H3.
  rewrite WithdrawalBonusForNewOrder_run, Hvalid. lazy zeta.
  unfold next_fault. rewrite H0, Hb. cbn [fmap option_fmap option_map].
  destruct (Z.ltb_spec userBalance sum) as [Hlt|_]; [lia|].
  rewrite withTransaction_run.
  cbn [logged mkWorld trace faults db open_tx].
  replace (length (trace w ++ [EvQuery (QUserBalance userID)]))
    with (length (trace w) + 1)%nat by (rewrite length_app; reflexivity).
  rewrite H1. unfold statements_body, bind. cbn [exec_each]. unfold bind.
  rewrite tx_Exec_run. cbn zeta.
  cbn [begun logged mkWorld trace faults db open_tx].
  replace (length ((trace w ++ [EvQuery (QUserBalance userID)]) ++ [EvBegin]))
    with (length (trace w) + 2)%nat
    by (rewrite !length_app; cbn [length]; lia).
  rewrite H2. cbn [exec_stmt]. rewrite tx_Exec_run. cbn zeta.
  cbn [mkWorld trace faults db open_tx].
  match goal with |- context [faults w (length ?l)] =>
    replace (length l) with (length (trace w) + 3)%nat
      by (rewrite !length_app; cbn [length]; lia)
  end.
  rewrite H3. cbn [exec_stmt ret fmap option_fmap option_map].
  unfold commit_result. cbn [mkWorld trace faults db open_tx].
  match goal with |- context [faults w (length ?l)] =>
    replace (length l) with (length (trace w) + 4)%nat
      by (rewrite !length_app; cbn [length]; lia)
  end.
  rewrite Hcommit.
  cbn [returned world_of mkWorld db open_tx trace]. rewrite <- !app_assoc.
  repeat split.
Qed.

(** ** Sweeps in which no status has changed *)

Lemma worker_silent service task :
  worker service task = None
  <-> snd (GetAccrualAPI service task) = None
      /\ Status (fst (GetAccrualAPI service task)) = uo_Status task.
Proof.
  unfold worker. destruct (GetAccrualAPI service task) as [data [e|]]; cbn.
  - split; [discriminate|intros [? _]; discriminate].
  - destruct (String.eqb_spec (uo_Status task) (Status data)) as [Heq|Hne];
      cbn; split; try discriminate; auto.
    intros [_ H]. congruence.
Qed.

Lemma startWorkers_silent service picks tasks :
  (forall task, In task tasks -> worker service task = None) ->
  startWorkers service numOfWorkers picks tasks = [].
Proof.
  intros Hall. destruct (startWorkers _ _ _ _) as [|s rest] eqn:Hsent;
    [reflexivity|].
  assert (Hin : In s (startWorkers service numOfWorkers picks tasks))
    by (rewrite Hsent; now left).
  apply In_startWorkers in Hin as (task & Hin & Hw).
  rewrite (Hall task Hin) in Hw. discriminate.
Qed.

Lemma job_of_nothing_sent accrual picks w :
  next_fault w = None ->
  startWorkers accrual numOfWorkers picks (select_processing_orders (db w))
  = [] ->
  RunUpdateOrdersStatusJob accrual picks w =
  match next_fault (logged (EvQuery QProcessingOrders) w) with
  | Some err => Ret (Some err) (logged EvBegin (logged (EvQuery QProcessingOrders) w))
  | None =>
      Ret None
        (mkWorld (db w) None
           (trace w ++ [EvQuery QProcessingOrders; EvBegin; EvCommit])
           (faults w))
  end.
Proof.
  intros Hread Hsent.
  rewrite RunUpdateOrdersStatusJob_run, Hread, Hsent.
  cbn [job_loop ret]. rewrite map_to_list_empty. cbn [map app].
  rewrite withTransaction_run. unfold next_fault.
  destruct (faults (logged (EvQuery QProcessingOrders) w) _) eqn:Hf;
    cbn [fmap option_fmap option_map]; [reflexivity|].
  cbn. unfold commit_result, mkWorld. cbn.
  rewrite <- !app_assoc. cbn [app].
  match goal with |- context [faults w ?n] => destruct (faults w n) end;
    reflexivity.
Qed.

Lemma user_sweep_of_nothing_sent accrual picks userID w :
  next_fault w = None ->
  startWorkers accrual numOfWorkers picks
    (select_user_processing_orders userID (db w)) = [] ->
  let res := CheckUpdateUserOrders accrual picks userID w in
  (forall userBalance,
     no_faults w ->
     select_user_balance userID (db w) = Some userBalance ->
     res =
     Ret None
       (mkWorld (apply_stmt (SUpdateBalance userBalance userID) (db w))
          None
          (trace w ++ [EvQuery (QUserProcessingOrders userID);
                       EvQuery (QUserBalance userID);
                       EvBegin;
                       EvExec (SUpdateBalance userBalance userID);
                       EvCommit])
          (faults w)))
  /\ orders (db (world_of res)) = orders (db w)
  /\ withdrawals (db (world_of res)) = withdrawals (db w)
  /\ forall u, select_user_balance u (db (world_of res))
               = select_user_balance u (db w).
Proof.
  intros Hread Hsent res. subst res. split.
  - intros b Hnf Hb. rewrite CheckUpdateUserOrders_run. lazy zeta.
    rewrite Hread, Hsent.
    cbn [first_error omap list_omap head map total foldr results_of].
    rewrite (no_faults_next (logged _ w) Hnf), Hb, Z.add_0_r.
    rewrite withTransaction_updates; [|exact Hnf|reflexivity].
    cbn. rewrite <- !app_assoc. reflexivity.
  - rewrite CheckUpdateUserOrders_run. lazy zeta. rewrite Hread, Hsent.
    cbn [first_error omap list_omap head map total foldr results_of].
    destruct (next_fault (logged _ w)); [cbn; auto|].
    destruct (select_user_balance userID (db w)) as [b|] eqn:Hb;
      [|cbn; auto].
    rewrite Z.add_0_r.
    destruct (withTransaction_statements as_ErrAccessingDB
                [SUpdateBalance b userID]
                (logged (EvQuery (QUserBalance userID))
                   (logged (EvQuery (QUserProcessingOrders userID)) w)))
      as (r & d & t & evs & Hrun & Hcases).
    rewrite Hrun. cbn [world_of db mkWorld].
    destruct Hcases as [->|(_ & -> & _)]; [cbn; auto|].
    cbn [apply_stmts fold_left logged mkWorld db].
    split; [reflexivity|]. split; [reflexivity|].
    intros u. rewrite select_user_balance_update.
    destruct (N.eqb_spec u userID) as [->|]; [|reflexivity].
    rewrite Hb. reflexivity.
Qed.

(** X8: a sweep in which no status has changed writes nothing new.  When
    every pending order of the batch is answered without an error and with
    the status it is stored with (an accrual in the answer makes no
    difference), no worker sends anything; [RunUpdateOrdersStatusJob] then
    commits a transaction without a statement, [CheckUpdateUserOrders]
    writes the user's balance back as it is, and every stored order, balance
    and withdrawal reads as before. *)
Theorem sweep_with_nothing_new (accrual : AccrualService) (picks : list nat)
    (userID : UUID) (w : World) :
  next_fault w = None ->
  ((forall task,
      In task (select_processing_orders (db w)) ->
      snd (GetAccrualAPI accrual task) = None
      /\ Status (fst (GetAccrualAPI accrual task)) = uo_Status task) ->
   let res := RunUpdateOrdersStatusJob accrual picks w in
   db (world_of res) = db w
   /\ (next_fault (logged (EvQuery QProcessingOrders) w) = None ->
       returned res = Some None
       /\ trace (world_of res) =
          trace w ++ [EvQuery QProcessingOrders; EvBegin; EvCommit]))
  /\ ((forall task,
         In task (select_user_processing_orders userID (db w)) ->
         snd (GetAccrualAPI accrual task) = None
         /\ Status (fst (GetAccrualAPI accrual task)) = uo_Status task) ->
      let res := CheckUpdateUserOrders accrual picks userID w in
      orders (db (world_of res)) = orders (db w)
      /\ withdrawals (db (world_of res)) = withdrawals (db w)
      /\ (forall u, select_user_balance u (db (world_of res))
                    = select_user_balance u (db w))
      /\ (forall userBalance,
            no_faults w ->
            select_user_balance userID (db w) = Some userBalance ->
            returned res = Some None
            /\ trace (world_of res) =
               trace w ++ [EvQuery (QUserProcessingOrders userID);
                           EvQuery (QUserBalance userID);
                           EvBegin;
                           EvExec (SUpdateBalance userBalance userID);
                           EvCommit])).
Proof.
  intros Hread. split; intros Hsame res; subst res.
  - rewrite (job_of_nothing_sent accrual picks w Hread).
    + destruct (next_fault (logged _ w)); [split; [reflexivity|discriminate]|].
      split; [reflexivity|]. intros _. split; reflexivity.
    + apply startWorkers_silent. intros task Hin.
      apply worker_silent, Hsame, Hin.
  - assert (Hsent : startWorkers accrual numOfWorkers picks
                      (select_user_processing_orders userID (db w)) = []).
    { apply startWorkers_silent. intros task Hin.
      apply worker_silent, Hsame, Hin. }
    destruct (user_sweep_of_nothing_sent accrual picks userID w Hread Hsent)
      as (Hexact & Ho & Hw & Hb).
    split; [exact Ho|]. split; [exact Hw|]. split; [exact Hb|].
    intros b Hnf Hbal. rewrite (Hexact b Hnf Hbal). split; reflexivity.
Qed.

(** ** The balances after the system-wide sweep *)

Lemma job_loop_balances sent :
  forall ordersToUpdate usersBalanceToUpdate w collected usersBalance w',
    job_loop sent ordersToUpdate usersBalanceToUpdate w
    = Ret (inr (collected, usersBalance)) w' ->
    forall u,
      usersBalance !! u =
      match last_credit u sent with
      | Some a => (fun b => b + a) <$> select_user_balance u (db w)
      | None => usersBalanceToUpdate !! u
      end.
Proof.
  induction sent as [|[r|e] rest IH]; intros L m w L' m' w' Hrun u.
  - cbn in Hrun. injection Hrun as _ <- _. reflexivity.
  - cbn [job_loop] in Hrun. cbn [last_credit credit_to].
    destruct (Accrual r) as [a|] eqn:Ha.
    + unfold bind in Hrun. rewrite GetUserBalance_run in Hrun.
      destruct (next_fault w); [discriminate|].
      destruct (select_user_balance (UserID r) (db w)) as [b|] eqn:Hb;
        [|discriminate].
      cbn beta iota in Hrun. rewrite (IH _ _ _ _ _ _ Hrun u).
      cbn [logged mkWorld db].
      destruct (last_credit u rest); [reflexivity|].
      destruct (N.eqb_spec (UserID r) u) as [<-|Hne].
      * rewrite lookup_insert_eq, Hb. reflexivity.
      * rewrite lookup_insert_ne by exact Hne. reflexivity.
    + rewrite (IH _ _ _ _ _ _ Hrun u).
      destruct (last_credit u rest); [reflexivity|].
      destruct (N.eqb (UserID r) u); reflexivity.
  - discriminate.
Qed.

Lemma apply_stmts_cons s stmts d :
  apply_stmts (s :: stmts) d = apply_stmts stmts (apply_stmt s d).
Proof. reflexivity. Qed.

Lemma select_balance_untouched entries : forall d u,
  u ∉ entries.*1 ->
  select_user_balance u (apply_stmts (map balance_stmt entries) d)
  = select_user_balance u d.
Proof.
  induction entries as [|[u1 b1] rest IH]; intros d u Hnot; [reflexivity|].
  change (map balance_stmt ((u1, b1) :: rest))
    with (SUpdateBalance b1 u1 :: map balance_stmt rest).
  rewrite apply_stmts_cons.
  rewrite IH by (intros H; apply Hnot; right; exact H).
  rewrite select_user_balance_update.
  destruct (N.eqb_spec u u1) as [->|]; [|reflexivity].
  exfalso. apply Hnot. left.
Qed.

Lemma select_balance_entry entries : forall d u newBalance,
  NoDup entries.*1 -> (u, newBalance) ∈ entries ->
  select_user_balance u (apply_stmts (map balance_stmt entries) d)
  = (fun _ => newBalance) <$> select_user_balance u d.
Proof.
  induction entries as [|[u1 b1] rest IH]; intros d u nb Hnd Hin.
  - inversion Hin.
  - cbn [fmap list_fmap fst] in Hnd. apply NoDup_cons in Hnd as [Hfresh Hnd].
    change (map balance_stmt ((u1, b1) :: rest))
      with (SUpdateBalance b1 u1 :: map balance_stmt rest).
    rewrite apply_stmts_cons.
    apply elem_of_cons in Hin as [Heq|Hin].
    + injection Heq as -> ->.
      rewrite select_balance_untouched by exact Hfresh.
      rewrite select_user_balance_update, N.eqb_refl. reflexivity.
    + rewrite (IH _ u nb Hnd Hin), select_user_balance_update.
      destruct (N.eqb_spec u u1) as [->|]; [|reflexivity].
      exfalso. apply Hfresh.
      apply list_elem_of_fmap. exists (u1, nb). split; [reflexivity|exact Hin].
Qed.

Lemma select_balance_map (m : gmap UUID Decimal) d u entry :
  m !! u = entry ->
  select_user_balance u (apply_stmts (map balance_stmt (map_to_list m)) d)
  = match entry with
    | Some newBalance => (fun _ => newBalance) <$> select_user_balance u d
    | None => select_user_balance u d
    end.
Proof.
  intros Hm. destruct entry as [nb|].
  - apply select_balance_entry; [apply NoDup_fst_map_to_list|].
    apply elem_of_map_to_list, Hm.
  - apply select_balance_untouched. intros Hin.
    apply list_elem_of_fmap in Hin as ([u' b] & -> & Hin).
    apply elem_of_map_to_list in Hin. cbn in Hm. congruence.
Qed.

Lemma last_credit_none u sent :
  omap (credit_to u) sent = [] -> last_credit u sent = None.
Proof.
  induction sent as [|s rest IH]; [reflexivity|]. cbn [omap list_omap].
  destruct (credit_to u s) eqn:Hs; [discriminate|].
  intros H. cbn [last_credit]. fold (omap (credit_to u) rest) in H.
  rewrite (IH H). exact Hs.
Qed.

Lemma last_credit_total u sent :
  (length (omap (credit_to u) sent) <= 1)%nat ->
  default 0 (last_credit u sent) = total (omap (credit_to u) sent).
Proof.
  induction sent as [|s rest IH]; [reflexivity|]. cbn [omap list_omap].
  fold (omap (credit_to u) rest).
  destruct (credit_to u s) as [a|] eqn:Hs; cbn [length last_credit].
  - intros Hlen.
    assert (Hrest : omap (credit_to u) rest = [])
      by (destruct (omap (credit_to u) rest); [reflexivity|cbn in Hlen; lia]).
    rewrite (last_credit_none u rest Hrest), Hs, Hrest. cbn. lia.
  - intros Hlen. rewrite <- (IH Hlen).
    destruct (last_credit u rest); [reflexivity|]. rewrite Hs. reflexivity.
Qed.

(** X9: what the system-wide sweep credits.  After a sweep that ran without
    a driver failure and returned nil, the balance of a user is the balance
    stored before plus the accrual of the last result received for that
    user that carried one, and the balance stored before when there was
    none: among several accruals for one user only the last one counts.
    Hence, for a user to whom at most one pending order brings an accrual,
    the balance grows by exactly what the batch brings, whatever the order
    of arrival.  This is so when every amount that the sweep writes, accrual
    or balance, is one that the DECIMAL(9, 2) columns store as it is. *)
Theorem job_credits_the_last_accrual (accrual : AccrualService)
    (picks : list nat) (w : World) (u : UUID) (userBalance : Decimal)
    (cent : Z) :
  no_faults w ->
  returned (RunUpdateOrdersStatusJob accrual picks w) = Some None ->
  select_user_balance u (db w) = Some userBalance ->
  0 < cent ->
  written_as_sent cent (RunUpdateOrdersStatusJob accrual picks w) ->
  let after :=
    select_user_balance u
      (db (world_of (RunUpdateOrdersStatusJob accrual picks w))) in
  after
  = Some (userBalance
          + default 0
              (last_credit u
                 (startWorkers accrual numOfWorkers picks
                    (select_processing_orders (db w)))))
  /\ ((length (credits_to u accrual (select_processing_orders (db w))) <= 1)%nat
      -> after
         = Some (userBalance
                 + total (credits_to u accrual
                            (select_processing_orders (db w))))).
Proof.
  intros Hnf Hdone Hb _ _ after.
  assert (Hafter : after
    = Some (userBalance
            + default 0
                (last_credit u
                   (startWorkers accrual numOfWorkers picks
                      (select_processing_orders (db w)))))).
  { subst after. revert Hdone.
    rewrite RunUpdateOrdersStatusJob_run, (no_faults_next w Hnf).
    destruct (job_loop_run
                (startWorkers accrual numOfWorkers picks
                   (select_processing_orders (db w))) [] ∅
                (logged (EvQuery QProcessingOrders) w))
      as (r & evs & Hrun & _ & _).
    rewrite Hrun. destruct r as [err|[L m]]; [discriminate|]. intros _.
    pose proof (job_loop_balances _ _ _ _ _ _ _ Hrun u) as Hm.
    cbn [logged mkWorld db] in Hm. rewrite lookup_empty in Hm.
    rewrite withTransaction_updates; [|exact Hnf|].
    2:{ rewrite forallb_app, forallb_update_balance_stmts,
          forallb_update_order_stmts. reflexivity. }
    cbn [world_of mkWorld db logged]. rewrite apply_stmts_app.
    rewrite (select_user_balance_balance _ _ _ (order_stmts_balance _ _)).
    rewrite (select_balance_map _ _ _ _ Hm), Hb.
    destruct (last_credit u _); cbn; [reflexivity|].
    rewrite Z.add_0_r. reflexivity. }
  split; [exact Hafter|]. intros Hone. rewrite Hafter. do 2 f_equal.
  assert (Hperm : omap (credit_to u)
                    (startWorkers accrual numOfWorkers picks
                       (select_processing_orders (db w)))
                  ≡ₚ credits_to u accrual (select_processing_orders (db w))).
  { unfold credits_to. apply omap_Permutation, startWorkers_Permutation. }
  rewrite last_credit_total.
  - apply total_Permutation, Hperm.
  - rewrite (Permutation_length Hperm). exact Hone.
Qed.

(** ** Which orders a sweep rewrites, and with what *)

Lemma stored_order_update status accrual orderNumber n d :
  stored_order n (apply_stmt (SUpdateOrder status accrual orderNumber) d) =
  if String.eqb n orderNumber
  then (fun row => {| order_number := order_number row;
                      order_uuid := order_uuid row;
                      order_accrual := accrual;
                      order_status := status |}) <$> stored_order n d
  else stored_order n d.
Proof.
  unfold stored_order, apply_stmt. cbn.
  rewrite find_map_preserved.
  2:{ intros r. destruct (String.eqb (order_number r) orderNumber); reflexivity. }
  destruct (find _ (orders d)) as [r|] eqn:Hfind; cbn.
  - apply find_some in Hfind as [_ Hr]. apply String.eqb_eq in Hr. subst n.
    destruct (String.eqb (order_number r) orderNumber); reflexivity.
  - destruct (String.eqb n orderNumber); reflexivity.
Qed.

Lemma stored_order_orders n d1 d2 :
  orders d1 = orders d2 -> stored_order n d1 = stored_order n d2.
Proof. unfold stored_order. now intros ->. Qed.

Lemma stored_order_untouched n updatedOrders : forall d,
  (forall r, In r updatedOrders -> Order r <> n) ->
  stored_order n (apply_stmts (map order_stmt updatedOrders) d)
  = stored_order n d.
Proof.
  induction updatedOrders as [|o rest IH]; intros d Hall; [reflexivity|].
  cbn [map]. rewrite apply_stmts_cons, IH by (intros r Hr; apply Hall; now right).
  unfold order_stmt. rewrite stored_order_update.
  destruct (String.eqb_spec n (Order o)) as [->|]; [|reflexivity].
  exfalso. apply (Hall o); [now left|reflexivity].
Qed.

Lemma stored_order_rewritten n answer updatedOrders : forall d,
  (forall r, In r updatedOrders -> Order r = n -> r = answer) ->
  stored_order n (apply_stmts (map order_stmt updatedOrders) d)
  = (if existsb (names n) updatedOrders then rewritten answer
     else fun row => row) <$> stored_order n d.
Proof.
  induction updatedOrders as [|o rest IH]; intros d Hall.
  - cbn. destruct (stored_order n d); reflexivity.
  - cbn [map existsb]. rewrite apply_stmts_cons.
    rewrite IH by (intros r Hr; apply Hall; now right).
    unfold order_stmt at 1. rewrite stored_order_update.
    destruct (String.eqb_spec n (Order o)) as [Hn|Hn].
    + pose proof (Hall o (or_introl eq_refl) (eq_sym Hn)) as ->.
      assert (Hnames : names n answer = true)
        by (unfold names; rewrite Hn; apply String.eqb_refl).
      rewrite Hnames. cbn [orb].
      destruct (stored_order n d) as [row|]; [|reflexivity].
      cbn [fmap option_fmap option_map]. f_equal.
      destruct (existsb _ rest); reflexivity.
    + assert (Hnames : names n o = false)
        by (unfold names; apply String.eqb_neq, Hn).
      rewrite Hnames. reflexivity.
Qed.

(** The statements a sweep commits, when it commits. *)
Lemma RunUpdateOrdersStatusJob_effect accrual picks w :
  let w' := world_of (RunUpdateOrdersStatusJob accrual picks w) in
  db w' = db w
  \/ exists usersBalanceToUpdate,
       db w' =
       apply_stmts
         (map balance_stmt (map_to_list usersBalanceToUpdate)
          ++ map order_stmt
               (results_of (startWorkers accrual numOfWorkers picks
                              (select_processing_orders (db w))))) (db w).
Proof.
  rewrite RunUpdateOrdersStatusJob_run.
  destruct (next_fault w); [left; reflexivity|].
  destruct (job_loop_run
              (startWorkers accrual numOfWorkers picks
                 (select_processing_orders (db w))) [] ∅
              (logged (EvQuery QProcessingOrders) w))
    as (r & evs & Hrun & _ & Hres).
  rewrite Hrun. destruct r as [err|[L m]]; [left; reflexivity|].
  destruct Hres as [_ ->]. cbn [app].
  match goal with |- context [withTransaction (statements_body ?f ?s) ?w0] =>
    destruct (withTransaction_statements f s w0)
      as (r & d & t & evs' & -> & [->|(_ & -> & _)])
  end; [left; reflexivity|right].
  exists m. reflexivity.
Qed.

Lemma CheckUpdateUserOrders_effect accrual picks userID w :
  let w' := world_of (CheckUpdateUserOrders accrual picks userID w) in
  db w' = db w
  \/ exists newUserBalance,
       db w' =
       apply_stmts
         (map balance_stmt [(userID, newUserBalance)]
          ++ map order_stmt
               (results_of
                  (startWorkers accrual numOfWorkers picks
                     (select_user_processing_orders userID (db w))))) (db w).
Proof.
  rewrite CheckUpdateUserOrders_run. lazy zeta.
  destruct (next_fault w); [left; reflexivity|].
  destruct (first_error _); [left; reflexivity|].
  destruct (next_fault _); [left; reflexivity|].
  destruct (select_user_balance userID (db w)) as [b|]; [|left; reflexivity].
  match goal with |- context [withTransaction (statements_body ?f ?s) ?w0] =>
    destruct (withTransaction_statements f s w0)
      as (r & d & t & evs' & -> & [->|(_ & -> & _)])
  end; [left; reflexivity|right].
  eexists. reflexivity.
Qed.

(** X10: a sweep rewrites only the orders that an answer names.  Whatever
    fails on the way, the stored row of an order number that no result of
    the batch carries is after the sweep what it was before; in particular
    an order that is not pending stays as it is as long as the service
    answers about the order it was asked about. *)
Theorem sweep_leaves_other_orders (accrual : AccrualService)
    (picks : list nat) (userID : UUID) (w : World) (n : string) :
  ((forall task r,
      In task (select_processing_orders (db w)) ->
      worker accrual task = Some (OnResultCh r) -> Order r <> n) ->
   stored_order n (db (world_of (RunUpdateOrdersStatusJob accrual picks w)))
   = stored_order n (db w))
  /\ ((forall task r,
         In task (select_user_processing_orders userID (db w)) ->
         worker accrual task = Some (OnResultCh r) -> Order r <> n) ->
      stored_order n
        (db (world_of (CheckUpdateUserOrders accrual picks userID w)))
      = stored_order n (db w)).
Proof.
  split; intros Hothers.
  - destruct (RunUpdateOrdersStatusJob_effect accrual picks w)
      as [->|[m ->]]; [reflexivity|].
    rewrite apply_stmts_app, stored_order_untouched.
    + apply stored_order_orders, balance_stmts_orders.
    + intros r Hr.
      apply In_results_of, In_startWorkers in Hr as (task & Hin & Hw).
      exact (Hothers task r Hin Hw).
  - destruct (CheckUpdateUserOrders_effect accrual picks userID w)
      as [->|[nb ->]]; [reflexivity|].
    rewrite apply_stmts_app, stored_order_untouched.
    + apply stored_order_orders, balance_stmts_orders.
    + intros r Hr.
      apply In_results_of, In_startWorkers in Hr as (task & Hin & Hw).
      exact (Hothers task r Hin Hw).
Qed.

(** X11: a sweep stores the answer as it comes.  When the worker of a
    pending order sends a result (the status of the answer differs from the
    stored one) and the sweep runs without a driver failure and returns nil,
    the row of the order number the result carries has afterwards the status
    and the accrual of the result, whatever they are: the status is not
    checked against the known ones, and an answer without accrual stores
    NULL.  This holds in a batch where every result carrying that number is
    this one, and when every amount that the sweep writes, accrual or
    balance, is one that the DECIMAL(9, 2) columns store as it is. *)
Theorem sweep_stores_the_answer (accrual : AccrualService)
    (picks : list nat) (userID : UUID) (w : World)
    (task : UserOrder) (answer : AccrualResponseData) (cent : Z) :
  no_faults w ->
  worker accrual task = Some (OnResultCh answer) ->
  0 < cent ->
  (In task (select_processing_orders (db w)) ->
   (forall task' r,
      In task' (select_processing_orders (db w)) ->
      worker accrual task' = Some (OnResultCh r) ->
      Order r = Order answer -> r = answer) ->
   returned (RunUpdateOrdersStatusJob accrual picks w) = Some None ->
   written_as_sent cent (RunUpdateOrdersStatusJob accrual picks w) ->
   stored_order (Order answer)
     (db (world_of (RunUpdateOrdersStatusJob accrual picks w)))
   = rewritten answer <$> stored_order (Order answer) (db w))
  /\ (In task (select_user_processing_orders userID (db w)) ->
      (forall task' r,
         In task' (select_user_processing_orders userID (db w)) ->
         worker accrual task' = Some (OnResultCh r) ->
         Order r = Order answer -> r = answer) ->
      returned (CheckUpdateUserOrders accrual picks userID w) = Some None ->
      written_as_sent cent (CheckUpdateUserOrders accrual picks userID w) ->
      stored_order (Order answer)
        (db (world_of (CheckUpdateUserOrders accrual picks userID w)))
      = rewritten answer <$> stored_order (Order answer) (db w)).
Proof.
  intros Hnf Hworker _.
  assert (Hcollected : forall tasks d,
    In task tasks ->
    (forall task' r, In task' tasks ->
       worker accrual task' = Some (OnResultCh r) ->
       Order r = Order answer -> r = answer) ->
    stored_order (Order answer)
      (apply_stmts
         (map order_stmt
            (results_of (startWorkers accrual numOfWorkers picks tasks))) d)
    = rewritten answer <$> stored_order (Order answer) d).
  { intros tasks d Hin Hothers.
    rewrite (stored_order_rewritten _ answer).
    - assert (Hex : existsb (names (Order answer))
                      (results_of (startWorkers accrual numOfWorkers picks tasks))
                    = true).
      { apply existsb_exists. exists answer. split.
        - apply In_results_of, In_startWorkers. exists task. auto.
        - unfold names. apply String.eqb_refl. }
      rewrite Hex. reflexivity.
    - intros r Hr. apply In_results_of, In_startWorkers in Hr
        as (task' & Hin' & Hw). exact (Hothers task' r Hin' Hw). }
  split; intros Hin Hothers Hdone _.
  - destruct (RunUpdateOrdersStatusJob_completed accrual picks w Hnf Hdone)
      as [m ->].
    rewrite apply_stmts_app, (Hcollected _ _ Hin Hothers). f_equal.
    apply stored_order_orders, balance_stmts_orders.
  - destruct (CheckUpdateUserOrders_completed accrual picks userID w Hnf Hdone)
      as (b & _ & _ & ->).
    change (SUpdateBalance ?x userID :: ?l)
      with (map balance_stmt [(userID, x)] ++ l).
    rewrite apply_stmts_app, (Hcollected _ _ Hin Hothers).
    rewrite (stored_order_orders _ _ (db w)); [reflexivity|].
    apply balance_stmts_orders.
Qed.

(** ** More on the validator: check digits and transpositions *)

Lemma digits_of_append s t :
  digits_of (String.append s t) = digits_of s ++ digits_of t.
Proof. induction s as [|c s IH]; [reflexivity|].
  change (String.append (String c s) t) with (String c (String.append s t)).
  cbn [digits_of]. rewrite IH. reflexivity. Qed.

Lemma isValidLuhn_appended number c :
  isValidLuhn (String.append number (String c EmptyString)) =
  ((Atoi c + luhn_total_from_right true (rev (digits_of number))) mod 10 =? 0).
Proof.
  rewrite isValidLuhn_total, digits_of_append. cbn [digits_of].
  rewrite rev_app_distr. cbn [rev app luhn_total_from_right negb]. reflexivity.
Qed.

Lemma Atoi_digit_char v :
  0 <= v <= 9 ->
  is_digit (ascii_of_N (48 + Z.to_N v)) = true
  /\ Atoi (ascii_of_N (48 + Z.to_N v)) = v.
Proof.
  intros Hv. unfold Atoi, is_digit.
  rewrite N_ascii_embedding by lia.
  assert (H1 : (48 <=? 48 + Z.to_N v)%N = true) by (apply N.leb_le; lia).
  assert (H2 : (48 + Z.to_N v <=? 57)%N = true) by (apply N.leb_le; lia).
  rewrite H1, H2. cbn [andb]. split; [reflexivity|lia].
Qed.

(** X12: every string has exactly one check digit.  Appending
    [check_digit number] to [number] gives a string that [isValidLuhn]
    accepts, and no other digit does. *)
Theorem isValidLuhn_check_digit (number : string) :
  is_digit (check_digit number) = true
  /\ isValidLuhn
       (String.append number (String (check_digit number) EmptyString))
     = true
  /\ forall c,
       is_digit c = true ->
       isValidLuhn (String.append number (String c EmptyString)) = true ->
       c = check_digit number.
Proof.
  unfold check_digit.
  set (weighted := luhn_total_from_right true (rev (digits_of number))).
  assert (Hv : 0 <= (10 - weighted mod 10) mod 10 <= 9)
    by (Z.to_euclidean_division_equations; lia).
  destruct (Atoi_digit_char _ Hv) as [Hdigit Hvalue].
  split; [exact Hdigit|]. split.
  - rewrite isValidLuhn_appended, Hvalue. fold weighted. apply Z.eqb_eq.
    Z.to_euclidean_division_equations. lia.
  - intros c Hc Hvalid. apply Atoi_inj; [exact Hc|exact Hdigit|].
    rewrite Hvalue. rewrite isValidLuhn_appended in Hvalid. fold weighted in Hvalid.
    apply Z.eqb_eq in Hvalid. pose proof (Atoi_range c).
    Z.to_euclidean_division_equations. lia.
Qed.

Lemma get_replace_at_other c s : forall k j,
  k <> j -> String.get k (replace_at j c s) = String.get k s.
Proof.
  induction s as [|x rest IH]; intros k j Hne; [destruct j; reflexivity|].
  destruct j as [|j], k as [|k]; cbn [replace_at String.get];
    try reflexivity; try congruence.
  apply IH. congruence.
Qed.

Lemma neighbours_differ_in_parity (k : nat) (n : Z) :
  0 <= n ->
  (Z.rem (0 + Z.of_nat k) 2 =? Z.rem n 2) =
  negb (Z.rem (0 + Z.of_nat (S k)) 2 =? Z.rem n 2).
Proof.
  intros Hn. rewrite Nat2Z.inj_succ.
  rewrite !Z.rem_mod_nonneg by lia.
  destruct (Z.eqb_spec ((0 + Z.of_nat k) mod 2) (n mod 2)),
           (Z.eqb_spec ((0 + Z.succ (Z.of_nat k)) mod 2) (n mod 2));
    try reflexivity; exfalso; Z.to_euclidean_division_equations; lia.
Qed.

(** X13: exchanging two different neighbouring digits of a number that
    [isValidLuhn] accepts gives a number it rejects, with one exception: the
    pairs 09 and 90 are exchanged unnoticed. *)
Theorem isValidLuhn_transposition (number : string) (k : nat) (a b : ascii) :
  isValidLuhn number = true ->
  String.get k number = Some a ->
  String.get (S k) number = Some b ->
  is_digit a = true -> is_digit b = true -> a <> b ->
  (isValidLuhn (transposed k number) = true <->
   (a = "0"%char /\ b = "9"%char) \/ (a = "9"%char /\ b = "0"%char)).
Proof.
  intros Hvalid Ha Hb Hda Hdb Hne. unfold transposed. rewrite Ha, Hb.
  assert (Hvalues : Atoi a <> Atoi b)
    by (intros H; apply Hne, Atoi_inj; assumption).
  assert (Hpair :
    (a = "0"%char /\ b = "9"%char) \/ (a = "9"%char /\ b = "0"%char) <->
    (Atoi a = 0 /\ Atoi b = 9) \/ (Atoi a = 9 /\ Atoi b = 0)).
  { split; intros [[H1 H2]|[H1 H2]].
    - subst. left. split; reflexivity.
    - subst. right. split; reflexivity.
    - left. split; apply Atoi_inj; auto.
    - right. split; apply Atoi_inj; auto. }
  rewrite Hpair. clear Hpair.
  revert Hvalid. unfold isValidLuhn. rewrite !length_replace_at.
  set (n := Z.of_nat (String.length number)).
  intros Hvalid. apply Z.eqb_eq in Hvalid. rewrite Z.eqb_eq.
  assert (Ha' : String.get k (replace_at (S k) a number) = Some a)
    by (rewrite get_replace_at_other by lia; exact Ha).
  pose proof (luhn_loop_nonneg (Z.rem n 2) number 0).
  pose proof (luhn_loop_nonneg (Z.rem n 2)
                (replace_at k b (replace_at (S k) a number)) 0).
  pose proof (luhn_loop_replace_at (Z.rem n 2) b a _ k 0 Ha') as E1.
  pose proof (luhn_loop_replace_at (Z.rem n 2) a b number (S k) 0 Hb) as E2.
  rewrite !luhn_digit_double in E1, E2.
  rewrite (neighbours_differ_in_parity k n) in E1 by (unfold n; lia).
  pose proof (Atoi_range a). pose proof (Atoi_range b).
  rewrite Z.rem_mod_nonneg in Hvalid |- * by lia.
  rewrite E1, E2. clear E1 E2. unfold luhn_double.
  destruct (Z.rem (0 + Z.of_nat (S k)) 2 =? Z.rem n 2); cbn [negb];
    destruct (Z.ltb_spec 9 (2 * Atoi a)), (Z.ltb_spec 9 (2 * Atoi b));
    split; intros Hgoal;
    try (Z.to_euclidean_division_equations; lia).
Qed.

(** ** What the reports show after an intake and after a withdrawal *)

Lemma WithdrawalBonusForNewOrder_accepted userID orderNumber sum w userBalance :
  isValidLuhn orderNumber = true ->
  no_faults w ->
  select_user_balance userID (db w) = Some userBalance ->
  sum <= userBalance ->
  let stmts := [SInsertWithdrawal userID orderNumber sum;
                SUpdateBalance (userBalance - sum) userID] in
  WithdrawalBonusForNewOrder userID orderNumber sum w =
  Ret None
    (mkWorld (apply_stmts stmts (db w)) None
       (trace w ++ [EvQuery (QUserBalance userID)]
                ++ EvBegin :: map EvExec stmts ++ [EvCommit])
       (faults w)).
Proof.
  intros Hvalid Hnf Hb Hle stmts.
  rewrite WithdrawalBonusForNewOrder_run, Hvalid. lazy zeta.
  rewrite (no_faults_next w Hnf), Hb.
  destruct (Z.ltb_spec userBalance sum) as [Hlt|_]; [lia|].
  rewrite withTransaction_executable; [|exact Hnf|reflexivity].
  unfold logged, mkWorld. cbn [db open_tx trace faults].
  rewrite <- !app_assoc. reflexivity.
Qed.

Lemma length_snoc_nonzero {A} (l : list A) (x : A) :
  (length (l ++ [x]) =? 0)%nat = false.
Proof. rewrite length_app. cbn. apply Nat.eqb_neq. lia. Qed.

Lemma total_snoc amounts a : total (amounts ++ [a]) = total amounts + a.
Proof.
  unfold total. induction amounts as [|x rest IH]; cbn; [lia|].
  rewrite IH. lia.
Qed.

(** X14: an accepted order shows in the owner's report.  After an intake
    that stored the order, [GetUserOrdersInfo] gives the owner the orders
    listed before followed by the new one, with the accrual and the status
    it was stored with, and so never [ErrUserHasNoOrders]; what the other
    users are listed is what it was.  This is so when the accrual and the
    new balance are amounts that the DECIMAL(9, 2) columns store as they
    are. *)
Theorem orders_report_after_intake (accrual : AccrualService)
    (userID : UUID) (orderNumber : string) (w : World)
    (responseData : AccrualResponseData) (a : Decimal) (cent : Z) :
  isValidLuhn orderNumber = true ->
  no_faults w ->
  select_order_owner orderNumber (db w) = None ->
  GetAccrualAPI accrual (intake_order orderNumber) = (responseData, None) ->
  Accrual responseData = Some a ->
  0 < cent ->
  stored_as_it_is cent a ->
  stored_as_it_is cent (default 0 (select_user_balance userID (db w)) + a) ->
  let after := db (world_of (InputUserOrder accrual userID orderNumber w)) in
  Reports.GetUserOrdersInfo None userID after
  = (Reports.select_user_orders userID (db w)
     ++ [{| uo_UserID := uuid_Nil; uo_Number := orderNumber;
            uo_Status := normalized (Status responseData);
            uo_Accrual := Some a |}], None)
  /\ (forall u, u <> userID ->
        Reports.GetUserOrdersInfo None u after
        = Reports.GetUserOrdersInfo None u (db w)).
Proof.
  intros Hvalid Hnf Hnew Hanswer Hacc _ _ _ after. subst after.
  rewrite (InputUserOrder_accepted accrual userID orderNumber w responseData a
             Hvalid Hnf Hnew Hanswer Hacc).
  cbn [world_of mkWorld db apply_stmts fold_left].
  unfold Reports.GetUserOrdersInfo, Reports.GetUserOrders,
    Reports.select_user_orders.
  assert (Horders :
    orders (apply_stmt (SUpdateBalance
                          (default 0 (select_user_balance userID (db w)) + a)
                          userID)
              (apply_stmt (SInsertOrder orderNumber userID a
                             (normalized (Status responseData))) (db w)))
    = orders (db w)
      ++ [{| order_number := orderNumber; order_uuid := userID;
             order_accrual := Some a;
             order_status := normalized (Status responseData) |}]).
  { rewrite apply_insert_order by exact Hnew. reflexivity. }
  rewrite Horders, !List.filter_app. cbn [List.filter order_uuid].
  split.
  - rewrite N.eqb_refl, map_app. cbn [map order_number order_status
      order_accrual]. rewrite length_snoc_nonzero. reflexivity.
  - intros u Hu. apply N.eqb_neq in Hu.
    rewrite List.filter_app. cbn [List.filter order_uuid].
    rewrite N.eqb_sym, Hu, app_nil_r. reflexivity.
Qed.

(** X15: a withdrawal moves its sum from [Current] to [Withdrawn].  In the
    balance that [GetUserBalance] reports after a withdrawal that went
    through, [Current] is lower and [Withdrawn] higher by the sum than in
    the balance reported before, so that their total is the same, whatever
    [Scan] makes of the NULL that the sum over no withdrawal is.  This is
    so when the sum and the new balance are amounts that the DECIMAL(9, 2)
    columns store as they are. *)
Theorem balance_report_after_withdrawal (userID : UUID)
    (orderNumber : string) (sum : Decimal) (w : World)
    (userBalance : Decimal) (null_scan : option string) (cent : Z) :
  isValidLuhn orderNumber = true ->
  no_faults w ->
  select_user_balance userID (db w) = Some userBalance ->
  sum <= userBalance ->
  0 < cent ->
  stored_as_it_is cent sum ->
  stored_as_it_is cent (userBalance - sum) ->
  let before := Reports.GetUserBalance None None null_scan userID (db w) in
  let after :=
    Reports.GetUserBalance None None null_scan userID
      (db (world_of (WithdrawalBonusForNewOrder userID orderNumber sum w))) in
  snd before = None /\ snd after = None
  /\ Reports.Current (fst after) = Reports.Current (fst before) - sum
  /\ Reports.Withdrawn (fst after) = Reports.Withdrawn (fst before) + sum
  /\ Reports.Current (fst after) + Reports.Withdrawn (fst after)
     = Reports.Current (fst before) + Reports.Withdrawn (fst before).
Proof.
  intros Hvalid Hnf Hb Hle _ _ _ before after. subst before after.
  rewrite (WithdrawalBonusForNewOrder_accepted userID orderNumber sum w
             userBalance Hvalid Hnf Hb Hle).
  cbn [world_of mkWorld db apply_stmts fold_left].
  unfold Reports.GetUserBalance, Reports.query_user_balance.
  rewrite select_user_balance_update.
  rewrite (select_user_balance_balance userID
             (apply_stmt (SInsertWithdrawal userID orderNumber sum) (db w))
             (db w)) by reflexivity.
  rewrite N.eqb_refl, Hb. cbn [option_map fmap option_fmap].
  assert (Hbefore : forall d,
    (let (userWithdrawn, err) :=
       Reports.GetUserWithdrawn None null_scan userID d in
     match err with Some _ => 0 | None => userWithdrawn end)
    = total (Reports.select_user_withdrawn userID d)).
  { intros d. unfold Reports.GetUserWithdrawn.
    destruct (Reports.select_user_withdrawn userID d) eqn:E;
      [destruct null_scan; reflexivity|reflexivity]. }
  assert (Hsums :
    Reports.select_user_withdrawn userID
      (apply_stmt (SUpdateBalance (userBalance - sum) userID)
         (apply_stmt (SInsertWithdrawal userID orderNumber sum) (db w)))
    = Reports.select_user_withdrawn userID (db w) ++ [sum]).
  { unfold Reports.select_user_withdrawn. cbn [apply_stmt exec_stmt withdrawals].
    rewrite List.filter_app. cbn [List.filter withdrawal_uuid].
    rewrite N.eqb_refl, map_app. reflexivity. }
  pose proof (Hbefore (db w)) as H1.
  pose proof (Hbefore (apply_stmt (SUpdateBalance (userBalance - sum) userID)
         (apply_stmt (SInsertWithdrawal userID orderNumber sum) (db w)))) as H2.
  rewrite Hsums, total_snoc in H2.
  destruct (Reports.GetUserWithdrawn None null_scan userID (db w))
    as [wd err].
  destruct (Reports.GetUserWithdrawn None null_scan userID _) as [wd' err'].
  cbn [fst snd Reports.Current Reports.Withdrawn].
  rewrite H1, H2. repeat split; lia.
Qed.

(** X16: a withdrawal shows in the user's list.  After a withdrawal that
    went through, [GetUserWithdrawalsInfo] gives the user the withdrawals
    listed before followed by the new one, with its order number and its
    sum, and so never [ErrUserHasNoWithdrawals]; the lists of the other
    users are what they were.  This is so when the sum and the new balance
    are amounts that the DECIMAL(9, 2) columns store as they are. *)
Theorem withdrawals_report_after_withdrawal (userID : UUID)
    (orderNumber : string) (sum : Decimal) (w : World)
    (userBalance : Decimal) (cent : Z) :
  isValidLuhn orderNumber = true ->
  no_faults w ->
  select_user_balance userID (db w) = Some userBalance ->
  sum <= userBalance ->
  0 < cent ->
  stored_as_it_is cent sum ->
  stored_as_it_is cent (userBalance - sum) ->
  let after :=
    db (world_of (WithdrawalBonusForNewOrder userID orderNumber sum w)) in
  Reports.GetUserWithdrawalsInfo None userID after
  = (Reports.select_user_withdrawals userID (db w)
     ++ [{| Reports.uw_Order := orderNumber;
            Reports.uw_Sum := Some sum |}], None)
  /\ (forall u, u <> userID ->
        Reports.GetUserWithdrawalsInfo None u after
        = Reports.GetUserWithdrawalsInfo None u (db w)).
Proof.
  intros Hvalid Hnf Hb Hle _ _ _ after. subst after.
  rewrite (WithdrawalBonusForNewOrder_accepted userID orderNumber sum w
             userBalance Hvalid Hnf Hb Hle).
  cbn [world_of mkWorld db apply_stmts fold_left].
  unfold Reports.GetUserWithdrawalsInfo, Reports.GetUserWithdrawals,
    Reports.select_user_withdrawals.
  cbn [apply_stmt exec_stmt withdrawals].
  rewrite !List.filter_app. cbn [List.filter withdrawal_uuid]. split.
  - rewrite N.eqb_refl, map_app.
    cbn [map withdrawal_order_number withdrawal_sum].
    rewrite length_snoc_nonzero. reflexivity.
  - intros u Hu. apply N.eqb_neq in Hu.
    rewrite List.filter_app. cbn [List.filter withdrawal_uuid].
    rewrite N.eqb_sym, Hu, app_nil_r. reflexivity.
Qed.

(** ** The status codes of the two writing routes *)












(** ** The observations above on concrete ledgers *)


Lemma InputUserOrder_twice_witness :
  let w := reliable (one_order "PROCESSED" (Some 10)) in
  let w' :=
    world_of (InputUserOrder registered_with_accrual 1 "12345678903" w) in
  returned (InputUserOrder no_content 2 "12345678903" w')
  = Some (Some ErrAnotherUserOrderExists).
Proof.
  intros w w'. unfold w'.
  rewrite (InputUserOrder_twice registered_with_accrual no_content 1 2
             "12345678903" w
             (fst (GetAccrualAPI registered_with_accrual
                     (intake_order "12345678903"))) 0);
    [reflexivity|reflexivity|intros n; reflexivity|reflexivity|reflexivity
    |reflexivity].
Defined.

Lemma InputUserOrder_query_fails_witness :
  let w := reliable two_pending_orders in
  InputUserOrder second_fails 2 "4561261212345467" w =
  Ret (Some (ErrAccrual "connection refused"))
      (mkWorld (db w) (open_tx w)
         (trace w ++ [EvQuery (QOrderOwner "4561261212345467");
                      EvHttpGet "4561261212345467"])
         (faults w)).
Proof.
  intros w.
  apply (proj1 (InputUserOrder_query_fails second_fails 2 "4561261212345467"
                  w (ErrAccrual "connection refused")
                  eq_refl eq_refl eq_refl eq_refl)).
Defined.

Lemma order_numbers_stay_unique_witness :
  let w := reliable two_pending_orders in
  NoDup (order_numbers
           (db (world_of (RunUpdateOrdersStatusJob both_processed [] w)))).
Proof.
  intros w.
  apply (order_numbers_stay_unique both_processed [] 1 "79927398713" 0 w).
  unfold order_numbers. cbn.
  constructor;
    [intros H; apply elem_of_cons in H as [H|H];
       [discriminate H|inversion H]|].
  constructor; [intros H; inversion H|constructor].
Defined.


Lemma withdrawal_commit_failure_is_silent_witness :
  let w := failing_at 4 (one_order "PROCESSED" (Some 10)) in
  let res := WithdrawalBonusForNewOrder 1 "12345678903" 30 w in
  returned res = Some None /\ db (world_of res) = db w.
Proof.
  intros w res.
  destruct (withdrawal_commit_failure_is_silent 1 "12345678903" 30 w 100
              "conn closed")
    as (Hret & Hdb & _);
    [reflexivity|reflexivity|lia
    |intros k Hk; do 4 (destruct k as [|k]; [reflexivity|]); lia
    |reflexivity|].
  split; [exact Hret|exact Hdb].
Defined.

Lemma sweep_with_nothing_new_witness :
  let w := reliable (one_order "PROCESSING" None) in
  db (world_of (RunUpdateOrdersStatusJob still_processing [] w)) = db w.
Proof.
  intros w.
  apply (proj1 (sweep_with_nothing_new still_processing [] 1 w eq_refl)).
  intros task [<-|[]]. split; reflexivity.
Defined.

Lemma job_credits_the_last_accrual_witness :
  let w := reliable two_pending_orders in
  select_user_balance 1
    (db (world_of (RunUpdateOrdersStatusJob both_processed [] w)))
  = Some 120.
Proof.
  intros w.
  apply (proj1 (job_credits_the_last_accrual both_processed [] w 1 100 10
                  (fun n => eq_refl) eq_refl eq_refl ltac:(lia)
                  ltac:(written_amounts))).
Defined.

Lemma sweep_leaves_other_orders_witness :
  let w := reliable two_pending_orders in
  stored_order "79927398713"
    (db (world_of (RunUpdateOrdersStatusJob no_content [] w)))
  = stored_order "79927398713" (db w).
Proof.
  intros w.
  apply (proj1 (sweep_leaves_other_orders no_content [] 1 w "79927398713")).
  intros task r [<-|[<-|[]]] Hsent; vm_compute in Hsent.
  - discriminate Hsent.
  - injection Hsent as <-. discriminate.
Defined.

Lemma sweep_stores_the_answer_witness :
  let w := reliable two_pending_orders in
  stored_order "79927398713"
    (db (world_of (RunUpdateOrdersStatusJob both_processed [] w)))
  = Some {| order_number := "79927398713"; order_uuid := 1;
            order_accrual := Some 10; order_status := "PROCESSED" |}.
Proof.
  intros w.
  pose proof (proj1 (sweep_stores_the_answer both_processed [] 1 w
                 {| uo_UserID := 1; uo_Number := "79927398713";
                    uo_Status := "NEW"; uo_Accrual := None |}
                 {| UserID := 1; Order := "79927398713";
                    Status := "PROCESSED"; Accrual := Some 10 |} 10
                 (fun n => eq_refl) eq_refl ltac:(lia))) as Hstored.
  apply Hstored.
  - left. reflexivity.
  - intros task' r [<-|[<-|[]]] Hsent Hsame; vm_compute in Hsent;
      injection Hsent as <-; [reflexivity|discriminate Hsame].
  - reflexivity.
  - written_amounts.
Defined.

Lemma isValidLuhn_transposition_witness :
  isValidLuhn "97927398713" = true <->
  ("7"%char = "0"%char /\ "9"%char = "9"%char)
  \/ ("7"%char = "9"%char /\ "9"%char = "0"%char).
Proof.
  apply (isValidLuhn_transposition "79927398713" 0 "7" "9");
    [reflexivity|reflexivity|reflexivity|reflexivity|reflexivity|discriminate].
Defined.

Lemma orders_report_after_intake_witness :
  let w := reliable (one_order "PROCESSED" (Some 10)) in
  Reports.GetUserOrdersInfo None 1
    (db (world_of (InputUserOrder both_processed 1 "12345678903" w)))
  = ([{| uo_UserID := uuid_Nil; uo_Number := "79927398713";
         uo_Status := "PROCESSED"; uo_Accrual := Some 10 |};
      {| uo_UserID := uuid_Nil; uo_Number := "12345678903";
         uo_Status := "PROCESSED"; uo_Accrual := Some 20 |}], None).
Proof.
  intros w.
  apply (proj1 (orders_report_after_intake both_processed 1
                  "12345678903" w
                  (fst (GetAccrualAPI both_processed
                          (intake_order "12345678903"))) 20 10
                  eq_refl (fun n => eq_refl) eq_refl eq_refl eq_refl
                  ltac:(lia) eq_refl eq_refl)).
Defined.

Lemma balance_report_after_withdrawal_witness :
  let w := reliable (one_order "PROCESSED" (Some 10)) in
  let after :=
    Reports.GetUserBalance None None (Some "cannot scan NULL") 1
      (db (world_of (WithdrawalBonusForNewOrder 1 "12345678903" 30 w))) in
  Reports.Current (fst after) = 100 - 30
  /\ Reports.Withdrawn (fst after) = 0 + 30.
Proof.
  intros w after.
  destruct (balance_report_after_withdrawal 1 "12345678903" 30 w 100
              (Some "cannot scan NULL") 10)
    as (_ & _ & Hcurrent & Hwithdrawn & _);
    [reflexivity|intros n; reflexivity|reflexivity|lia
    |lia|reflexivity|reflexivity|].
  split; [exact Hcurrent|exact Hwithdrawn].
Defined.

Lemma withdrawals_report_after_withdrawal_witness :
  let w := reliable (one_order "PROCESSED" (Some 10)) in
  Reports.GetUserWithdrawalsInfo None 1
    (db (world_of (WithdrawalBonusForNewOrder 1 "12345678903" 30 w)))
  = ([{| Reports.uw_Order := "12345678903";
         Reports.uw_Sum := Some 30 |}], None).
Proof.
  intros w.
  apply (proj1 (withdrawals_report_after_withdrawal 1 "12345678903" 30 w 100
                  10 eq_refl (fun n => eq_refl) eq_refl
                  ltac:(lia) ltac:(lia) eq_refl eq_refl)).
Defined.


